(** * Consumption counter: ring buffer, aggregation and sync scheduling

    A shallow embedding of [src/src/consumption.c] (with the types of
    [src/include/consumption.h]) and the properties of its event-ingest,
    ring-buffer, aggregation and sync-scheduling engine.

    Conventions.
    - [uint32_t] and [uint8_t] values are integers of [Z]; every C operation
      that can wrap is written with [wrap32].
    - The module state [g_state] is a record threaded through a state monad
      whose failure case records C undefined behaviour (division by zero,
      access through a null or out-of-range index, a write past
      [json_buffer]).
    - The platform functions ([consumption_platform_get_timestamp],
      [..._storage_read], [..._storage_write], [..._network_send],
      [..._log], [malloc]) are an arbitrary oracle [platform]; the calls
      that leave the module are recorded in a trace.
    - The purchase path of [src/examples/vending_machine_integration.c]
      is embedded on top of the module, with the calls of [printf] and
      [sleep] recorded as they are made. *)

From Stdlib Require Import ZArith String Ascii List Lia Bool.
From Stdlib Require DecimalString DecimalFacts DecimalPos DecimalN.
From stdpp Require Import base list.

Local Open Scope Z_scope.

(* ====================================================================== *)
(** ** Machine integers *)

Definition wrap32 (x : Z) : Z := x mod 4294967296.

Definition u32 (x : Z) : Prop := 0 <= x < 4294967296.

(* ====================================================================== *)
(** ** Data model ([consumption.h]) *)

Record consumption_config_t := mk_config {
  machine_id : Z;
  enable_external_api : bool;
  ring_buffer_size : Z;
  aggregation_interval : Z;
  api_endpoint : string;
  api_key : string;
  max_retry_attempts : Z
}.

(** [machine_id] of an event is [ev_machine_id]: record fields share one
    name space. *)
Record consumption_event_t := mk_event {
  timestamp : Z;
  ev_machine_id : Z;
  product_id : Z
}.

(** [product_counts] is the array [uint32_t product_counts[256]]. *)
Record consumption_aggregate_t := mk_aggregate {
  agg_machine_id : Z;
  period_start : Z;
  period_end : Z;
  agg_total_events : Z;
  product_counts : list Z
}.

Inductive consumption_error_t :=
| CONSUMPTION_SUCCESS
| CONSUMPTION_ERROR_INVALID_CONFIG
| CONSUMPTION_ERROR_STORAGE_FULL
| CONSUMPTION_ERROR_NETWORK_UNAVAILABLE
| CONSUMPTION_ERROR_API_ERROR
| CONSUMPTION_ERROR_MEMORY_ERROR
| CONSUMPTION_ERROR_INVALID_PARAMETER.

Definition error_eqb (a b : consumption_error_t) : bool :=
  match a, b with
  | CONSUMPTION_SUCCESS, CONSUMPTION_SUCCESS
  | CONSUMPTION_ERROR_INVALID_CONFIG, CONSUMPTION_ERROR_INVALID_CONFIG
  | CONSUMPTION_ERROR_STORAGE_FULL, CONSUMPTION_ERROR_STORAGE_FULL
  | CONSUMPTION_ERROR_NETWORK_UNAVAILABLE, CONSUMPTION_ERROR_NETWORK_UNAVAILABLE
  | CONSUMPTION_ERROR_API_ERROR, CONSUMPTION_ERROR_API_ERROR
  | CONSUMPTION_ERROR_MEMORY_ERROR, CONSUMPTION_ERROR_MEMORY_ERROR
  | CONSUMPTION_ERROR_INVALID_PARAMETER, CONSUMPTION_ERROR_INVALID_PARAMETER => true
  | _, _ => false
  end.

(** The internal [consumption_state_t]. [event_buffer] is the heap block
    the pointer designates, [None] for a null pointer. *)
Record consumption_state_t := mk_state {
  initialized : bool;
  config : consumption_config_t;
  total_events : Z;
  buffer_head : Z;
  buffer_tail : Z;
  buffer_count : Z;
  event_buffer : option (list consumption_event_t);
  last_aggregation : Z;
  last_sync : Z;
  sync_in_progress : bool
}.

Definition set_initialized (v : bool) (s : consumption_state_t) :=
  mk_state v (config s) (total_events s) (buffer_head s) (buffer_tail s)
    (buffer_count s) (event_buffer s) (last_aggregation s) (last_sync s)
    (sync_in_progress s).
Definition set_config (v : consumption_config_t) (s : consumption_state_t) :=
  mk_state (initialized s) v (total_events s) (buffer_head s) (buffer_tail s)
    (buffer_count s) (event_buffer s) (last_aggregation s) (last_sync s)
    (sync_in_progress s).
Definition set_total_events (v : Z) (s : consumption_state_t) :=
  mk_state (initialized s) (config s) v (buffer_head s) (buffer_tail s)
    (buffer_count s) (event_buffer s) (last_aggregation s) (last_sync s)
    (sync_in_progress s).
Definition set_buffer_head (v : Z) (s : consumption_state_t) :=
  mk_state (initialized s) (config s) (total_events s) v (buffer_tail s)
    (buffer_count s) (event_buffer s) (last_aggregation s) (last_sync s)
    (sync_in_progress s).
Definition set_buffer_tail (v : Z) (s : consumption_state_t) :=
  mk_state (initialized s) (config s) (total_events s) (buffer_head s) v
    (buffer_count s) (event_buffer s) (last_aggregation s) (last_sync s)
    (sync_in_progress s).
Definition set_buffer_count (v : Z) (s : consumption_state_t) :=
  mk_state (initialized s) (config s) (total_events s) (buffer_head s)
    (buffer_tail s) v (event_buffer s) (last_aggregation s) (last_sync s)
    (sync_in_progress s).
Definition set_event_buffer (v : option (list consumption_event_t))
    (s : consumption_state_t) :=
  mk_state (initialized s) (config s) (total_events s) (buffer_head s)
    (buffer_tail s) (buffer_count s) v (last_aggregation s) (last_sync s)
    (sync_in_progress s).
Definition set_last_aggregation (v : Z) (s : consumption_state_t) :=
  mk_state (initialized s) (config s) (total_events s) (buffer_head s)
    (buffer_tail s) (buffer_count s) (event_buffer s) v (last_sync s)
    (sync_in_progress s).
Definition set_last_sync (v : Z) (s : consumption_state_t) :=
  mk_state (initialized s) (config s) (total_events s) (buffer_head s)
    (buffer_tail s) (buffer_count s) (event_buffer s) (last_aggregation s) v
    (sync_in_progress s).
Definition set_sync_in_progress (v : bool) (s : consumption_state_t) :=
  mk_state (initialized s) (config s) (total_events s) (buffer_head s)
    (buffer_tail s) (buffer_count s) (event_buffer s) (last_aggregation s)
    (last_sync s) v.

(** [memset(&config, 0, ...)] and [static consumption_state_t g_state = {0}]. *)
Definition zero_config : consumption_config_t :=
  mk_config 0 false 0 0 EmptyString EmptyString 0.

Definition zero_state : consumption_state_t :=
  mk_state false zero_config 0 0 0 0 None 0 0 false.

(* ====================================================================== *)
(** ** Platform and effects *)

(** What leaves the module: [consumption_platform_storage_write] with the
    bytes of [g_state], [consumption_platform_network_send] with endpoint,
    buffer text and [data_len], [consumption_platform_log]. *)
Inductive io_event :=
| IoStorageWrite (blob : consumption_state_t)
| IoNetworkSend (endpoint data : string) (data_len : Z)
| IoLog (level : Z) (message : string).

(** The answers of the platform, by call number: the clock, the storage
    read ([None]: the read fails, [Some blob]: it fills [g_state] with
    [blob]), the network sink, and [malloc] ([None]: null, [Some f]: a
    block whose cell [i] initially holds [f i]). *)
Record platform := mk_platform {
  clock : nat -> Z;
  storage : nat -> option consumption_state_t;
  network : nat -> bool;
  heap : nat -> option (nat -> consumption_event_t)
}.

Record world := mk_world {
  g_state : consumption_state_t;
  clock_reads : nat;
  storage_reads : nat;
  network_sends : nat;
  allocations : nat;
  trace : list io_event
}.

Definition with_g (f : consumption_state_t -> consumption_state_t) (w : world) :=
  mk_world (f (g_state w)) (clock_reads w) (storage_reads w) (network_sends w)
    (allocations w) (trace w).

Definition emit (e : io_event) (w : world) :=
  mk_world (g_state w) (clock_reads w) (storage_reads w) (network_sends w)
    (allocations w) (trace w ++ [e]).

(** The world at power-up: [g_state] is zero, nothing has been called. *)
Definition boot : world := mk_world zero_state 0 0 0 0 [].

Inductive undefined :=
| DivisionByZero
| NullDereference
| OutOfBounds.

Inductive result (A : Type) :=
| Ok (a : A)
| Fault (u : undefined).
Arguments Ok {A} a.
Arguments Fault {A} u.

Definition M (A : Type) : Type := world -> result (A * world).

Definition ret {A} (a : A) : M A := fun w => Ok (a, w).

Definition bind {A B} (c : M A) (k : A -> M B) : M B :=
  fun w => match c w with
           | Ok (a, w') => k a w'
           | Fault u => Fault u
           end.

Definition lift {A} (r : result A) : M A :=
  fun w => match r with
           | Ok a => Ok (a, w)
           | Fault u => Fault u
           end.

Definition get : M consumption_state_t := fun w => Ok (g_state w, w).

Definition modify (f : consumption_state_t -> consumption_state_t) : M unit :=
  fun w => Ok (tt, with_g f w).

Definition output (e : io_event) : M unit := fun w => Ok (tt, emit e w).

Declare Scope monad_scope.
Delimit Scope monad_scope with monad.
Notation "x <- c ;; k" := (bind c (fun x => k))
  (at level 100, c at next level, right associativity) : monad_scope.
Notation "c ;;; k" := (bind c (fun _ => k))
  (at level 100, right associativity) : monad_scope.
Local Open Scope monad_scope.

(** The same for the pure, fallible steps. *)
Definition rbind {A B} (r : result A) (k : A -> result B) : result B :=
  match r with
  | Ok a => k a
  | Fault u => Fault u
  end.

(** [a % b] on [uint32_t]: undefined for [b = 0]. *)
Definition c_mod (a b : Z) : result Z :=
  if b =? 0 then Fault DivisionByZero else Ok (a mod b).

(** [p[i]] read and [p[i] = e] write through the pointer [event_buffer]. *)
Definition load_cell (p : option (list consumption_event_t)) (i : Z)
  : result consumption_event_t :=
  match p with
  | None => Fault NullDereference
  | Some buf =>
      match buf !! Z.to_nat i with
      | Some e => if 0 <=? i then Ok e else Fault OutOfBounds
      | None => Fault OutOfBounds
      end
  end.

Definition store_cell (p : option (list consumption_event_t)) (i : Z)
    (e : consumption_event_t) : result (list consumption_event_t) :=
  match p with
  | None => Fault NullDereference
  | Some buf =>
      if (0 <=? i) && (i <? Z.of_nat (length buf))
      then Ok (<[Z.to_nat i := e]> buf)
      else Fault OutOfBounds
  end.

(* ====================================================================== *)
(** ** Text of the wire payload *)

(** The double-quote character of the C format strings. *)
Definition dq : string := String (ascii_of_nat 34) EmptyString.

Definition quoted (s : string) : string := (dq ++ s ++ dq)%string.

(** [%u] and [%d] of a non-negative value. *)
Definition decimal (n : Z) : string :=
  DecimalString.NilZero.string_of_uint (N.to_uint (Z.to_N n)).

Definition strlen (s : string) : Z := Z.of_nat (String.length s).

(** [char json_buffer[1024]] together with the running [int len]. [text]
    is the C string held in the buffer (up to its terminator). *)
Record json_buffer_t := mk_json {
  text : string;
  len : Z
}.

Definition json_buffer_size : Z := 1024.

(** [len += snprintf(json_buffer + len, sizeof(json_buffer) - len, ...)]
    where the formatted text is [piece]: at most [size - 1] characters and
    a terminator are written at offset [len], and the length the whole
    [piece] would have needed is returned. Once [len] exceeds 1024 the
    pointer is outside the array and the unsigned size wraps around: the
    write is out of bounds. *)
Definition snprintf (b : json_buffer_t) (piece : string) : result json_buffer_t :=
  if len b >? json_buffer_size then Fault OutOfBounds
  else
    let size := json_buffer_size - len b in
    Ok (mk_json
          (if size =? 0 then text b
           else (String.substring 0 (Z.to_nat (len b)) (text b)
                 ++ String.substring 0 (Z.to_nat (size - 1)) piece)%string)
          (len b + strlen piece)).

Definition json_header (a : consumption_aggregate_t) : string :=
  ("{" ++ quoted "machine_id" ++ ":" ++ decimal (agg_machine_id a)
   ++ "," ++ quoted "period_start" ++ ":" ++ decimal (period_start a)
   ++ "," ++ quoted "period_end" ++ ":" ++ decimal (period_end a)
   ++ "," ++ quoted "total_events" ++ ":" ++ decimal (agg_total_events a))%string.

Definition json_products_open : string := ("," ++ quoted "products" ++ ":{")%string.

Definition json_product (i count : Z) : string :=
  (quoted (decimal i) ++ ":" ++ decimal count)%string.

(** The body of [for (int i = 1; i < 256; i++)], over the remaining
    values of [i]. *)
Fixpoint json_products_loop (ids : list Z) (counts : list Z) (first : bool)
    (b : json_buffer_t) : result json_buffer_t :=
  match ids with
  | [] => Ok b
  | i :: rest =>
      if nth (Z.to_nat i) counts 0 >? 0 then
        rbind (if negb first then snprintf b "," else Ok b) (fun b =>
        rbind (snprintf b (json_product i (nth (Z.to_nat i) counts 0))) (fun b =>
        json_products_loop rest counts false b))
      else json_products_loop rest counts first b
  end.

Definition product_ids : list Z := map Z.of_nat (seq 1 255).

(** "Create JSON payload" and "Add product counts" of [sync_to_api]. *)
Definition json_payload (a : consumption_aggregate_t) : result json_buffer_t :=
  rbind (snprintf (mk_json EmptyString 0) (json_header a)) (fun b =>
  rbind (snprintf b json_products_open) (fun b =>
  rbind (json_products_loop product_ids (product_counts a) true b) (fun b =>
  snprintf b "}}"))).

(* ====================================================================== *)
(** ** Configuration *)

Definition validate_config (cfg : option consumption_config_t) : bool :=
  match cfg with
  | None => false
  | Some c =>
      if machine_id c =? 0 then false
      else if ring_buffer_size c =? 0 then false
      else if ring_buffer_size c >? 10000 then false
      else true
  end.

Definition init_default_config : consumption_config_t :=
  mk_config 0 false 1000 3600 "https://api.example.com/consumption" EmptyString 3.

(* ====================================================================== *)
(** ** The engine *)

Section Engine.

Variable pf : platform.

Definition consumption_platform_get_timestamp : M Z :=
  fun w => Ok (wrap32 (clock pf (clock_reads w)),
               mk_world (g_state w) (S (clock_reads w)) (storage_reads w)
                 (network_sends w) (allocations w) (trace w)).

(** Always called on [&g_state]: a successful read replaces the whole
    record. *)
Definition consumption_platform_storage_read : M bool :=
  fun w => match storage pf (storage_reads w) with
           | Some blob =>
               Ok (true, mk_world blob (clock_reads w) (S (storage_reads w))
                           (network_sends w) (allocations w) (trace w))
           | None =>
               Ok (false, mk_world (g_state w) (clock_reads w) (S (storage_reads w))
                            (network_sends w) (allocations w) (trace w))
           end.

(** Always called on [&g_state]; no caller looks at the result. *)
Definition consumption_platform_storage_write : M unit :=
  g <- get ;; output (IoStorageWrite g).

Definition consumption_platform_network_send (endpoint data : string)
    (data_len : Z) : M bool :=
  fun w => Ok (network pf (network_sends w),
               mk_world (g_state w) (clock_reads w) (storage_reads w)
                 (S (network_sends w)) (allocations w)
                 (trace w ++ [IoNetworkSend endpoint data data_len])).

Definition consumption_platform_log (level : Z) (message : string) : M unit :=
  output (IoLog level message).

(** [malloc(cells * sizeof(consumption_event_t))]. *)
Definition malloc (cells : Z) : M (option (list consumption_event_t)) :=
  fun w => Ok (match heap pf (allocations w) with
               | Some fill => Some (map fill (seq 0 (Z.to_nat cells)))
               | None => None
               end,
               mk_world (g_state w) (clock_reads w) (storage_reads w)
                 (network_sends w) (S (allocations w)) (trace w)).

Definition save_state : M unit := consumption_platform_storage_write.

Definition load_state : M bool := consumption_platform_storage_read.

Definition add_event_to_buffer (event : consumption_event_t)
  : M consumption_error_t :=
  g <- get ;;
  (if buffer_count g >=? ring_buffer_size (config g) then
     t <- lift (c_mod (wrap32 (buffer_tail g + 1)) (ring_buffer_size (config g))) ;;
     modify (set_buffer_tail t) ;;;
     modify (set_buffer_count (wrap32 (buffer_count g - 1)))
   else ret tt) ;;;
  g <- get ;;
  buf <- lift (store_cell (event_buffer g) (buffer_head g) event) ;;
  modify (set_event_buffer (Some buf)) ;;;
  h <- lift (c_mod (wrap32 (buffer_head g + 1)) (ring_buffer_size (config g))) ;;
  modify (set_buffer_head h) ;;;
  modify (set_buffer_count (wrap32 (buffer_count g + 1))) ;;;
  ret CONSUMPTION_SUCCESS.

(** [aggregate->product_counts[i]++]. *)
Definition bump (i : Z) (counts : list Z) : list Z :=
  alter (fun c => wrap32 (c + 1)) (Z.to_nat i) counts.

(** The body of the [if] inside the loop of [aggregate_events]. *)
Definition count_event (start_time end_time : Z) (event : consumption_event_t)
    (a : consumption_aggregate_t) : consumption_aggregate_t :=
  if (timestamp event >=? start_time) && (timestamp event <=? end_time) then
    mk_aggregate (agg_machine_id a) (period_start a) (period_end a)
      (wrap32 (agg_total_events a + 1))
      (if product_id event <? 256
       then bump (product_id event) (product_counts a)
       else product_counts a)
  else a.

(** The loop of [aggregate_events] with [n] iterations left. *)
Fixpoint aggregate_loop (n : nat) (g : consumption_state_t)
    (start_time end_time index : Z) (a : consumption_aggregate_t)
  : result consumption_aggregate_t :=
  match n with
  | O => Ok a
  | S n' =>
      rbind (load_cell (event_buffer g) index) (fun event =>
      rbind (c_mod (wrap32 (index + 1)) (ring_buffer_size (config g))) (fun index' =>
      aggregate_loop n' g start_time end_time index'
        (count_event start_time end_time event a)))
  end.

Definition aggregate_events (start_time end_time : Z)
  : M consumption_aggregate_t :=
  g <- get ;;
  lift (aggregate_loop (Z.to_nat (buffer_count g)) g start_time end_time
          (buffer_tail g)
          (mk_aggregate (machine_id (config g)) start_time end_time 0
             (repeat 0 256))).

Definition sync_to_api : M consumption_error_t :=
  g <- get ;;
  if negb (enable_external_api (config g)) then ret CONSUMPTION_SUCCESS
  else if sync_in_progress g then ret CONSUMPTION_ERROR_API_ERROR
  else
    modify (set_sync_in_progress true) ;;;
    now <- consumption_platform_get_timestamp ;;
    g <- get ;;
    let period_start := last_aggregation g in
    let period_end := now in
    if wrap32 (period_end - period_start) <? aggregation_interval (config g) then
      modify (set_sync_in_progress false) ;;;
      ret CONSUMPTION_SUCCESS
    else
      aggregate <- aggregate_events period_start period_end ;;
      if agg_total_events aggregate =? 0 then
        modify (set_sync_in_progress false) ;;;
        ret CONSUMPTION_SUCCESS
      else
        json <- lift (json_payload aggregate) ;;
        g <- get ;;
        success <- consumption_platform_network_send
                     (api_endpoint (config g)) (text json) (len json) ;;
        modify (set_sync_in_progress false) ;;;
        if success then
          modify (set_last_sync now) ;;;
          modify (set_last_aggregation period_end) ;;;
          save_state ;;;
          consumption_platform_log 2 "Consumption data synced successfully" ;;;
          ret CONSUMPTION_SUCCESS
        else
          consumption_platform_log 0 "Failed to sync consumption data" ;;;
          ret CONSUMPTION_ERROR_API_ERROR.

Definition consumption_init (cfg : option consumption_config_t)
  : M consumption_error_t :=
  g <- get ;;
  if initialized g then ret CONSUMPTION_SUCCESS
  else
    let default_config := init_default_config in
    if match cfg with Some _ => negb (validate_config cfg) | None => false end
    then ret CONSUMPTION_ERROR_INVALID_CONFIG
    else
      let chosen := match cfg with Some c => c | None => default_config end in
      modify (set_config chosen) ;;;
      loaded <- load_state ;;
      (if loaded then ret tt
       else
         modify (fun _ => zero_state) ;;;
         modify (set_config chosen) ;;;
         t <- consumption_platform_get_timestamp ;;
         modify (set_last_aggregation t)) ;;;
      g <- get ;;
      p <- malloc (ring_buffer_size (config g)) ;;
      modify (set_event_buffer p) ;;;
      match p with
      | None => ret CONSUMPTION_ERROR_MEMORY_ERROR
      | Some _ =>
          modify (set_initialized true) ;;;
          consumption_platform_log 2 "Consumption module initialized" ;;;
          ret CONSUMPTION_SUCCESS
      end.

Definition consumption_on_dispense (mid pid : Z) : M consumption_error_t :=
  g <- get ;;
  if negb (initialized g) then ret CONSUMPTION_ERROR_INVALID_CONFIG
  else if negb (mid =? machine_id (config g)) then ret CONSUMPTION_ERROR_INVALID_PARAMETER
  else if pid =? 0 then ret CONSUMPTION_ERROR_INVALID_PARAMETER
  else
    t <- consumption_platform_get_timestamp ;;
    let event := mk_event t mid pid in
    result <- add_event_to_buffer event ;;
    if negb (error_eqb result CONSUMPTION_SUCCESS) then ret result
    else
      modify (fun s => set_total_events (wrap32 (total_events s + 1)) s) ;;;
      g <- get ;;
      (if enable_external_api (config g) then
         now <- consumption_platform_get_timestamp ;;
         if wrap32 (now - last_sync g) >=? aggregation_interval (config g)
         then _ <- sync_to_api ;; ret tt
         else ret tt
       else ret tt) ;;;
      ret CONSUMPTION_SUCCESS.

Definition consumption_deinit : M consumption_error_t :=
  g <- get ;;
  if negb (initialized g) then ret CONSUMPTION_SUCCESS
  else
    (if enable_external_api (config g) then _ <- sync_to_api ;; ret tt
     else ret tt) ;;;
    save_state ;;;
    modify (set_event_buffer None) ;;;
    modify (set_initialized false) ;;;
    consumption_platform_log 2 "Consumption module deinitialized" ;;;
    ret CONSUMPTION_SUCCESS.

(** The three out-pointers may be null: [want_*] tells which are not, and
    the values stored through them are returned. *)
Definition consumption_get_stats (want_total want_buffered want_last_sync : bool)
  : M (consumption_error_t * (option Z * option Z * option Z)) :=
  g <- get ;;
  if negb (initialized g) then ret (CONSUMPTION_ERROR_INVALID_CONFIG, (None, None, None))
  else
    ret (CONSUMPTION_SUCCESS,
         (if want_total then Some (total_events g) else None,
          if want_buffered then Some (buffer_count g) else None,
          if want_last_sync then Some (last_sync g) else None)).

Definition consumption_force_sync : M consumption_error_t :=
  g <- get ;;
  if negb (initialized g) then ret CONSUMPTION_ERROR_INVALID_CONFIG
  else sync_to_api.

Definition consumption_update_config (cfg : option consumption_config_t)
  : M consumption_error_t :=
  match cfg with
  | None => ret CONSUMPTION_ERROR_INVALID_CONFIG
  | Some c =>
      if negb (validate_config cfg) then ret CONSUMPTION_ERROR_INVALID_CONFIG
      else
        g <- get ;;
        if negb (ring_buffer_size c =? ring_buffer_size (config g))
        then ret CONSUMPTION_ERROR_INVALID_PARAMETER
        else
          modify (set_config c) ;;;
          save_state ;;;
          ret CONSUMPTION_SUCCESS
  end.

(** [out] tells whether the out-pointer is non-null. *)
Definition consumption_get_config (out : bool)
  : M (consumption_error_t * option consumption_config_t) :=
  if negb out then ret (CONSUMPTION_ERROR_INVALID_PARAMETER, None)
  else g <- get ;; ret (CONSUMPTION_SUCCESS, Some (config g)).

End Engine.

(* ====================================================================== *)
(** ** Vocabulary of the properties *)

Definition capacity (g : consumption_state_t) : Z := ring_buffer_size (config g).

(** The cell that holds the [i]-th oldest buffered event. *)
Definition slot (g : consumption_state_t) (i : nat) : Z :=
  (buffer_tail g + Z.of_nat i) mod capacity g.

(** The buffered events, oldest first. *)
Definition buffered (g : consumption_state_t) : list consumption_event_t :=
  match event_buffer g with
  | Some buf =>
      omap (fun i => buf !! Z.to_nat (slot g i))
        (seq 0 (Z.to_nat (buffer_count g)))
  | None => []
  end.

(** The ring of a running instance: an allocated block of [capacity]
    cells, indices inside it, and the head [count] cells after the tail. *)
Definition ring_ok (g : consumption_state_t) : Prop :=
  (exists buf, event_buffer g = Some buf /\ Z.of_nat (length buf) = capacity g) /\
  0 < capacity g < 4294967296 /\
  0 <= buffer_tail g < capacity g /\
  0 <= buffer_count g <= capacity g /\
  buffer_head g = (buffer_tail g + buffer_count g) mod capacity g.

(** What an append does to the age-ordered contents of a store of
    capacity [cap]: the oldest entry goes when the store is full. *)
Definition appended (cap : Z) (l : list consumption_event_t)
    (e : consumption_event_t) : list consumption_event_t :=
  (if Z.of_nat (length l) >=? cap then tail l else l) ++ [e].

(** The fields [add_event_to_buffer] leaves alone. *)
Definition untouched (g g' : consumption_state_t) : Prop :=
  initialized g' = initialized g /\ config g' = config g /\
  total_events g' = total_events g /\
  last_aggregation g' = last_aggregation g /\ last_sync g' = last_sync g /\
  sync_in_progress g' = sync_in_progress g.

(** The fields [sync_to_api] leaves alone. *)
Definition same_store (g g' : consumption_state_t) : Prop :=
  initialized g' = initialized g /\ config g' = config g /\
  total_events g' = total_events g /\ buffer_head g' = buffer_head g /\
  buffer_tail g' = buffer_tail g /\ buffer_count g' = buffer_count g /\
  event_buffer g' = event_buffer g.

Definition in_window (start_time end_time : Z) (e : consumption_event_t) : bool :=
  (start_time <=? timestamp e) && (timestamp e <=? end_time).

(** The number of events of [l] inside the window, and the number of
    those with category [c]. *)
Definition window_total (start_time end_time : Z)
    (l : list consumption_event_t) : Z :=
  Z.of_nat (length (List.filter (in_window start_time end_time) l)).

Definition window_category (start_time end_time c : Z)
    (l : list consumption_event_t) : Z :=
  Z.of_nat (length (List.filter
    (fun e => in_window start_time end_time e && (product_id e =? c)) l)).

(** [count_event] over a list of events, in order. *)
Definition count_all (s e : Z) (l : list consumption_event_t)
    (a : consumption_aggregate_t) : consumption_aggregate_t :=
  fold_left (fun a ev => count_event s e ev a) l a.

(** A sequence of record-event calls, each a machine identifier and a
    category, with the code each call returned. *)
Fixpoint run_calls (pf : platform) (calls : list (Z * Z))
  : M (list consumption_error_t) :=
  match calls with
  | [] => ret []
  | (mid, pid) :: rest =>
      r <- consumption_on_dispense pf mid pid ;;
      rs <- run_calls pf rest ;;
      ret (r :: rs)
  end.

Definition successes (rs : list consumption_error_t) : Z :=
  Z.of_nat (length (List.filter (fun r => error_eqb r CONSUMPTION_SUCCESS) rs)).

(** A sequence of [consumption_update_config] calls. *)
Fixpoint run_updates (cfgs : list (option consumption_config_t))
  : M (list consumption_error_t) :=
  match cfgs with
  | [] => ret []
  | c :: rest =>
      r <- consumption_update_config c ;;
      rs <- run_updates rest ;;
      ret (r :: rs)
  end.

(** The world after one more clock reading, and the reading the clock
    gives in world [w]. *)
Definition tick (w : world) : world :=
  mk_world (g_state w) (S (clock_reads w)) (storage_reads w) (network_sends w)
    (allocations w) (trace w).

Definition reading (pf : platform) (w : world) : Z :=
  wrap32 (clock pf (clock_reads w)).

(** *** A fresh start *)

(** The configuration [consumption_init] takes up, a configuration it can
    take up (a null pointer, or a record that passes [validate_config];
    [ring_buffer_size] is unsigned), and the state it builds when the
    storage read fails. *)
Definition chosen_config (cfg : option consumption_config_t) : consumption_config_t :=
  match cfg with Some c => c | None => init_default_config end.

Definition acceptable (cfg : option consumption_config_t) : Prop :=
  match cfg with
  | Some c => validate_config cfg = true /\ 0 <= ring_buffer_size c
  | None => True
  end.

Definition fresh_block (fill : nat -> consumption_event_t) (cells : Z)
  : option (list consumption_event_t) :=
  Some (map fill (seq 0 (Z.to_nat cells))).

Definition fresh_state (pf : platform) (cfg : option consumption_config_t)
    (fill : nat -> consumption_event_t) (w0 : world) : consumption_state_t :=
  mk_state true (chosen_config cfg) 0 0 0 0
    (fresh_block fill (ring_buffer_size (chosen_config cfg)))
    (reading pf w0) 0 false.

Definition fresh_world (pf : platform) (cfg : option consumption_config_t)
    (fill : nat -> consumption_event_t) (w0 : world) : world :=
  mk_world (fresh_state pf cfg fill w0)
    (S (clock_reads w0)) (S (storage_reads w0)) (network_sends w0)
    (S (allocations w0)) (trace w0 ++ [IoLog 2 "Consumption module initialized"]).

Definition six_dispenses (mid : Z) : list (Z * Z) :=
  [(mid, 1); (mid, 2); (mid, 3); (mid, 4); (mid, 5); (mid, 6)].

(** *** The wire payload as the format strings describe it *)

(** The categories of [ids] with a nonzero count, each with its count, in
    the order of [ids]. *)
Definition sold (counts : list Z) (ids : list Z) : list (Z * Z) :=
  List.filter (fun p => snd p >? 0)
    (map (fun i => (i, nth (Z.to_nat i) counts 0)) ids).

(** The entries of the [products] object, separated by commas. *)
Fixpoint products_text (first : bool) (entries : list (Z * Z)) : string :=
  match entries with
  | [] => EmptyString
  | (i, c) :: rest =>
      ((if first then EmptyString else ",") ++ json_product i c
       ++ products_text false rest)%string
  end.

Definition payload_text (a : consumption_aggregate_t) : string :=
  (json_header a ++ json_products_open
   ++ products_text true (sold (product_counts a) product_ids) ++ "}}")%string.

(** The texts handed to [consumption_platform_network_send], each with its
    [data_len]. *)
Definition payloads_sent (t : list io_event) : list (string * Z) :=
  omap (fun e => match e with IoNetworkSend _ d n => Some (d, n) | _ => None end) t.

(** The last blob handed to [consumption_platform_storage_write]. *)
Definition persisted (t : list io_event) : option consumption_state_t :=
  fold_left (fun acc e => match e with IoStorageWrite b => Some b | _ => acc end)
    t None.

(* ====================================================================== *)
(** ** Sample runs *)

Definition zero_fill : nat -> consumption_event_t := fun _ => mk_event 0 0 0.

(** A device with empty storage, and a shop with a three-cell ring and
    the external sink off. *)
Definition first_boot : platform :=
  mk_platform (fun k => 1000000000 + Z.of_nat k) (fun _ => None)
    (fun _ => true) (fun _ => Some zero_fill).

Definition shop_config : consumption_config_t :=
  mk_config 11111 false 3 3600 "https://api.example.com/consumption" EmptyString 3.

Definition shop_world : world :=
  fresh_world first_boot (Some shop_config) zero_fill boot.

Definition mixed_calls : list (Z * Z) :=
  [(11111, 1); (99999, 1); (11111, 0); (11111, 2)].

Definition mixed_results : list consumption_error_t :=
  [CONSUMPTION_SUCCESS; CONSUMPTION_ERROR_INVALID_PARAMETER;
   CONSUMPTION_ERROR_INVALID_PARAMETER; CONSUMPTION_SUCCESS].

(** One whole session of that shop: start, one sale, shutdown. *)
Definition first_session : M consumption_error_t :=
  _ <- consumption_init first_boot (Some shop_config) ;;
  _ <- consumption_on_dispense first_boot 11111 1 ;;
  consumption_deinit first_boot.

(** The record that session leaves in storage. *)
Definition saved_blob : consumption_state_t :=
  Eval vm_compute in
    match first_session boot with
    | Ok (_, w) => default zero_state (persisted (trace w))
    | Fault _ => zero_state
    end.

(** The same device at its next power-up, with and without heap left. *)
Definition second_boot : platform :=
  mk_platform (fun k => 1000007200 + Z.of_nat k) (fun _ => Some saved_blob)
    (fun _ => true) (fun _ => Some zero_fill).

Definition second_boot_no_heap : platform :=
  mk_platform (fun k => 1000007200 + Z.of_nat k) (fun _ => Some saved_blob)
    (fun _ => true) (fun _ => None).

(** The device after a long life: the restored lifetime total is the
    largest [uint32_t]. *)
Definition worn_boot : platform :=
  mk_platform (fun k => 1000007200 + Z.of_nat k)
    (fun _ => Some (set_total_events 4294967295 saved_blob))
    (fun _ => true) (fun _ => Some zero_fill).

(** A storage read that reports success on a zero-filled record, as
    [consumption_platform_storage_read] of [consumption_platform_linux.c]
    does when the file does not exist, and the mock of [test_basic.c]
    always. *)
Definition blank_storage : platform :=
  mk_platform (fun k => 1000000000 + Z.of_nat k) (fun _ => Some zero_state)
    (fun _ => true) (fun _ => Some zero_fill).

(** Two new configurations for the shop: another machine with the same
    capacity, and an invalid one with another capacity. *)
Definition other_machine : consumption_config_t :=
  mk_config 33333 false 3 1800 "https://api.example.com/consumption" EmptyString 3.

Definition no_machine_bigger : consumption_config_t :=
  mk_config 0 false 200 3600 "https://api.example.com/consumption" EmptyString 3.

(** A shop with the sink on and an interval of 100 seconds: two sales in
    the first seconds, and then the clock at 5000. *)
Definition sink_config : consumption_config_t :=
  mk_config 7 true 3 100 "https://api.example.com/consumption" EmptyString 3.

Definition quiet_hour : platform :=
  mk_platform (fun k => if (k <? 7)%nat then 1000 + Z.of_nat k else 5000)
    (fun _ => None) (fun _ => true) (fun _ => Some zero_fill).

Definition pending_world : world :=
  Eval vm_compute in
    match (_ <- consumption_init quiet_hour (Some sink_config) ;;
           run_calls quiet_hour [(7, 1); (7, 2)]) boot with
    | Ok (_, w) => w
    | Fault _ => boot
    end.

(** Clocks for a trigger 50 seconds and 4000 seconds after the window
    opened, and that shop before its first sale. *)
Definition still_early : platform :=
  mk_platform (fun _ => 1050) (fun _ => None) (fun _ => true) (fun _ => None).

Definition much_later : platform :=
  mk_platform (fun _ => 5000) (fun _ => None) (fun _ => true) (fun _ => None).

Definition idle_sink_world : world :=
  fresh_world quiet_hour (Some sink_config) zero_fill boot.

(** A busy shop with the sink on: 200 categories are sold within one
    aggregation interval, and a sync is forced after it. *)
Definition busy_config : consumption_config_t :=
  mk_config 7 true 300 1000 "https://api.example.com/consumption" EmptyString 3.

Definition busy_day : platform :=
  mk_platform (fun k => if (k <? 601)%nat then 1000000000 else 1000005000)
    (fun _ => None) (fun _ => true) (fun _ => Some zero_fill).

Definition categories (n : nat) : list (Z * Z) :=
  map (fun k => (7, Z.of_nat k)) (seq 1 n).

Definition busy_session : M consumption_error_t :=
  _ <- consumption_init busy_day (Some busy_config) ;;
  _ <- run_calls busy_day (categories 200) ;;
  consumption_force_sync busy_day.

(** A shop whose object for 129 categories needs exactly 1024 characters:
    the state after the 129 sales. *)
Definition crowded_config : consumption_config_t :=
  mk_config 777 true 300 1000 "https://api.example.com/consumption" EmptyString 3.

Definition crowded_day : platform :=
  mk_platform (fun k => if (k <? 388)%nat then 1000000000 else 1000005000)
    (fun _ => None) (fun _ => true) (fun _ => Some zero_fill).

Definition crowded_world : world :=
  Eval vm_compute in
    match (_ <- consumption_init crowded_day (Some crowded_config) ;;
           run_calls crowded_day (map (fun k => (777, Z.of_nat k)) (seq 1 129)))
            boot with
    | Ok (_, w) => w
    | Fault _ => boot
    end.

(** Goals about the ring of a concrete state close by evaluation. *)
Ltac ring_ok_by_evaluation :=
  unfold ring_ok, capacity; simpl;
  repeat split; try lia; try reflexivity;
  eexists; split; reflexivity.

(* ====================================================================== *)
(** ** Vocabulary of the start-up and shutdown properties *)

(** A configuration pointer [consumption_init] does not reject. *)
Definition passes_check (cfg : option consumption_config_t) : Prop :=
  match cfg with
  | Some _ => validate_config cfg = true
  | None => True
  end.

(** The record [consumption_init] leaves after a successful restore: the
    persisted [blob] with a new block and the flag set; and the world
    after that call. *)
Definition restored_state (blob : consumption_state_t)
    (fill : nat -> consumption_event_t) : consumption_state_t :=
  set_initialized true
    (set_event_buffer (fresh_block fill (ring_buffer_size (config blob))) blob).

Definition restored_world (blob : consumption_state_t)
    (fill : nat -> consumption_event_t) (w0 : world) : world :=
  mk_world (restored_state blob fill)
    (clock_reads w0) (S (storage_reads w0)) (network_sends w0)
    (S (allocations w0)) (trace w0 ++ [IoLog 2 "Consumption module initialized"]).

(** The indices of the ring and its marks agree in two records. *)
Definition same_counters (g g' : consumption_state_t) : Prop :=
  config g' = config g /\ total_events g' = total_events g /\
  buffer_head g' = buffer_head g /\ buffer_tail g' = buffer_tail g /\
  buffer_count g' = buffer_count g.

(** The shop after its first sale, and after the shutdown that follows. *)
Definition open_shop : world :=
  Eval vm_compute in
    match consumption_on_dispense first_boot 11111 1 shop_world with
    | Ok (_, w) => w
    | Fault _ => boot
    end.

Definition closed_shop : world :=
  Eval vm_compute in
    match consumption_deinit first_boot open_shop with
    | Ok (_, w) => w
    | Fault _ => boot
    end.

(** The next power-up of the shop finds what the previous session wrote,
    and the heap hands out a block that holds other data. *)
Definition stale_fill : nat -> consumption_event_t :=
  fun i => mk_event 7 7 (Z.of_nat i + 40).

Definition next_boot : platform :=
  mk_platform (fun k => 1000007200 + Z.of_nat k)
    (fun _ => persisted (trace closed_shop))
    (fun _ => true) (fun _ => Some stale_fill).

(** A device with empty storage and no heap left. *)
Definition no_heap_boot : platform :=
  mk_platform (fun k => 1000000000 + Z.of_nat k) (fun _ => None)
    (fun _ => true) (fun _ => None).

(* ====================================================================== *)
(** ** Vocabulary of the store as a queue *)

(** The calls [consumption_on_dispense] accepts on an initialized instance
    of machine [machine]. *)
Definition accepts (machine : Z) (call : Z * Z) : bool :=
  (fst call =? machine) && negb (snd call =? 0).

(** The code a call returns on an initialized instance, when it returns. *)
Definition answer (machine : Z) (call : Z * Z) : consumption_error_t :=
  if accepts machine call then CONSUMPTION_SUCCESS
  else CONSUMPTION_ERROR_INVALID_PARAMETER.

(** The last [cap] elements of a list. *)
Definition keep_last {A} (cap : Z) (l : list A) : list A :=
  drop (length l - Z.to_nat cap) l.

(** Machine identifier and category of an event. *)
Definition identity (e : consumption_event_t) : Z * Z :=
  (ev_machine_id e, product_id e).

(** Seven calls on the shop, five of them acceptable. *)
Definition seven_calls : list (Z * Z) :=
  [(11111, 1); (11111, 2); (99999, 3); (11111, 4); (11111, 0); (11111, 6);
   (11111, 7)].

(* ====================================================================== *)
(** ** Vocabulary of the reports *)

(** The aggregate a sync started in world [w] builds: the count over the
    buffered events of the window from [last_aggregation] to the reading
    of the clock. *)
Definition report (pf : platform) (w : world) : consumption_aggregate_t :=
  count_all (last_aggregation (g_state w)) (reading pf w) (buffered (g_state w))
    (mk_aggregate (machine_id (config (g_state w)))
       (last_aggregation (g_state w)) (reading pf w) 0 (repeat 0 256)).

(** Both sync marks of a record. *)
Definition marks (g : consumption_state_t) : Z * Z :=
  (last_sync g, last_aggregation g).

(** The platform calls a sync can make: what it adds to the trace is
    nothing, a send followed by a failure line, or a send, a storage write
    and a success line. *)
Definition sync_output (added : list io_event) : Prop :=
  added = [] \/
  (exists endpoint data n,
     added = [IoNetworkSend endpoint data n;
              IoLog 0 "Failed to sync consumption data"]) \/
  (exists endpoint data n blob,
     added = [IoNetworkSend endpoint data n; IoStorageWrite blob;
              IoLog 2 "Consumption data synced successfully"]).

(** A shop whose clock stands at 5000 after start-up and whose sink fails
    once: the sale is stamped 5000, its opportunistic sync fails, and the
    sale stays unreported. *)
Definition same_second : platform :=
  mk_platform (fun k => if (k <? 1)%nat then 1000 else 5000)
    (fun _ => None) (fun k => (0 <? k)%nat) (fun _ => Some zero_fill).

Definition unreported_world : world :=
  Eval vm_compute in
    match (_ <- consumption_init same_second (Some sink_config) ;;
           run_calls same_second [(7, 1)]) boot with
    | Ok (_, w) => w
    | Fault _ => boot
    end.

(* ====================================================================== *)
(** ** Lifecycle events and utilities ([consumption.c], end of the file) *)

Definition consumption_on_boot : M unit :=
  consumption_platform_log 2 "Consumption module boot event".

Definition consumption_on_shutdown : M unit :=
  consumption_platform_log 2 "Consumption module shutdown event".

(** [char msg[64]] and [snprintf(msg, sizeof(msg), ...)]: at most 63
    characters of the formatted text are kept. [error_code] is a
    [uint16_t]. *)
Definition msg_size : Z := 64.

Definition consumption_on_error (error_code : Z) : M unit :=
  consumption_platform_log 0
    (String.substring 0 (Z.to_nat (msg_size - 1))
       ("Consumption module error: " ++ decimal error_code)).

(** The values of the enumeration [consumption_error_t]. *)
Definition error_code (e : consumption_error_t) : Z :=
  match e with
  | CONSUMPTION_SUCCESS => 0
  | CONSUMPTION_ERROR_INVALID_CONFIG => 1
  | CONSUMPTION_ERROR_STORAGE_FULL => 2
  | CONSUMPTION_ERROR_NETWORK_UNAVAILABLE => 3
  | CONSUMPTION_ERROR_API_ERROR => 4
  | CONSUMPTION_ERROR_MEMORY_ERROR => 5
  | CONSUMPTION_ERROR_INVALID_PARAMETER => 6
  end.

(** The [switch] of [consumption_error_string], on the integer value of
    its argument. *)
Definition consumption_error_string (error : Z) : string :=
  if error =? error_code CONSUMPTION_SUCCESS then "Success"
  else if error =? error_code CONSUMPTION_ERROR_INVALID_CONFIG
  then "Invalid configuration"
  else if error =? error_code CONSUMPTION_ERROR_STORAGE_FULL
  then "Storage full"
  else if error =? error_code CONSUMPTION_ERROR_NETWORK_UNAVAILABLE
  then "Network unavailable"
  else if error =? error_code CONSUMPTION_ERROR_API_ERROR
  then "API error"
  else if error =? error_code CONSUMPTION_ERROR_MEMORY_ERROR
  then "Memory allocation error"
  else if error =? error_code CONSUMPTION_ERROR_INVALID_PARAMETER
  then "Invalid parameter"
  else "Unknown error".

(* ====================================================================== *)
(** ** Vocabulary of a running instance *)

(** The public entry points other than [consumption_deinit], as requests
    to the module. *)
Inductive request :=
| Init (cfg : option consumption_config_t)
| OnDispense (mid pid : Z)
| GetStats (want_total want_buffered want_last_sync : bool)
| ForceSync
| UpdateConfig (cfg : option consumption_config_t)
| GetConfig (out : bool)
| OnBoot
| OnShutdown
| OnError (code : Z).

(** The code a request returns, [None] for the [void] entry points. *)
Definition serve (pf : platform) (q : request) : M (option consumption_error_t) :=
  match q with
  | Init cfg => r <- consumption_init pf cfg ;; ret (Some r)
  | OnDispense mid pid => r <- consumption_on_dispense pf mid pid ;; ret (Some r)
  | GetStats a b c => r <- consumption_get_stats a b c ;; ret (Some (fst r))
  | ForceSync => r <- consumption_force_sync pf ;; ret (Some r)
  | UpdateConfig cfg => r <- consumption_update_config cfg ;; ret (Some r)
  | GetConfig out => r <- consumption_get_config out ;; ret (Some (fst r))
  | OnBoot => consumption_on_boot ;;; ret None
  | OnShutdown => consumption_on_shutdown ;;; ret None
  | OnError code => consumption_on_error code ;;; ret None
  end.

Fixpoint serve_all (pf : platform) (qs : list request)
  : M (list (option consumption_error_t)) :=
  match qs with
  | [] => ret []
  | q :: rest =>
      r <- serve pf q ;;
      rs <- serve_all pf rest ;;
      ret (r :: rs)
  end.

(** The module state between two calls of a running instance: initialized,
    a well-formed ring, the scheduler idle, and [last_sync] either still 0
    or equal to [last_aggregation]. *)
Definition running (g : consumption_state_t) : Prop :=
  initialized g = true /\ ring_ok g /\ sync_in_progress g = false /\
  (last_sync g = 0 \/ last_sync g = last_aggregation g).

(** Every record handed to the storage write is such a state, of capacity
    [cap]. *)
Definition writes_running (cap : Z) (e : io_event) : Prop :=
  match e with
  | IoStorageWrite blob => running blob /\ capacity blob = cap
  | _ => True
  end.

(** A day of the shop with the sink on. *)
Definition busy_requests : list request :=
  [OnBoot; Init None; OnDispense 7 1; GetStats true true true; OnError 17;
   OnDispense 8 1; UpdateConfig (Some sink_config); ForceSync;
   OnDispense 7 2; GetConfig true; OnShutdown].

(* ====================================================================== *)
(** ** Vocabulary of the small instances *)

(** A state whose reports fit [json_buffer]: at most 53 cells, and the
    machine identifier and [last_aggregation] in the range of
    [uint32_t]. *)
Definition compact (g : consumption_state_t) : Prop :=
  capacity g <= 53 /\ u32 (machine_id (config g)) /\ u32 (last_aggregation g).

(** A request whose new machine identifier is a [uint32_t]. *)
Definition typed (q : request) : Prop :=
  match q with
  | UpdateConfig (Some c) => u32 (machine_id c)
  | _ => True
  end.

(** An aggregate with the largest values a [uint32_t] holds, in the 53
    categories from 200 to 252. *)
Definition widest_report : consumption_aggregate_t :=
  mk_aggregate 4294967295 4294967295 4294967295 4294967295
    (repeat 0 200 ++ repeat 4294967295 53 ++ repeat 0 3).

(* ====================================================================== *)
(** ** Vocabulary of the totals *)

(** The sum of the counts of the entries of an object. *)
Definition entries_total (entries : list (Z * Z)) : Z :=
  fold_right (fun p acc => snd p + acc) 0 entries.

(** The buffered events of the window whose category is not one of
    1-255. *)
Definition uncategorized (s e : Z) (l : list consumption_event_t) : Z :=
  Z.of_nat (length (List.filter
    (fun ev => in_window s e ev
               && negb ((1 <=? product_id ev) && (product_id ev <=? 255))) l)).

(* ====================================================================== *)
(** ** The example integration ([examples/vending_machine_integration.c]) *)

(** [vending_machine_t]: [products] is [char products[10][32]], [prices]
    is [uint8_t prices[10]]. [machine_id] of the machine is
    [vm_machine_id]. *)
Record vending_machine_t := mk_vending_machine {
  vm_machine_id : Z;
  product_count : Z;
  products : list string;
  prices : list Z;
  cash_balance : Z
}.

(** The calls of the example that reach the C library: [printf] with its
    format and arguments, and [sleep]. *)
Inductive printf_arg :=
| ArgInt (n : Z)
| ArgText (s : string).

Inductive console_call :=
| Printf (format : string) (args : list printf_arg)
| Sleep (seconds : Z).

(** The firmware of the example: the machine, the consumption module and
    what has been sent to the console. *)
Record firmware := mk_firmware {
  vm : vending_machine_t;
  module : world;
  console : list console_call
}.

Definition with_cash (v : Z) (s : firmware) : firmware :=
  mk_firmware
    (mk_vending_machine (vm_machine_id (vm s)) (product_count (vm s))
       (products (vm s)) (prices (vm s)) v)
    (module s) (console s).

Definition with_module (w : world) (s : firmware) : firmware :=
  mk_firmware (vm s) w (console s).

Definition call (c : console_call) (s : firmware) : firmware :=
  mk_firmware (vm s) (module s) (console s ++ [c]).

(** The newline of the C format strings, and the check mark the example
    prints (three bytes of UTF-8). *)
Definition nl : string := String (ascii_of_nat 10) EmptyString.

Definition check_mark : string :=
  String (ascii_of_nat 226) (String (ascii_of_nat 156)
    (String (ascii_of_nat 147) EmptyString)).

(** [a[i]] on an array of the machine. *)
Definition array_get {A} (a : list A) (i : Z) : result A :=
  match a !! Z.to_nat i with
  | Some x => if 0 <=? i then Ok x else Fault OutOfBounds
  | None => Fault OutOfBounds
  end.

(** [vending_init] writes cells 1 to 5 of both arrays and leaves the
    others as they were. *)
Definition vending_init (v : vending_machine_t) (machine : Z) : vending_machine_t :=
  mk_vending_machine machine 5
    (<[5%nat := "Latte"%string]>
       (<[4%nat := "Cappuccino"%string]>
          (<[3%nat := "Hot Chocolate"%string]>
             (<[2%nat := "Tea"%string]> (<[1%nat := "Coffee"%string]> (products v))))))
    (<[5%nat := 220]> (<[4%nat := 200]> (<[3%nat := 180]>
       (<[2%nat := 120]> (<[1%nat := 150]> (prices v))))))
    0.

Definition process_payment (product_id payment_amount : Z) (s : firmware)
  : result (bool * firmware) :=
  if (product_id =? 0) || (product_id >? product_count (vm s)) then
    Ok (false, call (Printf ("Invalid product ID" ++ nl) []) s)
  else
    rbind (array_get (prices (vm s)) product_id) (fun price =>
    if payment_amount <? price then
      Ok (false, call (Printf ("Insufficient payment" ++ nl) []) s)
    else
      Ok (true, with_cash (wrap32 (cash_balance (vm s) + payment_amount)) s)).

Definition dispense_beverage (pf : platform) (product_id : Z) (s : firmware)
  : result (bool * firmware) :=
  rbind (array_get (products (vm s)) product_id) (fun name =>
  let s := call (Printf ("Dispensing %s..." ++ nl) [ArgText name]) s in
  let s := call (Sleep 1) s in
  match consumption_on_dispense pf (vm_machine_id (vm s)) product_id (module s) with
  | Fault u => Fault u
  | Ok (result, w) =>
      let s := with_module w s in
      let s :=
        if negb (error_eqb result CONSUMPTION_SUCCESS) then
          call (Printf ("Warning: Consumption tracking failed: %s" ++ nl)
                  [ArgText (consumption_error_string (error_code result))]) s
        else s in
      Ok (true,
          call (Printf (check_mark ++ " %s dispensed successfully!" ++ nl)
                  [ArgText name]) s)
  end).

Definition purchase_beverage (pf : platform) (product_id payment_amount : Z)
    (s : firmware) : result (bool * firmware) :=
  rbind (process_payment product_id payment_amount s) (fun paid =>
  if negb (fst paid) then Ok (false, snd paid)
  else
    rbind (dispense_beverage pf product_id (snd paid)) (fun served =>
    if negb (fst served) then Ok (false, snd served)
    else
      let s := snd served in
      rbind (array_get (prices (vm s)) product_id) (fun price =>
      let change := wrap32 (payment_amount - price) in
      if change >? 0 then
        Ok (true,
            with_cash (wrap32 (cash_balance (vm s) - change))
              (call (Printf ("Returning change: $%d.%02d" ++ nl)
                       [ArgInt (change / 100); ArgInt (change mod 100)]) s))
      else Ok (true, s)))).

(** A machine as the example declares it: both arrays have ten cells,
    the products in use are among them, and the values are in the range
    of their C types. *)
Definition machine_ok (v : vending_machine_t) : Prop :=
  length (prices v) = 10%nat /\ length (products v) = 10%nat /\
  0 <= product_count v <= 9 /\ u32 (cash_balance v) /\
  Forall (fun p => 0 <= p <= 255) (prices v).

(** The price of a product. *)
Definition price_of (v : vending_machine_t) (product_id : Z) : Z :=
  nth (Z.to_nat product_id) (prices v) 0.

(** The machine of the example on top of the shop, whose consumption
    module was configured for another machine identifier. *)
Definition demo_machine : vending_machine_t :=
  vending_init
    (mk_vending_machine 0 0 (repeat EmptyString 10) (repeat 0 10) 0) 12345.

Definition demo_firmware : firmware := mk_firmware demo_machine shop_world [].

(** The same machine with the identifier the module was configured for. *)
Definition tracked_firmware : firmware :=
  mk_firmware
    (vending_init
       (mk_vending_machine 0 0 (repeat EmptyString 10) (repeat 0 10) 0) 11111)
    shop_world [].

(* ====================================================================== *)
(** ** Sample runs of a shutdown *)

(** The shop with the sink on after three sales that no sync has reported
    yet, at a time when its last sync will reach the sink. *)
Definition shutdown_day : platform :=
  mk_platform (fun k => if (k <? 10)%nat then 1000 + Z.of_nat k else 5000)
    (fun _ => None) (fun _ => true) (fun _ => Some zero_fill).

Definition unsaved_world : world :=
  Eval vm_compute in
    match (_ <- consumption_init shutdown_day (Some sink_config) ;;
           run_calls shutdown_day [(7, 1); (7, 2); (7, 2)]) boot with
    | Ok (_, w) => w
    | Fault _ => boot
    end.

(** The busy shop shut down after its 200 sales. *)
Definition busy_shutdown : M consumption_error_t :=
  _ <- consumption_init busy_day (Some busy_config) ;;
  _ <- run_calls busy_day (categories 200) ;;
  consumption_deinit busy_day.

(* ====================================================================== *)
(** ** Reasoning about the monad *)

Lemma bind_ok {A B} (c : M A) (k : A -> M B) w b w2 :
  bind c k w = Ok (b, w2) <->
  exists a w1, c w = Ok (a, w1) /\ k a w1 = Ok (b, w2).
Proof.
  unfold bind. split.
  - destruct (c w) as [[a w1]|u]; [|discriminate].
    intros H. exists a, w1. split; [reflexivity|exact H].
  - intros (a & w1 & Hc & Hk). rewrite Hc. exact Hk.
Qed.

Lemma bind_eq {A B} (c : M A) (k : A -> M B) w a w1 :
  c w = Ok (a, w1) -> bind c k w = k a w1.
Proof. unfold bind. intros ->. reflexivity. Qed.

Lemma wrap32_small x : u32 x -> wrap32 x = x.
Proof. unfold wrap32, u32. intros H. apply Z.mod_small. exact H. Qed.

(** Clearing the flag right after setting it restores an idle state. *)
Lemma sync_flag_round_trip g :
  sync_in_progress g = false ->
  set_sync_in_progress false (set_sync_in_progress true g) = g.
Proof. destruct g; simpl; intros ->; reflexivity. Qed.

(* ====================================================================== *)
(** ** Guards of the public entry points *)

Section Guards.

Variable pf : platform.

Lemma on_dispense_uninitialized w mid pid :
  initialized (g_state w) = false ->
  consumption_on_dispense pf mid pid w = Ok (CONSUMPTION_ERROR_INVALID_CONFIG, w).
Proof.
  intros H. unfold consumption_on_dispense, bind, get, ret. rewrite H. reflexivity.
Qed.

Lemma get_stats_uninitialized w a b c :
  initialized (g_state w) = false ->
  consumption_get_stats a b c w
  = Ok ((CONSUMPTION_ERROR_INVALID_CONFIG, (None, None, None)), w).
Proof.
  intros H. unfold consumption_get_stats, bind, get, ret. rewrite H. reflexivity.
Qed.

Lemma force_sync_uninitialized w :
  initialized (g_state w) = false ->
  consumption_force_sync pf w = Ok (CONSUMPTION_ERROR_INVALID_CONFIG, w).
Proof.
  intros H. unfold consumption_force_sync, bind, get, ret. rewrite H. reflexivity.
Qed.

Lemma init_already_initialized w cfg :
  initialized (g_state w) = true ->
  consumption_init pf cfg w = Ok (CONSUMPTION_SUCCESS, w).
Proof.
  intros H. unfold consumption_init, bind, get, ret. rewrite H. reflexivity.
Qed.

Lemma init_rejects_invalid_config w c :
  initialized (g_state w) = false ->
  validate_config (Some c) = false ->
  consumption_init pf (Some c) w = Ok (CONSUMPTION_ERROR_INVALID_CONFIG, w).
Proof.
  intros H Hv. unfold consumption_init, bind, get, ret. rewrite H, Hv. reflexivity.
Qed.

End Guards.

Lemma on_dispense_wrong_machine pf w mid pid :
  initialized (g_state w) = true ->
  mid <> machine_id (config (g_state w)) ->
  consumption_on_dispense pf mid pid w
  = Ok (CONSUMPTION_ERROR_INVALID_PARAMETER, w).
Proof.
  intros Hi Hne. unfold consumption_on_dispense, bind, get, ret. rewrite Hi.
  cbn [negb]. rewrite (proj2 (Z.eqb_neq _ _) Hne). reflexivity.
Qed.

Lemma on_dispense_zero_category pf w mid :
  initialized (g_state w) = true ->
  consumption_on_dispense pf mid 0 w
  = Ok (CONSUMPTION_ERROR_INVALID_PARAMETER, w).
Proof.
  intros Hi. unfold consumption_on_dispense, bind, get, ret. rewrite Hi.
  cbn [negb]. destruct (mid =? _); reflexivity.
Qed.

(** C7. On an initialized instance, [consumption_on_dispense] with a machine
    identifier other than the active configuration's, or with category 0,
    returns [CONSUMPTION_ERROR_INVALID_PARAMETER] and changes nothing: the
    module state (buffer contents, count, head, tail, lifetime total) and
    the platform are as before the call. *)
Theorem on_dispense_rejects_bad_parameters pf w mid pid :
  initialized (g_state w) = true ->
  mid <> machine_id (config (g_state w)) \/ pid = 0 ->
  consumption_on_dispense pf mid pid w
  = Ok (CONSUMPTION_ERROR_INVALID_PARAMETER, w).
Proof.
  intros Hi [Hmachine|Hcategory].
  - apply on_dispense_wrong_machine; assumption.
  - subst pid. apply on_dispense_zero_category. exact Hi.
Qed.

Lemma on_dispense_rejects_bad_parameters_witness :
  consumption_on_dispense first_boot 99999 1 shop_world
  = Ok (CONSUMPTION_ERROR_INVALID_PARAMETER, shop_world) /\
  consumption_on_dispense first_boot 11111 0 shop_world
  = Ok (CONSUMPTION_ERROR_INVALID_PARAMETER, shop_world).
Proof.
  split.
  - apply (on_dispense_rejects_bad_parameters first_boot shop_world 99999 1).
    + reflexivity.
    + left. simpl. lia.
  - apply (on_dispense_rejects_bad_parameters first_boot shop_world 11111 0).
    + reflexivity.
    + right. reflexivity.
Defined.

(* ====================================================================== *)
(** ** The ring buffer *)

Lemma omap_ext_in {A B} (f g : A -> option B) l :
  (forall i, In i l -> f i = g i) -> omap f l = omap g l.
Proof.
  induction l as [|a l IH]; intros H; [reflexivity|].
  cbn. rewrite (H a (or_introl eq_refl)).
  rewrite IH; [reflexivity|]. intros i Hi. apply H. right. exact Hi.
Qed.

Lemma omap_seq_succ {B} (f : nat -> option B) a n :
  omap f (seq (S a) n) = omap (fun i => f (S i)) (seq a n).
Proof.
  revert a. induction n as [|n IH]; intros a; [reflexivity|].
  cbn. rewrite IH. reflexivity.
Qed.

Lemma omap_seq_tail {B} (f : nat -> option B) m x :
  f 0%nat = Some x ->
  tail (omap f (seq 0 (S m))) = omap (fun i => f (S i)) (seq 0 m).
Proof. intros H. cbn. rewrite H. cbn. apply omap_seq_succ. Qed.

Lemma omap_total_length {A B} (f : A -> option B) l :
  (forall i, In i l -> is_Some (f i)) -> length (omap f l) = length l.
Proof.
  induction l as [|a l IH]; intros H; [reflexivity|].
  cbn. destruct (H a (or_introl eq_refl)) as [b Hb]. rewrite Hb. cbn.
  rewrite IH; [reflexivity|]. intros i Hi. apply H. right. exact Hi.
Qed.

Lemma slot_in_block g (buf : list consumption_event_t) i :
  Z.of_nat (length buf) = capacity g -> 0 < capacity g ->
  is_Some (buf !! Z.to_nat (slot g i)).
Proof.
  intros Hlen Hcap. apply lookup_lt_is_Some.
  unfold slot. pose proof (Z.mod_pos_bound (buffer_tail g + Z.of_nat i) (capacity g) Hcap).
  lia.
Qed.

Lemma buffered_length g :
  ring_ok g -> Z.of_nat (length (buffered g)) = buffer_count g.
Proof.
  intros ((buf & Hb & Hlen) & Hcap & _ & Hcount & _).
  unfold buffered. rewrite Hb. rewrite omap_total_length.
  - rewrite length_seq. lia.
  - intros i _. apply slot_in_block; [exact Hlen|lia].
Qed.

Lemma mod_shift_ne t n i j :
  0 < n -> 0 < j - i < n -> (t + i) mod n <> (t + j) mod n.
Proof.
  intros Hn Hij Heq.
  assert (H : (j - i) mod n = 0).
  { replace (j - i) with ((t + j) - (t + i)) by lia.
    rewrite Zminus_mod, Heq, Z.sub_diag. apply Z.mod_0_l. lia. }
  rewrite Z.mod_small in H by lia. lia.
Qed.

Lemma mod_add_cap a n : 0 < n -> (a + n) mod n = a mod n.
Proof.
  intros Hn. replace (a + n) with (a + 1 * n) by lia. apply Z_mod_plus_full.
Qed.

(** [add_event_to_buffer] on a well-formed ring never fails: it returns
    [CONSUMPTION_SUCCESS], leaves a well-formed ring, drops the oldest
    event exactly when the ring was full and puts the new event last. *)
Lemma add_event_to_buffer_spec w e :
  ring_ok (g_state w) ->
  exists g',
    add_event_to_buffer e w = Ok (CONSUMPTION_SUCCESS, with_g (fun _ => g') w) /\
    ring_ok g' /\
    buffered g' = appended (capacity (g_state w)) (buffered (g_state w)) e /\
    buffer_count g' = Z.min (buffer_count (g_state w) + 1) (capacity (g_state w)) /\
    untouched (g_state w) g'.
Proof.
  intros Hok. pose proof (buffered_length _ Hok) as Hlenb.
  destruct Hok as ((buf & Hb & Hlen) & Hcap & Htail & Hcount & Hhead).
  destruct w as [g cr sr ns al tr]. destruct g as [ini cfg tot hd tl cnt evb la ls sp].
  unfold capacity in *. simpl in *. subst evb.
  set (cap := ring_buffer_size cfg) in *.
  assert (Hhd : 0 <= hd < cap) by (rewrite Hhead; apply Z.mod_pos_bound; lia).
  unfold add_event_to_buffer, bind, get, modify, lift, c_mod, store_cell, ret, with_g.
  simpl. fold cap.
  assert (Hz : (cap =? 0) = false) by (apply Z.eqb_neq; lia).
  rewrite Z.geb_leb.
  destruct (Z.leb_spec cap cnt) as [Hfull|Hroom].
  - (* full: evict the oldest *)
    assert (cnt = cap) by lia. subst cnt.
    simpl. rewrite Hz. simpl. fold cap.
    assert (Hin : (0 <=? hd) && (hd <? Z.of_nat (length buf)) = true).
    { apply andb_true_iff. split; [apply Z.leb_le|apply Z.ltb_lt]; lia. }
    rewrite Hin. rewrite Hz. simpl.
    eexists. split; [reflexivity|].
    assert (Hhdtl : hd = tl).
    { rewrite Hhead, mod_add_cap by lia. apply Z.mod_small. lia. }
    clear Hhead. subst hd.
    assert (Hw1 : wrap32 (cap - 1) = cap - 1) by (unfold wrap32; apply Z.mod_small; lia).
    assert (Hw2 : wrap32 (cap - 1 + 1) = cap).
    { replace (cap - 1 + 1) with cap by lia. unfold wrap32. apply Z.mod_small. lia. }
    assert (Hw3 : wrap32 (tl + 1) = tl + 1) by (unfold wrap32; apply Z.mod_small; lia).
    rewrite Hw1, Hw2, Hw3.
    split; [|split; [|split]].
    + unfold ring_ok, capacity. simpl. fold cap. split; [|split; [|split; [|split]]].
      * eexists. split; [reflexivity|]. rewrite length_insert. exact Hlen.
      * lia.
      * apply Z.mod_pos_bound. lia.
      * lia.
      * rewrite mod_add_cap by lia. rewrite Z.mod_mod by lia. reflexivity.
    + unfold appended. rewrite Hlenb. rewrite Z.geb_leb.
      rewrite (proj2 (Z.leb_le cap cap)) by lia.
      unfold buffered, slot, capacity. simpl. fold cap.
      destruct (Z.to_nat cap) as [|m] eqn:Hm; [lia|].
      destruct (lookup_lt_is_Some_2 buf (Z.to_nat tl)) as [x Hx]; [lia|].
      rewrite (omap_seq_tail _ m x)
        by (rewrite Z.add_0_r, Z.mod_small by lia; exact Hx).
      rewrite seq_S. rewrite omap_app.
      f_equal.
      * apply omap_ext_in. intros i Hi. apply in_seq in Hi.
        rewrite Zplus_mod_idemp_l.
        replace (tl + 1 + Z.of_nat i) with (tl + Z.of_nat (S i)) by lia.
        apply list_lookup_insert_ne.
        intros Heq. apply Z2Nat.inj in Heq; [| lia | apply Z.mod_pos_bound; lia].
        revert Heq. rewrite <- (Z.mod_small tl cap) at 1 by lia.
        replace tl with (tl + 0) at 1 by lia.
        apply mod_shift_ne; lia.
      * simpl. rewrite Zplus_mod_idemp_l.
        replace (tl + 1 + Z.of_nat m) with (tl + cap) by lia.
        rewrite mod_add_cap by lia. rewrite Z.mod_small by lia.
        rewrite list_lookup_insert_eq by lia. reflexivity.
    + simpl. lia.
    + unfold untouched. simpl. repeat split.
  - (* room left *)
    simpl. fold cap.
    assert (Hin : (0 <=? hd) && (hd <? Z.of_nat (length buf)) = true).
    { apply andb_true_iff. split; [apply Z.leb_le|apply Z.ltb_lt]; lia. }
    rewrite Hin. rewrite Hz. simpl.
    eexists. split; [reflexivity|].
    assert (Hw1 : wrap32 (cnt + 1) = cnt + 1) by (unfold wrap32; apply Z.mod_small; lia).
    assert (Hw2 : wrap32 (hd + 1) = hd + 1) by (unfold wrap32; apply Z.mod_small; lia).
    rewrite Hw1, Hw2.
    split; [|split; [|split]].
    + unfold ring_ok, capacity. simpl. fold cap. split; [|split; [|split; [|split]]].
      * eexists. split; [reflexivity|]. rewrite length_insert. exact Hlen.
      * lia.
      * lia.
      * lia.
      * rewrite Hhead. rewrite Zplus_mod_idemp_l. f_equal. lia.
    + unfold appended. rewrite Hlenb. rewrite Z.geb_leb.
      rewrite (proj2 (Z.leb_gt cap cnt)) by lia.
      unfold buffered, slot, capacity. simpl. fold cap.
      replace (Z.to_nat (cnt + 1)) with (S (Z.to_nat cnt)) by lia.
      rewrite seq_S. rewrite omap_app. f_equal.
      * apply omap_ext_in. intros i Hi. apply in_seq in Hi.
        apply list_lookup_insert_ne.
        intros Heq. apply Z2Nat.inj in Heq; [| lia | apply Z.mod_pos_bound; lia].
        rewrite Hhead in Heq. symmetry in Heq. revert Heq.
        apply mod_shift_ne; lia.
      * simpl. rewrite Z2Nat.id by lia. rewrite <- Hhead.
        rewrite list_lookup_insert_eq by lia. reflexivity.
    + simpl. lia.
    + unfold untouched. simpl. repeat split.
Qed.

Lemma same_store_ring g g' : same_store g g' -> ring_ok g -> ring_ok g'.
Proof.
  intros (_ & Hc & _ & Hh & Ht & Hn & Hb). unfold ring_ok, capacity.
  rewrite Hc, Hh, Ht, Hn, Hb. exact (fun H => H).
Qed.

Lemma same_store_buffered g g' : same_store g g' -> buffered g' = buffered g.
Proof.
  intros (_ & Hc & _ & Hh & Ht & Hn & Hb). unfold buffered, slot, capacity.
  rewrite Hc, Ht, Hn, Hb. reflexivity.
Qed.

(* ====================================================================== *)
(** ** Aggregation *)

Lemma slot_succ g i :
  0 < capacity g -> (slot g i + 1) mod capacity g = slot g (S i).
Proof.
  intros Hc. unfold slot. rewrite Zplus_mod_idemp_l. f_equal. lia.
Qed.

(** The loop visits the buffered events from the oldest to the newest. *)
Lemma aggregate_loop_spec g buf s e :
  event_buffer g = Some buf ->
  Z.of_nat (length buf) = capacity g ->
  0 < capacity g < 4294967296 ->
  forall n k a,
    aggregate_loop n g s e (slot g k) a
    = Ok (count_all s e (omap (fun i => buf !! Z.to_nat (slot g i)) (seq k n)) a).
Proof.
  intros Hb Hlen Hcap. induction n as [|n IH]; intros k a; [reflexivity|].
  simpl. rewrite Hb. unfold load_cell.
  destruct (slot_in_block g buf k Hlen) as [ev Hev]; [lia|]. rewrite Hev.
  assert (Hs : 0 <= slot g k < capacity g) by (apply Z.mod_pos_bound; lia).
  rewrite (proj2 (Z.leb_le 0 (slot g k))) by lia. simpl.
  unfold c_mod. fold (capacity g).
  rewrite (proj2 (Z.eqb_neq (capacity g) 0)) by lia. simpl.
  unfold wrap32. rewrite (Z.mod_small (slot g k + 1)) by lia.
  rewrite slot_succ by lia. rewrite IH. reflexivity.
Qed.

Lemma aggregate_loop_buffered g s e a :
  ring_ok g ->
  aggregate_loop (Z.to_nat (buffer_count g)) g s e (buffer_tail g) a
  = Ok (count_all s e (buffered g) a).
Proof.
  intros ((buf & Hb & Hlen) & Hcap & Htail & _).
  assert (Ht0 : buffer_tail g = slot g 0)
    by (unfold slot; rewrite Z.add_0_r; symmetry; apply Z.mod_small; lia).
  rewrite Ht0 at 1. rewrite (aggregate_loop_spec _ buf s e Hb Hlen Hcap).
  unfold buffered. rewrite Hb. reflexivity.
Qed.

Lemma aggregate_loop_ext g1 g2 s e :
  event_buffer g1 = event_buffer g2 -> config g1 = config g2 ->
  forall n i a, aggregate_loop n g1 s e i a = aggregate_loop n g2 s e i a.
Proof.
  intros Hb Hc. induction n as [|n IH]; intros i a; [reflexivity|].
  simpl. rewrite Hb, Hc. destruct (load_cell _ _); [|reflexivity]. simpl.
  destruct (c_mod _ _); [|reflexivity]. simpl. apply IH.
Qed.

Lemma aggregate_events_pure s e w a w' :
  aggregate_events s e w = Ok (a, w') -> w' = w.
Proof.
  unfold aggregate_events, bind, get, lift.
  destruct (aggregate_loop _ _ _ _ _ _); [|discriminate].
  intros H. injection H as _ ->. reflexivity.
Qed.

Lemma aggregate_events_same_store s e w w1 a :
  same_store (g_state w) (g_state w1) ->
  aggregate_events s e w = Ok (a, w) ->
  aggregate_events s e w1 = Ok (a, w1).
Proof.
  intros (_ & Hc & _ & _ & Ht & Hn & Hb).
  unfold aggregate_events, bind, get, lift. cbn beta iota.
  rewrite Hc, Ht, Hn.
  rewrite (aggregate_loop_ext (g_state w1) (g_state w) s e Hb Hc).
  destruct (aggregate_loop _ _ _ _ _ _); [|discriminate].
  intros H. injection H as ->. reflexivity.
Qed.

Lemma count_all_cons s e ev l a :
  count_all s e (ev :: l) a = count_all s e l (count_event s e ev a).
Proof. reflexivity. Qed.

Lemma in_window_code s e ev :
  (timestamp ev >=? s) && (timestamp ev <=? e) = in_window s e ev.
Proof. unfold in_window. rewrite Z.geb_leb. reflexivity. Qed.

Lemma count_event_total s e ev a :
  agg_total_events (count_event s e ev a)
  = if in_window s e ev then wrap32 (agg_total_events a + 1)
    else agg_total_events a.
Proof.
  unfold count_event. rewrite in_window_code.
  destruct (in_window s e ev); reflexivity.
Qed.

Lemma count_event_counts s e ev a :
  product_counts (count_event s e ev a)
  = if in_window s e ev && (product_id ev <? 256)
    then bump (product_id ev) (product_counts a)
    else product_counts a.
Proof.
  unfold count_event. rewrite in_window_code.
  destruct (in_window s e ev); [|reflexivity]. simpl.
  destruct (_ <? 256); reflexivity.
Qed.

Lemma count_all_meta s e l : forall a,
  agg_machine_id (count_all s e l a) = agg_machine_id a /\
  period_start (count_all s e l a) = period_start a /\
  period_end (count_all s e l a) = period_end a /\
  length (product_counts (count_all s e l a)) = length (product_counts a).
Proof.
  induction l as [|ev l IH]; intros a; [simpl; auto|].
  simpl. destruct (IH (count_event s e ev a)) as (H1 & H2 & H3 & H4).
  rewrite H1, H2, H3, H4. unfold count_event.
  destruct (_ && _); simpl; [|auto].
  destruct (_ <? 256); simpl; auto.
  unfold bump. rewrite length_alter. auto.
Qed.

Lemma count_all_total s e l : forall a,
  0 <= agg_total_events a ->
  agg_total_events a + Z.of_nat (length l) < 4294967296 ->
  agg_total_events (count_all s e l a) = agg_total_events a + window_total s e l.
Proof.
  unfold window_total.
  induction l as [|ev l IH]; intros a H0 Hb; [simpl; lia|].
  rewrite count_all_cons. simpl length in Hb. simpl List.filter.
  assert (Hw : wrap32 (agg_total_events a + 1) = agg_total_events a + 1)
    by (unfold wrap32; apply Z.mod_small; lia).
  rewrite IH; rewrite count_event_total; destruct (in_window s e ev);
    rewrite ?Hw; simpl length; lia.
Qed.

Lemma nth_bump_same c counts :
  (Z.to_nat c < length counts)%nat ->
  nth (Z.to_nat c) (bump c counts) 0 = wrap32 (nth (Z.to_nat c) counts 0 + 1).
Proof.
  intros Hc. unfold bump. rewrite !nth_lookup. rewrite list_lookup_alter_eq.
  destruct (lookup_lt_is_Some_2 counts (Z.to_nat c) Hc) as [x Hx].
  rewrite Hx. reflexivity.
Qed.

Lemma nth_bump_other c p counts :
  Z.to_nat p <> Z.to_nat c ->
  nth (Z.to_nat c) (bump p counts) 0 = nth (Z.to_nat c) counts 0.
Proof.
  intros Hne. unfold bump. rewrite !nth_lookup.
  rewrite list_lookup_alter_ne by exact Hne. reflexivity.
Qed.

Lemma count_all_category s e c l : forall a,
  1 <= c <= 255 ->
  length (product_counts a) = 256%nat ->
  0 <= nth (Z.to_nat c) (product_counts a) 0 ->
  nth (Z.to_nat c) (product_counts a) 0 + Z.of_nat (length l) < 4294967296 ->
  nth (Z.to_nat c) (product_counts (count_all s e l a)) 0
  = nth (Z.to_nat c) (product_counts a) 0 + window_category s e c l.
Proof.
  unfold window_category. intros a Hc.
  revert a. induction l as [|ev l IH]; intros a Hlen H0 Hb; [simpl; lia|].
  rewrite count_all_cons. simpl length in Hb. simpl List.filter.
  assert (Hstep : nth (Z.to_nat c) (product_counts (count_event s e ev a)) 0
                  = nth (Z.to_nat c) (product_counts a) 0
                    + (if in_window s e ev && (product_id ev =? c) then 1 else 0)).
  { rewrite count_event_counts. destruct (in_window s e ev); simpl; [|lia].
    destruct (Z.ltb_spec (product_id ev) 256) as [Hp|Hp];
      destruct (Z.eqb_spec (product_id ev) c) as [Heq|Hne]; try lia.
    - rewrite Heq, nth_bump_same by lia. unfold wrap32.
      rewrite Z.mod_small by lia. reflexivity.
    - rewrite nth_bump_other by lia. lia. }
  rewrite IH.
  - rewrite Hstep. destruct (in_window s e ev && (product_id ev =? c));
      simpl length; lia.
  - rewrite count_event_counts.
    destruct (in_window s e ev && (product_id ev <? 256)); [|exact Hlen].
    unfold bump. rewrite length_alter. exact Hlen.
  - rewrite Hstep. destruct (in_window s e ev && (product_id ev =? c)); lia.
  - rewrite Hstep. destruct (in_window s e ev && (product_id ev =? c)); lia.
Qed.

(** On a well-formed ring [aggregate_events] returns the count over the
    buffered events and leaves the world as it was. *)
Lemma aggregate_events_runs w s e :
  ring_ok (g_state w) ->
  aggregate_events s e w
  = Ok (count_all s e (buffered (g_state w))
          (mk_aggregate (machine_id (config (g_state w))) s e 0 (repeat 0 256)),
        w).
Proof.
  intros Hok. unfold aggregate_events, bind, get, lift. cbn beta iota.
  rewrite aggregate_loop_buffered by exact Hok. reflexivity.
Qed.

Lemma aggregate_events_total w s e a :
  ring_ok (g_state w) ->
  aggregate_events s e w = Ok (a, w) ->
  agg_total_events a = window_total s e (buffered (g_state w)).
Proof.
  intros Hok H. pose proof (buffered_length _ Hok) as Hbl.
  pose proof Hok as (_ & Hcap & _ & Hcount & _).
  rewrite aggregate_events_runs in H by exact Hok. injection H as <-.
  rewrite count_all_total; simpl; lia.
Qed.

(** C3. For every well-formed buffer and every window, [aggregate_events]
    returns an aggregate and leaves the whole module state (contents, head,
    tail, count) as it was. The total is the number of buffered events
    whose timestamp [t] satisfies [start_time <= t <= end_time]; for each
    category from 1 to 255 the count is the number of those events with
    that category; the array keeps its 256 cells, so an event whose
    category is outside 1-255 changes none of these counts (it is only
    part of the total). *)
Theorem aggregate_events_counts w s e :
  ring_ok (g_state w) ->
  exists a,
    aggregate_events s e w = Ok (a, w) /\
    agg_machine_id a = machine_id (config (g_state w)) /\
    period_start a = s /\ period_end a = e /\
    agg_total_events a = window_total s e (buffered (g_state w)) /\
    length (product_counts a) = 256%nat /\
    forall c, 1 <= c <= 255 ->
      nth (Z.to_nat c) (product_counts a) 0
      = window_category s e c (buffered (g_state w)).
Proof.
  intros Hok. pose proof (buffered_length _ Hok) as Hbl.
  pose proof Hok as (_ & Hcap & _ & Hcount & _).
  eexists. split; [apply aggregate_events_runs; exact Hok|].
  set (a0 := mk_aggregate _ _ _ _ _).
  destruct (count_all_meta s e (buffered (g_state w)) a0) as (H1 & H2 & H3 & H4).
  split; [rewrite H1; reflexivity|]. split; [rewrite H2; reflexivity|].
  split; [rewrite H3; reflexivity|]. split.
  - rewrite count_all_total; simpl; lia.
  - split; [rewrite H4; reflexivity|]. intros c Hc.
    rewrite count_all_category; try assumption.
    + subst a0. cbn [product_counts]. rewrite nth_repeat. lia.
    + reflexivity.
    + subst a0. cbn [product_counts]. rewrite nth_repeat. lia.
    + subst a0. cbn [product_counts]. rewrite nth_repeat. lia.
Qed.

Lemma aggregate_events_counts_witness :
  exists a,
    aggregate_events 1002 5000 pending_world = Ok (a, pending_world) /\
    agg_machine_id a = machine_id (config (g_state pending_world)) /\
    period_start a = 1002 /\ period_end a = 5000 /\
    agg_total_events a = window_total 1002 5000 (buffered (g_state pending_world)) /\
    length (product_counts a) = 256%nat /\
    forall c, 1 <= c <= 255 ->
      nth (Z.to_nat c) (product_counts a) 0
      = window_category 1002 5000 c (buffered (g_state pending_world)).
Proof.
  apply (aggregate_events_counts pending_world 1002 5000).
  ring_ok_by_evaluation.
Defined.

(* ====================================================================== *)
(** ** Sync scheduling *)

(** Whatever [sync_to_api] does, it leaves the store, the configuration
    and the lifetime total alone, and an idle scheduler idle. *)
Lemma sync_to_api_frame pf w r w' :
  sync_to_api pf w = Ok (r, w') ->
  same_store (g_state w) (g_state w') /\
  (sync_in_progress (g_state w) = false -> sync_in_progress (g_state w') = false).
Proof.
  unfold sync_to_api, bind at 1, get.
  destruct (enable_external_api (config (g_state w))); cbn [negb].
  2: { intros H. injection H as _ <-. unfold same_store. tauto. }
  destruct (sync_in_progress (g_state w)) eqn:Hsp.
  { intros H. injection H as _ <-. unfold same_store. rewrite Hsp.
    split; [tauto|discriminate]. }
  unfold bind at 1, modify. unfold bind at 1, consumption_platform_get_timestamp.
  unfold bind at 1, get.
  cbn [g_state with_g clock_reads last_aggregation set_sync_in_progress config].
  destruct (_ <? _).
  { unfold bind, modify, ret. intros H. injection H as _ <-.
    unfold same_store. simpl. tauto. }
  unfold bind at 1.
  destruct (aggregate_events _ _ _) as [[a w1]|] eqn:Ha; [|discriminate].
  apply aggregate_events_pure in Ha. subst w1.
  destruct (_ =? 0).
  { unfold bind, modify, ret. intros H. injection H as _ <-.
    unfold same_store. simpl. tauto. }
  unfold bind at 1, lift. destruct (json_payload a) as [j|]; [|discriminate].
  unfold bind, get, modify, ret, save_state, consumption_platform_storage_write,
    consumption_platform_log, output, consumption_platform_network_send.
  cbn [g_state with_g network_sends].
  destruct (network pf (network_sends w));
    intros H; injection H as _ <-; unfold same_store; simpl; tauto.
Qed.

(** C4. A sync attempt that gets as far as the network sink (sink enabled,
    scheduler idle, interval elapsed, non-empty aggregate [a] over
    [last_aggregation, now] serialized into [json]) hands the sink that
    text and returns to idle. If the sink reports success, [last_sync] and
    [last_aggregation] both become [now], the reading of the clock taken
    at the start of the sync, the updated module state is handed to the
    storage write, and the call returns [CONSUMPTION_SUCCESS]. If the sink
    reports failure, [last_sync] and [last_aggregation] are unchanged,
    nothing is persisted and the call returns
    [CONSUMPTION_ERROR_API_ERROR]. *)
Theorem sync_outcome pf w a json :
  enable_external_api (config (g_state w)) = true ->
  sync_in_progress (g_state w) = false ->
  (wrap32 (reading pf w - last_aggregation (g_state w))
   <? aggregation_interval (config (g_state w))) = false ->
  aggregate_events (last_aggregation (g_state w)) (reading pf w) w = Ok (a, w) ->
  agg_total_events a <> 0 ->
  json_payload a = Ok json ->
  let sent := IoNetworkSend (api_endpoint (config (g_state w))) (text json) (len json) in
  exists w',
    sync_to_api pf w
    = Ok (if network pf (network_sends w) then CONSUMPTION_SUCCESS
          else CONSUMPTION_ERROR_API_ERROR, w') /\
    sync_in_progress (g_state w') = false /\
    if network pf (network_sends w) then
      last_sync (g_state w') = reading pf w /\
      last_aggregation (g_state w') = reading pf w /\
      trace w' = trace w ++ [sent; IoStorageWrite (g_state w');
                             IoLog 2 "Consumption data synced successfully"]
    else
      last_sync (g_state w') = last_sync (g_state w) /\
      last_aggregation (g_state w') = last_aggregation (g_state w) /\
      trace w' = trace w ++ [sent; IoLog 0 "Failed to sync consumption data"].
Proof.
  intros Hen Hsp Hgate Hagg Htot Hjson sent. subst sent.
  unfold sync_to_api, bind at 1, get. rewrite Hen, Hsp. cbn [negb].
  unfold bind at 1, modify. unfold bind at 1, consumption_platform_get_timestamp.
  unfold bind at 1, get. cbn [g_state with_g clock_reads last_aggregation
    set_sync_in_progress config]. fold (reading pf w). rewrite Hgate.
  match goal with
  | |- context [bind (aggregate_events ?s ?e) ?k ?W] =>
      rewrite (bind_eq (aggregate_events s e) k W a W)
  end.
  2: { apply (aggregate_events_same_store _ _ w); [|exact Hagg].
       unfold same_store. simpl. tauto. }
  rewrite (proj2 (Z.eqb_neq _ _) Htot).
  unfold bind at 1, lift. rewrite Hjson.
  unfold bind, get, modify, ret, save_state, consumption_platform_storage_write,
    consumption_platform_log, output, consumption_platform_network_send, emit, with_g.
  simpl.
  destruct (network pf (network_sends w)); simpl.
  - eexists. split; [reflexivity|]. simpl. split; [reflexivity|].
    split; [reflexivity|]. split; [reflexivity|].
    rewrite <- !app_assoc. reflexivity.
  - eexists. split; [reflexivity|]. simpl. split; [reflexivity|].
    split; [reflexivity|]. split; [reflexivity|].
    rewrite <- !app_assoc. reflexivity.
Qed.

Lemma sync_outcome_witness :
  exists w',
    sync_to_api quiet_hour pending_world = Ok (CONSUMPTION_SUCCESS, w') /\
    sync_in_progress (g_state w') = false /\
    last_sync (g_state w') = 5000 /\
    last_aggregation (g_state w') = 5000 /\
    persisted (trace w') = Some (g_state w').
Proof.
  edestruct (sync_outcome quiet_hour pending_world) as (w' & Hrun & Hidle & Hnew).
  - reflexivity.
  - reflexivity.
  - vm_compute. reflexivity.
  - vm_compute. reflexivity.
  - vm_compute. discriminate.
  - vm_compute. reflexivity.
  - exists w'. simpl in Hrun, Hnew. destruct Hnew as (Hs & Ha & Ht).
    split; [exact Hrun|]. split; [exact Hidle|].
    split; [exact Hs|]. split; [exact Ha|].
    rewrite Ht. reflexivity.
Defined.

(** C5. A sync trigger with the scheduler idle returns
    [CONSUMPTION_SUCCESS], calls neither the network sink nor any other
    output of the platform, leaves the module state as it was, so
    [last_aggregation] and [last_sync] do not advance, and is idle again,
    whenever [now - last_aggregation] (in [uint32_t] arithmetic) is below
    [aggregation_interval], or the ring is well formed and no buffered
    event lies in [last_aggregation, now]. *)
Theorem sync_skips pf w :
  sync_in_progress (g_state w) = false ->
  wrap32 (reading pf w - last_aggregation (g_state w))
    < aggregation_interval (config (g_state w)) \/
  (ring_ok (g_state w) /\
   window_total (last_aggregation (g_state w)) (reading pf w)
     (buffered (g_state w)) = 0) ->
  exists w',
    sync_to_api pf w = Ok (CONSUMPTION_SUCCESS, w') /\
    network_sends w' = network_sends w /\
    trace w' = trace w /\
    last_aggregation (g_state w') = last_aggregation (g_state w) /\
    last_sync (g_state w') = last_sync (g_state w) /\
    sync_in_progress (g_state w') = false /\
    g_state w' = g_state w.
Proof.
  intros Hsp Hcase.
  unfold sync_to_api, bind at 1, get.
  destruct (enable_external_api (config (g_state w))); cbn [negb].
  2: { exists w. unfold ret. rewrite Hsp. repeat split; reflexivity. }
  rewrite Hsp.
  unfold bind at 1, modify. unfold bind at 1, consumption_platform_get_timestamp.
  unfold bind at 1, get. cbn [g_state with_g clock_reads last_aggregation
    set_sync_in_progress config]. fold (reading pf w).
  destruct (Z.ltb_spec (wrap32 (reading pf w - last_aggregation (g_state w)))
              (aggregation_interval (config (g_state w)))) as [Hlt|Hge].
  - unfold bind, modify, ret, with_g. simpl.
    rewrite sync_flag_round_trip by exact Hsp.
    eexists. split; [reflexivity|]. simpl. rewrite Hsp. repeat split; reflexivity.
  - destruct Hcase as [Hlt|[Hok Hzero]]; [lia|].
    match goal with
    | |- context [bind (aggregate_events ?s ?e) ?k ?W] =>
        pose proof (aggregate_events_runs W s e Hok) as Ha;
        pose proof (aggregate_events_total W s e _ Hok Ha) as Htot;
        rewrite (bind_eq (aggregate_events s e) k W _ W Ha)
    end.
    set (a := count_all _ _ _ _) in *.
    change (agg_total_events a
            = window_total (last_aggregation (g_state w)) (reading pf w)
                (buffered (g_state w))) in Htot.
    rewrite Htot, Hzero. simpl.
    unfold bind, modify, ret, with_g. simpl.
    rewrite sync_flag_round_trip by exact Hsp.
    eexists. split; [reflexivity|]. simpl. rewrite Hsp. repeat split; reflexivity.
Qed.

Lemma sync_skips_witness :
  (exists w',
     sync_to_api still_early pending_world = Ok (CONSUMPTION_SUCCESS, w') /\
     network_sends w' = network_sends pending_world /\
     trace w' = trace pending_world /\
     last_aggregation (g_state w') = last_aggregation (g_state pending_world) /\
     last_sync (g_state w') = last_sync (g_state pending_world) /\
     sync_in_progress (g_state w') = false /\
     g_state w' = g_state pending_world) /\
  (exists w',
     sync_to_api much_later idle_sink_world = Ok (CONSUMPTION_SUCCESS, w') /\
     network_sends w' = network_sends idle_sink_world /\
     trace w' = trace idle_sink_world /\
     last_aggregation (g_state w') = last_aggregation (g_state idle_sink_world) /\
     last_sync (g_state w') = last_sync (g_state idle_sink_world) /\
     sync_in_progress (g_state w') = false /\
     g_state w' = g_state idle_sink_world).
Proof.
  split.
  - apply (sync_skips still_early pending_world).
    + reflexivity.
    + left. vm_compute. reflexivity.
  - apply (sync_skips much_later idle_sink_world).
    + reflexivity.
    + right. split; [ring_ok_by_evaluation|reflexivity].
Defined.

(** The same through the public [consumption_force_sync]. *)
Lemma force_sync_skips pf w :
  initialized (g_state w) = true ->
  sync_in_progress (g_state w) = false ->
  wrap32 (reading pf w - last_aggregation (g_state w))
    < aggregation_interval (config (g_state w)) ->
  exists w',
    consumption_force_sync pf w = Ok (CONSUMPTION_SUCCESS, w') /\
    network_sends w' = network_sends w /\
    g_state w' = g_state w.
Proof.
  intros Hi Hsp Hearly.
  unfold consumption_force_sync, bind at 1, get. rewrite Hi. cbn [negb].
  unfold sync_to_api, bind at 1, get.
  destruct (enable_external_api (config (g_state w))); cbn [negb].
  2: { exists w. split; [reflexivity|]. split; reflexivity. }
  rewrite Hsp.
  unfold bind at 1, modify. unfold bind at 1, consumption_platform_get_timestamp.
  unfold bind at 1, get.
  cbn [g_state with_g clock_reads last_aggregation set_sync_in_progress config].
  fold (reading pf w).
  rewrite (proj2 (Z.ltb_lt _ _) Hearly).
  unfold bind, modify, ret, with_g. simpl.
  rewrite sync_flag_round_trip by exact Hsp.
  eexists. split; [reflexivity|]. split; reflexivity.
Qed.

(* ====================================================================== *)
(** ** Recording events *)

(** An accepted call appends the event stamped with the first clock
    reading and counts it; the opportunistic sync changes none of that. *)
Lemma on_dispense_accepts pf w mid pid r w' :
  initialized (g_state w) = true ->
  ring_ok (g_state w) ->
  mid = machine_id (config (g_state w)) ->
  pid <> 0 ->
  consumption_on_dispense pf mid pid w = Ok (r, w') ->
  r = CONSUMPTION_SUCCESS /\
  ring_ok (g_state w') /\
  buffered (g_state w')
  = appended (capacity (g_state w)) (buffered (g_state w))
      (mk_event (reading pf w) mid pid) /\
  buffer_count (g_state w')
  = Z.min (buffer_count (g_state w) + 1) (capacity (g_state w)) /\
  total_events (g_state w') = wrap32 (total_events (g_state w) + 1) /\
  config (g_state w') = config (g_state w) /\
  initialized (g_state w') = true /\
  (sync_in_progress (g_state w) = false -> sync_in_progress (g_state w') = false).
Proof.
  intros Hi Hok Hm Hp.
  unfold consumption_on_dispense, bind at 1, get. rewrite Hi. simpl.
  rewrite (proj2 (Z.eqb_eq _ _) Hm). rewrite (proj2 (Z.eqb_neq _ _) Hp). simpl.
  unfold bind at 1, consumption_platform_get_timestamp.
  destruct (add_event_to_buffer_spec (tick w) (mk_event (reading pf w) mid pid) Hok)
    as (g1 & Hadd & Hok1 & Hbuf1 & Hcnt1 & Hu1).
  unfold tick, reading in Hadd. unfold bind at 1. rewrite Hadd. simpl.
  destruct Hu1 as (Hi1 & Hc1 & Ht1 & Hla1 & Hls1 & Hsp1). simpl in *.
  unfold bind at 1, modify. unfold bind at 1, get. simpl. rewrite Hc1.
  unfold bind at 1.
  destruct (enable_external_api (config (g_state w))).
  - unfold bind at 1, consumption_platform_get_timestamp. simpl.
    destruct (_ >=? _).
    + unfold bind at 1.
      destruct (sync_to_api pf _) as [[r2 w2]|] eqn:Hsync; [|discriminate].
      apply sync_to_api_frame in Hsync. destruct Hsync as [Hss Hidle].
      unfold ret. intros H. injection H as <- <-.
      pose proof Hss as (Hi2 & Hc2 & Ht2 & _). simpl in *.
      split; [reflexivity|]. split; [eapply same_store_ring; [exact Hss|]|].
      { destruct Hok1 as (Hb & H). split; [exact Hb|exact H]. }
      rewrite (same_store_buffered _ _ Hss).
      destruct Hss as (_ & _ & _ & _ & _ & Hn2 & _). simpl in Hn2.
      rewrite Hn2, Ht2, Hc2, Hi2, Hi1, Hc1, Ht1.
      split; [exact Hbuf1|]. split; [exact Hcnt1|]. split; [reflexivity|].
      split; [reflexivity|]. split; [exact Hi|].
      intros Hsp. apply Hidle. rewrite Hsp1. exact Hsp.
    + unfold ret. simpl. intros H. injection H as <- <-. simpl.
      rewrite Hc1, Ht1, Hi1, Hsp1.
      split; [reflexivity|]. split; [exact Hok1|]. split; [exact Hbuf1|].
      split; [exact Hcnt1|]. split; [reflexivity|]. split; [reflexivity|].
      split; [exact Hi|]. exact (fun H => H).
  - unfold ret. simpl. intros H. injection H as <- <-. simpl.
    rewrite Hc1, Ht1, Hi1, Hsp1.
    split; [reflexivity|]. split; [exact Hok1|]. split; [exact Hbuf1|].
    split; [exact Hcnt1|]. split; [reflexivity|]. split; [reflexivity|].
    split; [exact Hi|]. exact (fun H => H).
Qed.

Lemma on_dispense_defined_when_disabled pf w mid pid :
  ring_ok (g_state w) ->
  enable_external_api (config (g_state w)) = false ->
  exists r w', consumption_on_dispense pf mid pid w = Ok (r, w').
Proof.
  intros Hok Hen.
  unfold consumption_on_dispense, bind at 1, get.
  destruct (initialized (g_state w)); simpl; [|eexists _, _; reflexivity].
  destruct (mid =? _); simpl; [|eexists _, _; reflexivity].
  destruct (pid =? 0); simpl; [eexists _, _; reflexivity|].
  unfold bind at 1, consumption_platform_get_timestamp.
  destruct (add_event_to_buffer_spec (tick w) (mk_event (reading pf w) mid pid) Hok)
    as (g1 & Hadd & _ & _ & _ & Hu1).
  unfold tick, reading in Hadd. unfold bind at 1. rewrite Hadd. simpl.
  destruct Hu1 as (_ & Hc1 & _). simpl in Hc1.
  unfold bind at 1, modify. unfold bind at 1, get. simpl. rewrite Hc1, Hen.
  unfold bind, ret. eexists _, _; reflexivity.
Qed.

Lemma on_dispense_step pf w mid pid r w' :
  ring_ok (g_state w) ->
  consumption_on_dispense pf mid pid w = Ok (r, w') ->
  ring_ok (g_state w') /\
  config (g_state w') = config (g_state w) /\
  initialized (g_state w') = initialized (g_state w) /\
  total_events (g_state w')
  = (if error_eqb r CONSUMPTION_SUCCESS
     then wrap32 (total_events (g_state w) + 1)
     else total_events (g_state w)) /\
  (sync_in_progress (g_state w) = false -> sync_in_progress (g_state w') = false).
Proof.
  intros Hok H.
  destruct (initialized (g_state w)) eqn:Hi.
  - destruct (Z.eq_dec mid (machine_id (config (g_state w)))) as [Hm|Hm].
    + destruct (Z.eq_dec pid 0) as [Hp|Hp].
      * subst pid. rewrite on_dispense_zero_category in H by exact Hi.
        injection H as <- <-. simpl. auto.
      * destruct (on_dispense_accepts _ _ _ _ _ _ Hi Hok Hm Hp H)
          as (-> & Hok' & _ & _ & Ht & Hc & Hi' & Hidle).
        simpl. auto.
    + rewrite on_dispense_wrong_machine in H by assumption.
      injection H as <- <-. simpl. auto.
  - rewrite on_dispense_uninitialized in H by exact Hi.
    injection H as <- <-. simpl. auto.
Qed.

Lemma run_calls_counters pf calls : forall w rs w',
  ring_ok (g_state w) ->
  u32 (total_events (g_state w)) ->
  run_calls pf calls w = Ok (rs, w') ->
  ring_ok (g_state w') /\
  config (g_state w') = config (g_state w) /\
  initialized (g_state w') = initialized (g_state w) /\
  total_events (g_state w') = wrap32 (total_events (g_state w) + successes rs) /\
  (sync_in_progress (g_state w) = false -> sync_in_progress (g_state w') = false).
Proof.
  induction calls as [|[mid pid] rest IH]; intros w rs w' Hok Hu H.
  - injection H as <- <-. unfold successes. simpl. rewrite Z.add_0_r.
    rewrite wrap32_small by exact Hu. auto.
  - simpl in H. apply bind_ok in H. destruct H as (r & w1 & Hd & H).
    apply bind_ok in H. destruct H as (rs1 & w2 & Hr & H).
    injection H as <- <-.
    destruct (on_dispense_step _ _ _ _ _ _ Hok Hd) as (Hok1 & Hc1 & Hi1 & Ht1 & Hs1).
    assert (Hu1 : u32 (total_events (g_state w1))).
    { rewrite Ht1. destruct (error_eqb r CONSUMPTION_SUCCESS); [|exact Hu].
      unfold wrap32, u32. apply Z.mod_pos_bound. lia. }
    destruct (IH _ _ _ Hok1 Hu1 Hr) as (Hok2 & Hc2 & Hi2 & Ht2 & Hs2).
    rewrite Hc2, Hi2, Hc1, Hi1, Ht2, Ht1.
    split; [exact Hok2|]. split; [reflexivity|]. split; [reflexivity|].
    split; [|auto].
    unfold successes. simpl. fold (successes rs1).
    destruct (error_eqb r CONSUMPTION_SUCCESS); simpl.
    + unfold successes. rewrite Nat2Z.inj_succ. fold (successes rs1).
      unfold wrap32. rewrite Zplus_mod_idemp_l. f_equal. lia.
    + reflexivity.
Qed.

Lemma run_calls_prefix pf calls : forall w rs w' n,
  run_calls pf calls w = Ok (rs, w') ->
  exists wn, run_calls pf (take n calls) w = Ok (take n rs, wn).
Proof.
  induction calls as [|[mid pid] rest IH]; intros w rs w' n H.
  - injection H as <- <-. rewrite !take_nil. exists w. reflexivity.
  - simpl in H. apply bind_ok in H. destruct H as (r & w1 & Hd & H).
    apply bind_ok in H. destruct H as (rs1 & w2 & Hr & H).
    injection H as <- <-. destruct n as [|n].
    + exists w. reflexivity.
    + destruct (IH _ _ _ n Hr) as (wn & Hn). exists wn.
      simpl. rewrite (bind_eq _ _ _ _ _ Hd). rewrite (bind_eq _ _ _ _ _ Hn).
      reflexivity.
Qed.

Lemma run_calls_defined_when_disabled pf calls : forall w,
  ring_ok (g_state w) ->
  enable_external_api (config (g_state w)) = false ->
  exists rs w', run_calls pf calls w = Ok (rs, w').
Proof.
  induction calls as [|[mid pid] rest IH]; intros w Hok Hen.
  - eexists _, _. reflexivity.
  - destruct (on_dispense_defined_when_disabled pf w mid pid Hok Hen) as (r & w1 & Hd).
    destruct (on_dispense_step _ _ _ _ _ _ Hok Hd) as (Hok1 & Hc1 & _).
    destruct (IH w1 Hok1) as (rs & w2 & Hr); [rewrite Hc1; exact Hen|].
    exists (r :: rs), w2. simpl.
    rewrite (bind_eq _ _ _ _ _ Hd), (bind_eq _ _ _ _ _ Hr). reflexivity.
Qed.

(** C10. On an initialized instance an accepted [consumption_on_dispense]
    appends the event and counts it; after that it calls [sync_to_api]
    only when the external sink is enabled and [now - last_sync] (in
    [uint32_t] arithmetic, [now] the second clock reading of the call)
    has reached [aggregation_interval]. Otherwise it returns
    [CONSUMPTION_SUCCESS] with no output of the platform, no network call,
    and [last_sync], [last_aggregation] and the scheduler flag unchanged.
    When it does call [sync_to_api], the scheduler's own check against
    [last_aggregation] still applies inside that call. *)
Theorem opportunistic_sync_gate pf w mid pid :
  initialized (g_state w) = true ->
  ring_ok (g_state w) ->
  mid = machine_id (config (g_state w)) ->
  pid <> 0 ->
  let g := g_state w in
  let due := enable_external_api (config g)
             && (wrap32 (reading pf (tick w) - last_sync g)
                 >=? aggregation_interval (config g)) in
  exists w1,
    trace w1 = trace w /\
    network_sends w1 = network_sends w /\
    last_sync (g_state w1) = last_sync g /\
    last_aggregation (g_state w1) = last_aggregation g /\
    sync_in_progress (g_state w1) = sync_in_progress g /\
    buffered (g_state w1)
    = appended (capacity g) (buffered g) (mk_event (reading pf w) mid pid) /\
    total_events (g_state w1) = wrap32 (total_events g + 1) /\
    consumption_on_dispense pf mid pid w
    = if due
      then bind (sync_to_api pf) (fun _ => ret CONSUMPTION_SUCCESS) w1
      else Ok (CONSUMPTION_SUCCESS, w1).
Proof.
  intros Hi Hok Hm Hp g due. subst g due.
  unfold consumption_on_dispense, bind at 1, get. rewrite Hi. simpl.
  rewrite (proj2 (Z.eqb_eq _ _) Hm). rewrite (proj2 (Z.eqb_neq _ _) Hp). simpl.
  unfold bind at 1, consumption_platform_get_timestamp.
  destruct (add_event_to_buffer_spec (tick w) (mk_event (reading pf w) mid pid) Hok)
    as (g1 & Hadd & Hok1 & Hbuf1 & Hcnt1 & Hu1).
  unfold tick, reading in Hadd. unfold bind at 1. rewrite Hadd. simpl.
  destruct Hu1 as (Hi1 & Hc1 & Ht1 & Hla1 & Hls1 & Hsp1). simpl in *.
  unfold bind at 1, modify. unfold bind at 1, get. simpl. rewrite Hc1, Hls1.
  unfold bind at 1.
  destruct (enable_external_api (config (g_state w))); simpl.
  - unfold bind at 1, consumption_platform_get_timestamp. simpl.
    unfold reading, tick. simpl.
    exists (mk_world (set_total_events (wrap32 (total_events g1 + 1)) g1)
              (S (S (clock_reads w))) (storage_reads w) (network_sends w)
              (allocations w) (trace w)). simpl.
    split; [reflexivity|]. split; [reflexivity|].
    split; [exact Hls1|]. split; [exact Hla1|]. split; [exact Hsp1|].
    split; [exact Hbuf1|]. split; [rewrite Ht1; reflexivity|].
    destruct (_ >=? _).
    + unfold bind. destruct (sync_to_api pf _) as [[r2 w2]|]; reflexivity.
    + reflexivity.
  - exists (mk_world (set_total_events (wrap32 (total_events g1 + 1)) g1)
              (S (clock_reads w)) (storage_reads w) (network_sends w)
              (allocations w) (trace w)). simpl.
    split; [reflexivity|]. split; [reflexivity|].
    split; [exact Hls1|]. split; [exact Hla1|]. split; [exact Hsp1|].
    split; [exact Hbuf1|]. split; [rewrite Ht1; reflexivity|].
    reflexivity.
Qed.

Lemma opportunistic_sync_gate_witness :
  (exists w1,
     trace w1 = trace shop_world /\
     network_sends w1 = network_sends shop_world /\
     last_sync (g_state w1) = last_sync (g_state shop_world) /\
     last_aggregation (g_state w1) = last_aggregation (g_state shop_world) /\
     sync_in_progress (g_state w1) = sync_in_progress (g_state shop_world) /\
     buffered (g_state w1)
     = appended (capacity (g_state shop_world)) (buffered (g_state shop_world))
         (mk_event (reading first_boot shop_world) 11111 1) /\
     total_events (g_state w1) = wrap32 (total_events (g_state shop_world) + 1) /\
     consumption_on_dispense first_boot 11111 1 shop_world
     = Ok (CONSUMPTION_SUCCESS, w1)) /\
  (exists w1,
     trace w1 = trace pending_world /\
     network_sends w1 = network_sends pending_world /\
     last_sync (g_state w1) = last_sync (g_state pending_world) /\
     last_aggregation (g_state w1) = last_aggregation (g_state pending_world) /\
     sync_in_progress (g_state w1) = sync_in_progress (g_state pending_world) /\
     buffered (g_state w1)
     = appended (capacity (g_state pending_world)) (buffered (g_state pending_world))
         (mk_event (reading quiet_hour pending_world) 7 3) /\
     total_events (g_state w1) = wrap32 (total_events (g_state pending_world) + 1) /\
     consumption_on_dispense quiet_hour 7 3 pending_world
     = bind (sync_to_api quiet_hour) (fun _ => ret CONSUMPTION_SUCCESS) w1).
Proof.
  split.
  - apply (opportunistic_sync_gate first_boot shop_world 11111 1).
    + reflexivity.
    + ring_ok_by_evaluation.
    + reflexivity.
    + lia.
  - apply (opportunistic_sync_gate quiet_hour pending_world 7 3).
    + reflexivity.
    + ring_ok_by_evaluation.
    + reflexivity.
    + lia.
Defined.

(** C1 (amended). On a well-formed ring, as a fresh start always leaves
    it, every sequence of record-event calls that runs to its end keeps,
    at every step, the capacity fixed and [0 <= count <= capacity], and
    the lifetime total equals the total the instance started with plus
    the number of calls that returned success, modulo [2^32]. *)
Theorem counters_after_calls pf calls w rs w' :
  ring_ok (g_state w) ->
  u32 (total_events (g_state w)) ->
  run_calls pf calls w = Ok (rs, w') ->
  forall n, exists wn,
    run_calls pf (take n calls) w = Ok (take n rs, wn) /\
    capacity (g_state wn) = capacity (g_state w) /\
    0 <= buffer_count (g_state wn) <= capacity (g_state wn) /\
    total_events (g_state wn)
    = wrap32 (total_events (g_state w) + successes (take n rs)).
Proof.
  intros Hok Hu H n.
  destruct (run_calls_prefix _ _ _ _ _ n H) as (wn & Hn). exists wn.
  destruct (run_calls_counters _ _ _ _ _ Hok Hu Hn) as (Hokn & Hc & _ & Ht & _).
  split; [exact Hn|]. unfold capacity. rewrite Hc. split; [reflexivity|].
  split; [|exact Ht].
  destruct Hokn as (_ & _ & _ & Hcount & _). unfold capacity in Hcount.
  rewrite Hc in Hcount. exact Hcount.
Qed.

Lemma counters_after_calls_witness :
  exists wn,
    run_calls first_boot (take 3 mixed_calls) shop_world
    = Ok (take 3 mixed_results, wn) /\
    capacity (g_state wn) = capacity (g_state shop_world) /\
    0 <= buffer_count (g_state wn) <= capacity (g_state wn) /\
    total_events (g_state wn)
    = wrap32 (total_events (g_state shop_world) + successes (take 3 mixed_results)).
Proof.
  eapply (counters_after_calls first_boot mixed_calls shop_world mixed_results).
  - ring_ok_by_evaluation.
  - unfold u32. simpl. lia.
  - vm_compute. reflexivity.
Defined.

(** The counterexamples to C1 as stated. A power-up that restores the
    record of an earlier session starts from that session's lifetime
    total, so after one accepted call the total is 2, and from the
    largest [uint32_t] it wraps to 0; after a storage read that succeeds
    on a zero-filled record the capacity is 0 and the first accepted call
    divides by it; and in the busy shop the opportunistic sync of the
    201st call writes past [json_buffer]. *)
Lemma restored_total_counterexample :
  (exists w w',
     consumption_init second_boot (Some shop_config) boot = Ok (CONSUMPTION_SUCCESS, w) /\
     run_calls second_boot [(11111, 2)] w = Ok ([CONSUMPTION_SUCCESS], w') /\
     total_events (g_state w') = 2 /\
     successes [CONSUMPTION_SUCCESS] = 1 /\
     total_events (g_state w') <> successes [CONSUMPTION_SUCCESS]) /\
  (exists w w',
     consumption_init worn_boot (Some shop_config) boot = Ok (CONSUMPTION_SUCCESS, w) /\
     run_calls worn_boot [(11111, 2)] w = Ok ([CONSUMPTION_SUCCESS], w') /\
     total_events (g_state w') = 0) /\
  (exists w,
     consumption_init blank_storage (Some shop_config) boot = Ok (CONSUMPTION_SUCCESS, w) /\
     capacity (g_state w) = 0 /\
     run_calls blank_storage [(0, 1)] w = Fault DivisionByZero) /\
  (exists w,
     consumption_init busy_day (Some busy_config) boot = Ok (CONSUMPTION_SUCCESS, w) /\
     run_calls busy_day (categories 200 ++ [(7, 1)]) w = Fault OutOfBounds).
Proof.
  split; [|split; [|split]].
  - eexists _, _. split; [vm_compute; reflexivity|].
    split; [vm_compute; reflexivity|]. split; [reflexivity|].
    split; [reflexivity|]. vm_compute. discriminate.
  - eexists _, _. split; [vm_compute; reflexivity|].
    split; [vm_compute; reflexivity|]. reflexivity.
  - eexists. split; [vm_compute; reflexivity|]. split; reflexivity.
  - eexists. split; [vm_compute; reflexivity|]. vm_compute. reflexivity.
Qed.

(* ====================================================================== *)
(** ** A fresh start *)

Lemma acceptable_capacity cfg :
  acceptable cfg -> 0 < ring_buffer_size (chosen_config cfg) <= 10000.
Proof.
  destruct cfg as [c|]; simpl; [|lia]. intros [Hv Hr]. revert Hv.
  destruct (machine_id c =? 0); [discriminate|].
  destruct (Z.eqb_spec (ring_buffer_size c) 0); [discriminate|].
  rewrite Z.gtb_ltb.
  destruct (Z.ltb_spec 10000 (ring_buffer_size c)); [discriminate|].
  lia.
Qed.

(** With nothing to restore and memory to allocate, [consumption_init]
    succeeds and builds [fresh_world]: an empty, well-formed ring and a
    lifetime total of 0. *)
Lemma fresh_init pf cfg fill w0 :
  initialized (g_state w0) = false ->
  storage pf (storage_reads w0) = None ->
  heap pf (allocations w0) = Some fill ->
  acceptable cfg ->
  consumption_init pf cfg w0 = Ok (CONSUMPTION_SUCCESS, fresh_world pf cfg fill w0).
Proof.
  intros Hi Hs Hh Ha.
  unfold consumption_init, bind, get, modify, ret, load_state,
    consumption_platform_storage_read, consumption_platform_get_timestamp,
    malloc, consumption_platform_log, output.
  rewrite Hi. simpl.
  assert (Hv : match cfg with Some _ => negb (validate_config cfg) | None => false end = false).
  { destruct cfg as [c|]; [|reflexivity]. destruct Ha as [-> _]. reflexivity. }
  rewrite Hv. simpl. rewrite Hs. simpl. rewrite Hh. simpl.
  reflexivity.
Qed.

Lemma fresh_state_ring pf cfg fill w0 :
  acceptable cfg ->
  ring_ok (fresh_state pf cfg fill w0) /\
  buffered (fresh_state pf cfg fill w0) = [] /\
  total_events (fresh_state pf cfg fill w0) = 0.
Proof.
  intros Ha. pose proof (acceptable_capacity _ Ha) as Hc.
  split; [|split; reflexivity].
  unfold ring_ok, capacity, fresh_state, fresh_block. simpl.
  split; [|split; [|split; [|split]]]; try lia.
  - eexists. split; [reflexivity|]. rewrite length_map, length_seq. lia.
  - rewrite Z.add_0_r. rewrite Z.mod_small by lia. reflexivity.
Qed.

(** On a fresh start the lifetime total is the number of accepted calls. *)
Lemma fresh_start_counts_successes pf cfg fill w0 calls rs w :
  acceptable cfg ->
  run_calls pf calls (fresh_world pf cfg fill w0) = Ok (rs, w) ->
  0 <= buffer_count (g_state w) <= capacity (g_state w) /\
  total_events (g_state w) = wrap32 (successes rs).
Proof.
  intros Ha H.
  destruct (fresh_state_ring pf cfg fill w0 Ha) as (Hok & _ & Ht).
  assert (Hu : u32 (total_events (g_state (fresh_world pf cfg fill w0))))
    by (unfold u32; simpl; lia).
  destruct (run_calls_counters pf calls (fresh_world pf cfg fill w0) rs w Hok Hu H)
    as (Hok' & _ & _ & Ht' & _).
  split; [apply Hok'|exact Ht'].
Qed.

(* ====================================================================== *)
(** ** Configuration updates *)

Lemma update_config_invalid w cfg :
  validate_config cfg = false ->
  consumption_update_config cfg w = Ok (CONSUMPTION_ERROR_INVALID_CONFIG, w).
Proof.
  intros Hv. unfold consumption_update_config. destruct cfg as [c|]; [|reflexivity].
  rewrite Hv. reflexivity.
Qed.

Lemma update_config_capacity_differs w c :
  validate_config (Some c) = true ->
  ring_buffer_size c <> capacity (g_state w) ->
  consumption_update_config (Some c) w = Ok (CONSUMPTION_ERROR_INVALID_PARAMETER, w).
Proof.
  intros Hv Hne. unfold capacity in Hne.
  unfold consumption_update_config, bind, get, ret. rewrite Hv. simpl.
  rewrite (proj2 (Z.eqb_neq _ _) Hne). reflexivity.
Qed.

Lemma update_config_accepted w c :
  validate_config (Some c) = true ->
  ring_buffer_size c = capacity (g_state w) ->
  consumption_update_config (Some c) w
  = Ok (CONSUMPTION_SUCCESS,
        emit (IoStorageWrite (set_config c (g_state w))) (with_g (set_config c) w)).
Proof.
  intros Hv He. unfold capacity in He.
  unfold consumption_update_config, bind, get, ret, modify, save_state,
    consumption_platform_storage_write, output.
  rewrite Hv. simpl. rewrite (proj2 (Z.eqb_eq _ _) He). reflexivity.
Qed.

Lemma update_config_defined w cfg :
  exists r w', consumption_update_config cfg w = Ok (r, w').
Proof.
  destruct (validate_config cfg) eqn:Hv.
  - destruct cfg as [c|]; [|discriminate].
    destruct (Z.eq_dec (ring_buffer_size c) (capacity (g_state w))) as [He|Hne].
    + rewrite update_config_accepted by assumption. eexists _, _. reflexivity.
    + rewrite update_config_capacity_differs by assumption. eexists _, _. reflexivity.
  - rewrite update_config_invalid by assumption. eexists _, _. reflexivity.
Qed.

Lemma update_config_keeps_capacity w cfg r w' :
  consumption_update_config cfg w = Ok (r, w') ->
  capacity (g_state w') = capacity (g_state w).
Proof.
  destruct (validate_config cfg) eqn:Hv.
  - destruct cfg as [c|]; [|discriminate].
    destruct (Z.eq_dec (ring_buffer_size c) (capacity (g_state w))) as [He|Hne].
    + rewrite update_config_accepted by assumption. intros H. injection H as _ <-.
      unfold capacity. simpl. exact He.
    + rewrite update_config_capacity_differs by assumption.
      intros H. injection H as _ <-. reflexivity.
  - rewrite update_config_invalid by assumption. intros H. injection H as _ <-.
    reflexivity.
Qed.

Lemma run_updates_keep_capacity cfgs : forall w,
  exists rs w', run_updates cfgs w = Ok (rs, w') /\
                capacity (g_state w') = capacity (g_state w).
Proof.
  induction cfgs as [|cfg rest IH]; intros w.
  - exists [], w. split; reflexivity.
  - destruct (update_config_defined w cfg) as (r & w1 & H1).
    destruct (IH w1) as (rs & w2 & H2 & Hc).
    exists (r :: rs), w2. split.
    + simpl. rewrite (bind_eq _ _ _ _ _ H1), (bind_eq _ _ _ _ _ H2). reflexivity.
    + rewrite Hc. eapply update_config_keeps_capacity. exact H1.
Qed.

(** C6 (amended). [consumption_update_config] returns
    [CONSUMPTION_ERROR_INVALID_CONFIG] for a null or invalid configuration,
    whatever its capacity; [CONSUMPTION_ERROR_INVALID_PARAMETER] for a
    valid one whose capacity differs from the active one; and otherwise
    succeeds, replaces the whole active configuration, the machine
    identifier included, and hands the state to the storage write. After
    any sequence of such calls the capacity is the one the sequence
    started with. *)
Theorem update_config_contract w :
  (forall cfg, validate_config cfg = false ->
     consumption_update_config cfg w = Ok (CONSUMPTION_ERROR_INVALID_CONFIG, w)) /\
  (forall c, validate_config (Some c) = true ->
     ring_buffer_size c <> capacity (g_state w) ->
     consumption_update_config (Some c) w
     = Ok (CONSUMPTION_ERROR_INVALID_PARAMETER, w)) /\
  (forall c, validate_config (Some c) = true ->
     ring_buffer_size c = capacity (g_state w) ->
     exists w',
       consumption_update_config (Some c) w = Ok (CONSUMPTION_SUCCESS, w') /\
       config (g_state w') = c /\
       trace w' = trace w ++ [IoStorageWrite (g_state w')]) /\
  (forall cfgs, exists rs w',
     run_updates cfgs w = Ok (rs, w') /\
     capacity (g_state w') = capacity (g_state w)).
Proof.
  split; [intros cfg; apply update_config_invalid|].
  split; [intros c; apply update_config_capacity_differs|].
  split; [|intros cfgs; apply run_updates_keep_capacity].
  intros c Hv He. eexists. split; [apply update_config_accepted; assumption|].
  split; reflexivity.
Qed.

Lemma update_config_contract_witness :
  consumption_update_config (Some no_machine_bigger) shop_world
  = Ok (CONSUMPTION_ERROR_INVALID_CONFIG, shop_world) /\
  exists w',
    consumption_update_config (Some other_machine) shop_world
    = Ok (CONSUMPTION_SUCCESS, w') /\
    config (g_state w') = other_machine /\
    trace w' = trace shop_world ++ [IoStorageWrite (g_state w')].
Proof.
  destruct (update_config_contract shop_world) as (Hinvalid & _ & Haccept & _).
  split.
  - apply Hinvalid. reflexivity.
  - apply Haccept; reflexivity.
Defined.

(** The counterexample to C6 as stated: a configuration with machine
    identifier 0 and another capacity is answered with
    [CONSUMPTION_ERROR_INVALID_CONFIG], and a valid configuration with the
    same capacity changes the machine identifier from 11111 to 33333. *)
Lemma update_config_counterexample :
  exists w w',
    consumption_init first_boot (Some shop_config) boot = Ok (CONSUMPTION_SUCCESS, w) /\
    consumption_update_config (Some no_machine_bigger) w
    = Ok (CONSUMPTION_ERROR_INVALID_CONFIG, w) /\
    ring_buffer_size no_machine_bigger <> capacity (g_state w) /\
    consumption_update_config (Some other_machine) w = Ok (CONSUMPTION_SUCCESS, w') /\
    machine_id (config (g_state w')) = 33333 /\
    machine_id (config (g_state w)) = 11111 /\
    machine_id (config (g_state w')) <> machine_id (config (g_state w)).
Proof.
  eexists _, _. split; [vm_compute; reflexivity|].
  split; [reflexivity|]. split; [vm_compute; discriminate|].
  split; [vm_compute; reflexivity|]. split; [reflexivity|].
  split; [reflexivity|]. vm_compute. discriminate.
Qed.

(* ====================================================================== *)
(** ** The wire payload *)

Lemma string_app_assoc (a b c : string) :
  ((a ++ b) ++ c = a ++ (b ++ c))%string.
Proof. induction a as [|x a IH]; simpl; [reflexivity|]. rewrite IH. reflexivity. Qed.

Lemma string_app_nil_r (a : string) : (a ++ EmptyString = a)%string.
Proof. induction a as [|x a IH]; simpl; [reflexivity|]. rewrite IH. reflexivity. Qed.

Lemma strlen_app (a b : string) : strlen (a ++ b) = strlen a + strlen b.
Proof.
  unfold strlen. induction a as [|x a IH]; simpl String.length; [lia|].
  rewrite !Nat2Z.inj_succ. lia.
Qed.

Lemma strlen_nonneg (a : string) : 0 <= strlen a.
Proof. unfold strlen. lia. Qed.

Lemma substring_all (s : string) (n : nat) :
  (String.length s <= n)%nat -> String.substring 0 n s = s.
Proof.
  revert n. induction s as [|x s IH]; intros n Hn.
  - destruct n; reflexivity.
  - destruct n as [|n]; simpl in *; [lia|]. rewrite IH by lia. reflexivity.
Qed.

(** A formatted piece that fits is appended whole. *)
Lemma snprintf_fits b piece :
  len b = strlen (text b) ->
  len b + strlen piece < json_buffer_size ->
  snprintf b piece = Ok (mk_json (text b ++ piece) (len b + strlen piece)).
Proof.
  intros Hlen Hfit. pose proof (strlen_nonneg (text b)). pose proof (strlen_nonneg piece).
  unfold snprintf, json_buffer_size in *.
  destruct (Z.gtb_spec (len b) 1024); [lia|].
  destruct (Z.eqb_spec (1024 - len b) 0); [lia|].
  rewrite !substring_all; [reflexivity| |].
  - unfold strlen in *. lia.
  - unfold strlen in *. lia.
Qed.

Lemma sold_cons counts i ids :
  sold counts (i :: ids)
  = if nth (Z.to_nat i) counts 0 >? 0
    then (i, nth (Z.to_nat i) counts 0) :: sold counts ids
    else sold counts ids.
Proof. unfold sold. simpl. destruct (_ >? 0); reflexivity. Qed.

Lemma products_loop_cons i rest counts first b :
  json_products_loop (i :: rest) counts first b
  = if nth (Z.to_nat i) counts 0 >? 0 then
      rbind (if negb first then snprintf b "," else Ok b) (fun b =>
      rbind (snprintf b (json_product i (nth (Z.to_nat i) counts 0))) (fun b =>
      json_products_loop rest counts false b))
    else json_products_loop rest counts first b.
Proof. reflexivity. Qed.

Lemma products_loop_fits counts : forall ids first b,
  len b = strlen (text b) ->
  len b + strlen (products_text first (sold counts ids)) < json_buffer_size ->
  json_products_loop ids counts first b
  = Ok (mk_json (text b ++ products_text first (sold counts ids))
          (len b + strlen (products_text first (sold counts ids)))).
Proof.
  unfold json_buffer_size.
  induction ids as [|i ids IH]; intros first b Hlen Hfit.
  - cbn [json_products_loop sold map List.filter products_text].
    rewrite string_app_nil_r. change (strlen EmptyString) with 0.
    rewrite Z.add_0_r. destruct b; reflexivity.
  - rewrite products_loop_cons. rewrite sold_cons in *.
    destruct (nth (Z.to_nat i) counts 0 >? 0); [|apply IH; assumption].
    set (c := nth (Z.to_nat i) counts 0) in *.
    cbn [products_text] in *.
    rewrite !strlen_app in Hfit.
    pose proof (strlen_nonneg (products_text false (sold counts ids))).
    pose proof (strlen_nonneg (json_product i c)).
    destruct first; cbn [negb].
    + change (strlen EmptyString) with 0 in Hfit.
      cbn [rbind].
      assert (Hx : len b + strlen (json_product i c) < json_buffer_size).
      { unfold json_buffer_size. lia. }
      rewrite snprintf_fits by assumption.
      cbn [rbind]. rewrite IH; cbn [text len].
      * rewrite !strlen_app, !string_app_assoc. change (strlen EmptyString) with 0.
        cbn [String.append]. f_equal. f_equal. lia.
      * rewrite strlen_app. lia.
      * lia.
    + change (strlen ",") with 1 in Hfit.
      assert (Hx : len b + strlen "," < json_buffer_size).
      { unfold json_buffer_size. change (strlen ",") with 1. lia. }
      rewrite (snprintf_fits b ",") by assumption.
      cbn [rbind]. rewrite snprintf_fits; cbn [text len].
      2: { rewrite strlen_app. change (strlen ",") with 1. lia. }
      2: { unfold json_buffer_size. change (strlen ",") with 1. lia. }
      cbn [rbind]. rewrite IH; cbn [text len].
      * rewrite !strlen_app, !string_app_assoc. change (strlen ",") with 1.
        f_equal. f_equal. lia.
      * rewrite !strlen_app. change (strlen ",") with 1. lia.
      * change (strlen ",") with 1. lia.
Qed.

(** When the object fits the 1024-byte buffer with its terminator, the
    sink receives exactly [payload_text], with its length. *)
Lemma json_payload_fits a :
  strlen (payload_text a) < json_buffer_size ->
  json_payload a = Ok (mk_json (payload_text a) (strlen (payload_text a))).
Proof.
  unfold payload_text, json_payload. generalize product_ids. intros ids Hfit.
  rewrite !strlen_app in Hfit. unfold json_buffer_size in Hfit.
  set (entries := products_text true (sold (product_counts a) ids)) in *.
  pose proof (strlen_nonneg (json_header a)).
  pose proof (strlen_nonneg entries).
  change (strlen json_products_open) with 13 in Hfit.
  change (strlen "}}") with 2 in Hfit.
  rewrite (snprintf_fits (mk_json EmptyString 0) (json_header a));
    [|reflexivity|cbn [len]; unfold json_buffer_size; lia].
  cbn [rbind text len String.append].
  rewrite snprintf_fits;
    [|reflexivity
     |cbn [len]; unfold json_buffer_size;
      change (strlen json_products_open) with 13; lia].
  cbn [rbind text len].
  rewrite products_loop_fits; cbn [text len]; fold entries;
    [|rewrite strlen_app; change (strlen json_products_open) with 13; lia
     |unfold json_buffer_size; change (strlen json_products_open) with 13; lia].
  cbn [rbind].
  rewrite snprintf_fits; cbn [text len];
    [|rewrite !strlen_app; change (strlen json_products_open) with 13; lia
     |unfold json_buffer_size; change (strlen json_products_open) with 13;
      change (strlen "}}") with 2; lia].
  rewrite !strlen_app, !string_app_assoc.
  change (strlen json_products_open) with 13. change (strlen "}}") with 2.
  f_equal. f_equal. lia.
Qed.

(** The entries of [payload_text] are the categories from 1 to 255 whose
    count is not zero, each with its count. *)
Lemma sold_product_ids counts i c :
  In (i, c) (sold counts product_ids) <->
  1 <= i <= 255 /\ c = nth (Z.to_nat i) counts 0 /\ c > 0.
Proof.
  unfold sold, product_ids. rewrite filter_In. cbn [snd]. split.
  - intros (Hin & Hc). apply in_map_iff in Hin. destruct Hin as (j & Hj & Hin).
    injection Hj as <- <-.
    apply in_map_iff in Hin. destruct Hin as (k & <- & Hk). apply in_seq in Hk.
    split; [lia|]. split; [reflexivity|]. apply Z.gtb_lt in Hc. lia.
  - intros (Hi & -> & Hc). split.
    + apply in_map_iff. exists i. split; [reflexivity|].
      apply in_map_iff. exists (Z.to_nat i). split; [lia|]. apply in_seq. lia.
    + apply Z.gtb_lt. lia.
Qed.

(** C9 (the code at its failing inputs). The busy shop sells 200
    categories inside one interval, each call returning success with no
    output of the platform; the forced sync that follows needs more than
    1024 bytes for the object and writes past [json_buffer]. In the
    crowded shop the object needs exactly 1024 characters: the sink is
    handed the text without its closing brace, with [data_len] 1024, and
    the sync counts as done. *)
Theorem json_buffer_overrun :
  busy_session boot = Fault OutOfBounds /\
  (exists rs w,
     (_ <- consumption_init busy_day (Some busy_config) ;;
      run_calls busy_day (categories 200)) boot = Ok (rs, w) /\
     rs = repeat CONSUMPTION_SUCCESS 200 /\
     trace w = [IoLog 2 "Consumption module initialized"]) /\
  (exists a w' text,
     aggregate_events 1000000000 1000005000 crowded_world = Ok (a, crowded_world) /\
     strlen (payload_text a) = 1024 /\
     consumption_force_sync crowded_day crowded_world = Ok (CONSUMPTION_SUCCESS, w') /\
     payloads_sent (trace w') = [(text, 1024)] /\
     (text ++ "}")%string = payload_text a /\
     last_aggregation (g_state w') = 1000005000).
Proof.
  split; [vm_compute; reflexivity|]. split.
  - eexists _, _. split; [vm_compute; reflexivity|]. split; reflexivity.
  - eexists _, _, _. split; [vm_compute; reflexivity|].
    split; [vm_compute; reflexivity|]. split; [vm_compute; reflexivity|].
    split; [vm_compute; reflexivity|]. split; vm_compute; reflexivity.
Qed.

(* ====================================================================== *)
(** ** Initialization that fails after a restore *)

(** The record in storage is the one the earlier session wrote, and its
    [initialized] flag is set: [consumption_deinit] saves before it clears
    the flag. *)
Lemma first_session_persists :
  exists w, first_session boot = Ok (CONSUMPTION_SUCCESS, w) /\
            persisted (trace w) = Some saved_blob.
Proof. eexists. split; vm_compute; reflexivity. Qed.

(** C8 (the code at its failing input). At the next power-up the storage
    read restores that record and [malloc] fails: [consumption_init]
    returns [CONSUMPTION_ERROR_MEMORY_ERROR], yet the restored flag says
    initialized, so [consumption_get_stats] and [consumption_force_sync]
    return [CONSUMPTION_SUCCESS] and [consumption_on_dispense] writes
    through the null [event_buffer]. *)
Theorem failed_init_leaves_initialized :
  exists w,
    consumption_init second_boot_no_heap (Some shop_config) boot
    = Ok (CONSUMPTION_ERROR_MEMORY_ERROR, w) /\
    initialized (g_state w) = true /\
    consumption_get_stats true true true w
    = Ok ((CONSUMPTION_SUCCESS, (Some 1, Some 1, Some 0)), w) /\
    consumption_force_sync second_boot_no_heap w = Ok (CONSUMPTION_SUCCESS, w) /\
    consumption_on_dispense second_boot_no_heap 11111 2 w = Fault NullDereference.
Proof.
  eexists. split; [vm_compute; reflexivity|].
  split; [reflexivity|]. split; [reflexivity|]. split; reflexivity.
Qed.

(* ====================================================================== *)
(** ** Start-up *)

Lemma passes_check_not_rejected cfg :
  passes_check cfg ->
  match cfg with Some _ => negb (validate_config cfg) | None => false end = false.
Proof. destruct cfg as [c|]; simpl; [intros ->|]; reflexivity. Qed.

Lemma omap_lookup_in {A} (buf : list A) (f : nat -> nat) l e :
  In e (omap (fun i => buf !! f i) l) -> In e buf.
Proof.
  induction l as [|i l IH]; cbn; [tauto|].
  destruct (buf !! f i) as [x|] eqn:Hx; [|exact IH].
  intros [<-|H]; [|exact (IH H)].
  apply list_elem_of_In. eapply list_elem_of_lookup_2. exact Hx.
Qed.

Lemma buffered_in_block g buf :
  event_buffer g = Some buf -> forall e, In e (buffered g) -> In e buf.
Proof.
  intros Hb e. unfold buffered. rewrite Hb.
  apply (omap_lookup_in buf (fun i => Z.to_nat (slot g i))).
Qed.

(** X1. With nothing to restore (the storage read fails) and memory to
    allocate, [consumption_init] with a null or valid configuration
    succeeds: the active configuration is the supplied one, or the
    defaults for a null pointer; the ring is well formed and empty; the
    lifetime total and [last_sync] are 0; [last_aggregation] is the reading
    of the clock; the scheduler is idle; the network is not called and
    exactly one line is logged. *)
Theorem init_fresh_start pf cfg fill w0 :
  initialized (g_state w0) = false ->
  storage pf (storage_reads w0) = None ->
  heap pf (allocations w0) = Some fill ->
  acceptable cfg ->
  exists w,
    consumption_init pf cfg w0 = Ok (CONSUMPTION_SUCCESS, w) /\
    initialized (g_state w) = true /\
    config (g_state w) = chosen_config cfg /\
    ring_ok (g_state w) /\
    buffered (g_state w) = [] /\
    buffer_count (g_state w) = 0 /\
    total_events (g_state w) = 0 /\
    last_sync (g_state w) = 0 /\
    last_aggregation (g_state w) = reading pf w0 /\
    sync_in_progress (g_state w) = false /\
    network_sends w = network_sends w0 /\
    trace w = trace w0 ++ [IoLog 2 "Consumption module initialized"].
Proof.
  intros Hi Hs Hh Ha. exists (fresh_world pf cfg fill w0).
  split; [apply fresh_init; assumption|].
  destruct (fresh_state_ring pf cfg fill w0 Ha) as (Hok & Hb & Ht).
  split; [reflexivity|]. split; [reflexivity|]. split; [exact Hok|].
  split; [exact Hb|]. repeat split; reflexivity.
Qed.

Lemma init_fresh_start_witness :
  exists w,
    consumption_init first_boot None boot = Ok (CONSUMPTION_SUCCESS, w) /\
    initialized (g_state w) = true /\
    config (g_state w) = chosen_config None /\
    ring_ok (g_state w) /\
    buffered (g_state w) = [] /\
    buffer_count (g_state w) = 0 /\
    total_events (g_state w) = 0 /\
    last_sync (g_state w) = 0 /\
    last_aggregation (g_state w) = reading first_boot boot /\
    sync_in_progress (g_state w) = false /\
    network_sends w = network_sends boot /\
    trace w = trace boot ++ [IoLog 2 "Consumption module initialized"].
Proof.
  apply (init_fresh_start first_boot None zero_fill boot).
  - reflexivity.
  - reflexivity.
  - reflexivity.
  - simpl. exact I.
Defined.

(** When the storage read succeeds, [consumption_init] builds
    [restored_world]. *)
Lemma init_restores pf cfg blob fill w0 :
  initialized (g_state w0) = false ->
  passes_check cfg ->
  storage pf (storage_reads w0) = Some blob ->
  heap pf (allocations w0) = Some fill ->
  consumption_init pf cfg w0 = Ok (CONSUMPTION_SUCCESS, restored_world blob fill w0).
Proof.
  intros Hi Ha Hs Hh.
  unfold consumption_init, bind, get, modify, ret, load_state,
    consumption_platform_storage_read, consumption_platform_get_timestamp,
    malloc, consumption_platform_log, output.
  rewrite Hi. cbn [negb]. rewrite (passes_check_not_rejected cfg Ha).
  simpl. rewrite Hs. simpl. rewrite Hh. simpl.
  reflexivity.
Qed.

Lemma restored_events blob fill e :
  In e (buffered (restored_state blob fill)) -> exists i, e = fill i.
Proof.
  intros He.
  apply (buffered_in_block _
           (map fill (seq 0 (Z.to_nat (ring_buffer_size (config blob)))))) in He;
    [|reflexivity].
  apply in_map_iff in He. destruct He as (i & <- & _). exists i. reflexivity.
Qed.

(** X2. When the storage read succeeds, [consumption_init] takes every
    field of the module state from the stored record: the configuration
    passed to the call is checked but then replaced by the stored one, and
    the lifetime total, the buffered count and both sync marks are the
    stored ones. Only the block is new, so each event the restored count
    designates is whatever [malloc] left in its cell. The clock is not
    read and one line is logged. *)
Theorem init_restores_persisted_state pf cfg blob fill w0 :
  initialized (g_state w0) = false ->
  passes_check cfg ->
  storage pf (storage_reads w0) = Some blob ->
  heap pf (allocations w0) = Some fill ->
  exists w,
    consumption_init pf cfg w0 = Ok (CONSUMPTION_SUCCESS, w) /\
    g_state w = restored_state blob fill /\
    config (g_state w) = config blob /\
    total_events (g_state w) = total_events blob /\
    buffer_count (g_state w) = buffer_count blob /\
    last_sync (g_state w) = last_sync blob /\
    last_aggregation (g_state w) = last_aggregation blob /\
    (forall e, In e (buffered (g_state w)) -> exists i, e = fill i) /\
    clock_reads w = clock_reads w0 /\
    trace w = trace w0 ++ [IoLog 2 "Consumption module initialized"].
Proof.
  intros Hi Ha Hs Hh. exists (restored_world blob fill w0).
  split; [apply init_restores; assumption|].
  split; [reflexivity|]. split; [reflexivity|]. split; [reflexivity|].
  split; [reflexivity|]. split; [reflexivity|]. split; [reflexivity|].
  split; [|split; reflexivity].
  intros e. apply restored_events.
Qed.

Lemma init_restores_persisted_state_witness :
  exists w,
    consumption_init second_boot (Some other_machine) boot
    = Ok (CONSUMPTION_SUCCESS, w) /\
    g_state w = restored_state saved_blob zero_fill /\
    config (g_state w) = config saved_blob /\
    total_events (g_state w) = total_events saved_blob /\
    buffer_count (g_state w) = buffer_count saved_blob /\
    last_sync (g_state w) = last_sync saved_blob /\
    last_aggregation (g_state w) = last_aggregation saved_blob /\
    (forall e, In e (buffered (g_state w)) -> exists i, e = zero_fill i) /\
    clock_reads w = clock_reads boot /\
    trace w = trace boot ++ [IoLog 2 "Consumption module initialized"].
Proof.
  apply (init_restores_persisted_state second_boot (Some other_machine)
           saved_blob zero_fill boot).
  - reflexivity.
  - reflexivity.
  - reflexivity.
  - reflexivity.
Defined.

(** X3. With nothing to restore and no memory, [consumption_init] returns
    [CONSUMPTION_ERROR_MEMORY_ERROR], logs nothing and leaves the module
    uninitialized with a null buffer pointer: a record-event call that
    follows is refused with [CONSUMPTION_ERROR_INVALID_CONFIG] and changes
    nothing. *)
Theorem init_without_memory pf pf' cfg w0 mid pid :
  initialized (g_state w0) = false ->
  passes_check cfg ->
  storage pf (storage_reads w0) = None ->
  heap pf (allocations w0) = None ->
  exists w,
    consumption_init pf cfg w0 = Ok (CONSUMPTION_ERROR_MEMORY_ERROR, w) /\
    initialized (g_state w) = false /\
    event_buffer (g_state w) = None /\
    trace w = trace w0 /\
    consumption_on_dispense pf' mid pid w = Ok (CONSUMPTION_ERROR_INVALID_CONFIG, w).
Proof.
  intros Hi Ha Hs Hh.
  unfold consumption_init, bind, get, modify, ret, load_state,
    consumption_platform_storage_read, consumption_platform_get_timestamp,
    malloc, consumption_platform_log, output.
  rewrite Hi. cbn [negb]. rewrite (passes_check_not_rejected cfg Ha).
  simpl. rewrite Hs. simpl. rewrite Hh. simpl.
  eexists. split; [reflexivity|]. simpl.
  split; [reflexivity|]. split; [reflexivity|]. split; [reflexivity|].
  apply on_dispense_uninitialized. reflexivity.
Qed.

Lemma init_without_memory_witness :
  exists w,
    consumption_init no_heap_boot (Some shop_config) boot
    = Ok (CONSUMPTION_ERROR_MEMORY_ERROR, w) /\
    initialized (g_state w) = false /\
    event_buffer (g_state w) = None /\
    trace w = trace boot /\
    consumption_on_dispense first_boot 11111 1 w
    = Ok (CONSUMPTION_ERROR_INVALID_CONFIG, w).
Proof.
  apply (init_without_memory no_heap_boot first_boot (Some shop_config) boot 11111 1).
  - reflexivity.
  - reflexivity.
  - reflexivity.
  - reflexivity.
Defined.

(** X4. [validate_config] rejects a configuration exactly when its machine
    identifier is 0, its capacity is 0, or its capacity exceeds 10000; no
    other field is looked at. [consumption_init] on an uninitialized
    module answers a rejected configuration with
    [CONSUMPTION_ERROR_INVALID_CONFIG] before it touches the state or the
    platform. *)
Theorem init_validates_config pf c w :
  (validate_config (Some c) = false <->
   machine_id c = 0 \/ ring_buffer_size c = 0 \/ ring_buffer_size c > 10000) /\
  (initialized (g_state w) = false ->
   validate_config (Some c) = false ->
   consumption_init pf (Some c) w = Ok (CONSUMPTION_ERROR_INVALID_CONFIG, w)).
Proof.
  split; [|apply init_rejects_invalid_config].
  unfold validate_config.
  destruct (Z.eqb_spec (machine_id c) 0) as [Hm|Hm]; [tauto|].
  destruct (Z.eqb_spec (ring_buffer_size c) 0) as [Hz|Hz]; [tauto|].
  rewrite Z.gtb_ltb.
  destruct (Z.ltb_spec 10000 (ring_buffer_size c)) as [Hb|Hb].
  - split; [intros _; right; right; lia|reflexivity].
  - split; [discriminate|]. intros [H|[H|H]]; [contradiction|contradiction|lia].
Qed.

Lemma init_validates_config_witness :
  consumption_init first_boot (Some no_machine_bigger) boot
  = Ok (CONSUMPTION_ERROR_INVALID_CONFIG, boot).
Proof.
  apply (proj2 (init_validates_config first_boot no_machine_bigger boot)).
  - reflexivity.
  - reflexivity.
Defined.

(* ====================================================================== *)
(** ** Shutdown *)

Lemma persisted_after_write t b level message :
  persisted ((t ++ [IoStorageWrite b]) ++ [IoLog level message]) = Some b.
Proof. unfold persisted. rewrite !fold_left_app. reflexivity. Qed.

(** What [consumption_deinit] leaves on an initialized module, whatever
    its final sync did. *)
Lemma deinit_outcome pf w r w' :
  initialized (g_state w) = true ->
  consumption_deinit pf w = Ok (r, w') ->
  r = CONSUMPTION_SUCCESS /\
  initialized (g_state w') = false /\
  event_buffer (g_state w') = None /\
  config (g_state w') = config (g_state w) /\
  total_events (g_state w') = total_events (g_state w) /\
  exists blob,
    persisted (trace w') = Some blob /\
    same_store (g_state w) blob /\
    initialized blob = true /\
    last_sync blob = last_sync (g_state w') /\
    last_aggregation blob = last_aggregation (g_state w').
Proof.
  intros Hi. unfold consumption_deinit, bind at 1, get. rewrite Hi.
  cbn [negb]. unfold bind at 1.
  assert (Hrest : forall w1,
    same_store (g_state w) (g_state w1) ->
    (save_state ;;; modify (set_event_buffer None) ;;;
     modify (set_initialized false) ;;;
     consumption_platform_log 2 "Consumption module deinitialized" ;;;
     ret CONSUMPTION_SUCCESS) w1 = Ok (r, w') ->
    r = CONSUMPTION_SUCCESS /\
    initialized (g_state w') = false /\
    event_buffer (g_state w') = None /\
    config (g_state w') = config (g_state w) /\
    total_events (g_state w') = total_events (g_state w) /\
    exists blob,
      persisted (trace w') = Some blob /\
      same_store (g_state w) blob /\
      initialized blob = true /\
      last_sync blob = last_sync (g_state w') /\
      last_aggregation blob = last_aggregation (g_state w')).
  { intros w1 Hss. unfold bind, get, ret, modify, save_state,
      consumption_platform_storage_write, consumption_platform_log, output.
    simpl. intros H. injection H as <- <-. simpl.
    pose proof Hss as (Hi1 & Hc1 & Ht1 & _).
    split; [reflexivity|]. split; [reflexivity|]. split; [reflexivity|].
    split; [exact Hc1|]. split; [exact Ht1|].
    exists (g_state w1). rewrite persisted_after_write.
    split; [reflexivity|]. split; [exact Hss|].
    split; [rewrite Hi1; exact Hi|]. split; reflexivity. }
  destruct (enable_external_api (config (g_state w))).
  - unfold bind at 1.
    destruct (sync_to_api pf w) as [[r1 w1]|] eqn:Hsync; [|discriminate].
    apply sync_to_api_frame in Hsync. destruct Hsync as [Hss _].
    unfold ret at 1. apply Hrest. exact Hss.
  - unfold ret at 1. apply Hrest. unfold same_store. tauto.
Qed.

Lemma restored_ring g blob fill :
  ring_ok g -> same_store g blob -> ring_ok (restored_state blob fill).
Proof.
  intros ((buf & Hb & Hlen) & Hcap & Htail & Hcount & Hhead)
         (_ & Hc & _ & Hh & Ht & Hn & _).
  unfold ring_ok, capacity, restored_state, fresh_block in *. simpl.
  rewrite Hc, Hh, Ht, Hn.
  split; [|split; [exact Hcap|split; [exact Htail|split; [exact Hcount|exact Hhead]]]].
  eexists. split; [reflexivity|]. rewrite length_map, length_seq. lia.
Qed.

(** X6. Shutdown followed by a power-up that reads back what the shutdown
    wrote: [consumption_init] succeeds whatever (admissible) configuration
    it is given, and the running module has the configuration, lifetime
    total, ring indices, buffered count and sync marks the module had when
    it was shut down, on a well-formed ring. The events are not part of
    what was written: every event the restored count designates is a cell
    of the new block as [malloc] returned it. *)
Theorem shutdown_restart_round_trip pf pf' cfg fill w r w1 :
  initialized (g_state w) = true ->
  ring_ok (g_state w) ->
  consumption_deinit pf w = Ok (r, w1) ->
  storage pf' (storage_reads w1) = persisted (trace w1) ->
  heap pf' (allocations w1) = Some fill ->
  passes_check cfg ->
  exists w2,
    consumption_init pf' cfg w1 = Ok (CONSUMPTION_SUCCESS, w2) /\
    initialized (g_state w2) = true /\
    ring_ok (g_state w2) /\
    same_counters (g_state w) (g_state w2) /\
    last_sync (g_state w2) = last_sync (g_state w1) /\
    last_aggregation (g_state w2) = last_aggregation (g_state w1) /\
    Z.of_nat (length (buffered (g_state w2))) = buffer_count (g_state w) /\
    (forall e, In e (buffered (g_state w2)) -> exists i, e = fill i).
Proof.
  intros Hi Hok Hd Hs Hh Ha.
  destruct (deinit_outcome pf w r w1 Hi Hd)
    as (_ & Hi1 & _ & _ & _ & blob & Hp & Hss & _ & Hls & Hla).
  rewrite Hp in Hs.
  exists (restored_world blob fill w1).
  split; [apply init_restores; assumption|].
  pose proof (restored_ring _ _ fill Hok Hss) as Hok2.
  pose proof Hss as (_ & Hc & Ht & Hh' & Htl & Hn & _).
  split; [reflexivity|]. split; [exact Hok2|].
  split; [unfold same_counters; simpl; tauto|].
  split; [exact Hls|]. split; [exact Hla|].
  split.
  - cbn [g_state restored_world]. rewrite (buffered_length _ Hok2).
    simpl. exact Hn.
  - intros e. apply restored_events.
Qed.

Lemma shutdown_restart_round_trip_witness :
  exists w2,
    consumption_init next_boot (Some other_machine) closed_shop
    = Ok (CONSUMPTION_SUCCESS, w2) /\
    initialized (g_state w2) = true /\
    ring_ok (g_state w2) /\
    same_counters (g_state open_shop) (g_state w2) /\
    last_sync (g_state w2) = last_sync (g_state closed_shop) /\
    last_aggregation (g_state w2) = last_aggregation (g_state closed_shop) /\
    Z.of_nat (length (buffered (g_state w2))) = buffer_count (g_state open_shop) /\
    (forall e, In e (buffered (g_state w2)) -> exists i, e = stale_fill i).
Proof.
  apply (shutdown_restart_round_trip first_boot next_boot (Some other_machine)
           stale_fill open_shop CONSUMPTION_SUCCESS closed_shop).
  - reflexivity.
  - ring_ok_by_evaluation.
  - vm_compute. reflexivity.
  - reflexivity.
  - reflexivity.
  - reflexivity.
Defined.

(* ====================================================================== *)
(** ** The store as a queue of the latest events *)

Lemma keep_last_short {A} cap (l : list A) :
  Z.of_nat (length l) <= cap -> keep_last cap l = l.
Proof.
  intros H. unfold keep_last.
  replace (length l - Z.to_nat cap)%nat with 0%nat by lia. reflexivity.
Qed.

Lemma keep_last_length {A} cap (l : list A) :
  0 <= cap ->
  Z.of_nat (length (keep_last cap l)) = Z.min (Z.of_nat (length l)) cap.
Proof. intros H. unfold keep_last. rewrite length_drop. lia. Qed.

Lemma appended_keep_last cap l e :
  0 < cap -> Z.of_nat (length l) <= cap ->
  appended cap l e = keep_last cap (l ++ [e]).
Proof.
  intros Hcap Hlen. unfold appended, keep_last. rewrite Z.geb_leb.
  rewrite length_app. simpl length.
  destruct (Z.leb_spec cap (Z.of_nat (length l))) as [Hfull|Hroom].
  - replace (length l + 1 - Z.to_nat cap)%nat with 1%nat by lia.
    destruct l as [|x l]; [simpl in *; lia|]. reflexivity.
  - replace (length l + 1 - Z.to_nat cap)%nat with 0%nat by lia. reflexivity.
Qed.

Lemma keep_last_app {A} cap (l l2 : list A) :
  keep_last cap (keep_last cap l ++ l2) = keep_last cap (l ++ l2).
Proof.
  unfold keep_last. rewrite !length_app, length_drop.
  destruct (Nat.le_gt_cases (length l) (Z.to_nat cap)) as [Hle|Hgt].
  - replace (length l - Z.to_nat cap)%nat with 0%nat by lia.
    rewrite Nat.sub_0_r. reflexivity.
  - set (k := (length l - Z.to_nat cap)%nat).
    replace (length l - k + length l2 - Z.to_nat cap)%nat with (length l2) by lia.
    replace (length l + length l2 - Z.to_nat cap)%nat with (k + length l2)%nat by lia.
    rewrite <- drop_drop. rewrite (drop_app_le l l2 k) by lia. reflexivity.
Qed.

Lemma keep_last_map {A B} (f : A -> B) cap (l : list A) :
  map f (keep_last cap l) = keep_last cap (map f l).
Proof. unfold keep_last. rewrite length_map. apply fmap_drop. Qed.

(** One call on an initialized instance with a well-formed ring. *)
Lemma on_dispense_store pf w mid pid r w' :
  initialized (g_state w) = true ->
  ring_ok (g_state w) ->
  consumption_on_dispense pf mid pid w = Ok (r, w') ->
  let machine := machine_id (config (g_state w)) in
  let cap := capacity (g_state w) in
  r = answer machine (mid, pid) /\
  initialized (g_state w') = true /\
  ring_ok (g_state w') /\
  config (g_state w') = config (g_state w) /\
  map identity (buffered (g_state w'))
  = keep_last cap (map identity (buffered (g_state w))
                   ++ (if accepts machine (mid, pid) then [(mid, pid)] else [])).
Proof.
  intros Hi Hok H machine cap. subst machine cap.
  pose proof (buffered_length _ Hok) as Hlen.
  pose proof Hok as (_ & Hcap & _ & Hcount & _).
  unfold answer, accepts. cbn [fst snd].
  destruct (Z.eqb_spec mid (machine_id (config (g_state w)))) as [Hm|Hm].
  - destruct (Z.eqb_spec pid 0) as [Hp|Hp]; cbn [andb negb].
    + subst pid. rewrite on_dispense_zero_category in H by exact Hi.
      injection H as <- <-. rewrite app_nil_r, keep_last_short; auto.
      rewrite length_map. lia.
    + destruct (on_dispense_accepts _ _ _ _ _ _ Hi Hok Hm Hp H)
        as (-> & Hok' & Hb & _ & _ & Hc & Hi' & _).
      rewrite Hb, appended_keep_last by lia.
      rewrite keep_last_map, map_app. auto.
  - cbn [andb]. rewrite on_dispense_wrong_machine in H by assumption.
    injection H as <- <-. rewrite app_nil_r, keep_last_short; auto.
    rewrite length_map. lia.
Qed.

Lemma run_calls_store pf calls : forall w rs w',
  initialized (g_state w) = true ->
  ring_ok (g_state w) ->
  run_calls pf calls w = Ok (rs, w') ->
  let machine := machine_id (config (g_state w)) in
  let cap := capacity (g_state w) in
  rs = map (answer machine) calls /\
  initialized (g_state w') = true /\
  ring_ok (g_state w') /\
  config (g_state w') = config (g_state w) /\
  map identity (buffered (g_state w'))
  = keep_last cap (map identity (buffered (g_state w))
                   ++ List.filter (accepts machine) calls).
Proof.
  induction calls as [|[mid pid] rest IH]; intros w rs w' Hi Hok H machine cap.
  - injection H as <- <-. subst machine cap. simpl.
    pose proof (buffered_length _ Hok) as Hlen.
    pose proof Hok as (_ & _ & _ & Hcount & _).
    rewrite app_nil_r, keep_last_short; auto. rewrite length_map. lia.
  - simpl in H. apply bind_ok in H. destruct H as (r & w1 & Hd & H).
    apply bind_ok in H. destruct H as (rs1 & w2 & Hr & H).
    injection H as <- <-.
    destruct (on_dispense_store _ _ _ _ _ _ Hi Hok Hd) as (-> & Hi1 & Hok1 & Hc1 & Hb1).
    destruct (IH _ _ _ Hi1 Hok1 Hr) as (-> & Hi2 & Hok2 & Hc2 & Hb2).
    subst machine cap. unfold capacity in *. rewrite Hc1 in *.
    split; [reflexivity|]. split; [exact Hi2|]. split; [exact Hok2|].
    split; [exact Hc2|].
    rewrite Hb2, Hb1, keep_last_app. simpl List.filter.
    destruct (accepts _ (mid, pid)); [|rewrite app_nil_r; reflexivity].
    rewrite <- app_assoc. reflexivity.
Qed.

Lemma successes_answers machine calls :
  successes (map (answer machine) calls)
  = Z.of_nat (length (List.filter (accepts machine) calls)).
Proof.
  unfold successes. f_equal.
  induction calls as [|c calls IH]; [reflexivity|].
  simpl. unfold answer at 1. destruct (accepts machine c); simpl; rewrite IH;
    reflexivity.
Qed.

(** X7. On an initialized instance with a well-formed ring, every sequence
    of record-event calls that runs to its end answers each call by its
    arguments alone ([CONSUMPTION_SUCCESS] when the machine identifier is
    the active one and the category is not 0,
    [CONSUMPTION_ERROR_INVALID_PARAMETER] otherwise), and after it the
    store holds, from the oldest to the newest, the machine identifier and
    category of the last [capacity] events among those buffered before
    followed by the accepted calls in call order. *)
Theorem ring_keeps_latest pf calls w rs w' :
  initialized (g_state w) = true ->
  ring_ok (g_state w) ->
  run_calls pf calls w = Ok (rs, w') ->
  rs = map (answer (machine_id (config (g_state w)))) calls /\
  map identity (buffered (g_state w'))
  = keep_last (capacity (g_state w))
      (map identity (buffered (g_state w))
       ++ List.filter (accepts (machine_id (config (g_state w)))) calls).
Proof.
  intros Hi Hok H.
  destruct (run_calls_store pf calls w rs w' Hi Hok H) as (Hrs & _ & _ & _ & Hb).
  split; [exact Hrs|exact Hb].
Qed.

Lemma ring_keeps_latest_witness :
  exists rs w',
    run_calls first_boot seven_calls shop_world = Ok (rs, w') /\
    rs = map (answer 11111) seven_calls /\
    map identity (buffered (g_state w')) = [(11111, 4); (11111, 6); (11111, 7)].
Proof.
  destruct (run_calls_defined_when_disabled first_boot seven_calls shop_world)
    as (rs & w' & Hrun).
  - ring_ok_by_evaluation.
  - reflexivity.
  - exists rs, w'. split; [exact Hrun|].
    apply (ring_keeps_latest first_boot seven_calls shop_world rs w').
    + reflexivity.
    + ring_ok_by_evaluation.
    + exact Hrun.
Defined.

(** X8. After such a sequence [consumption_get_stats] returns
    [CONSUMPTION_SUCCESS] and changes nothing; with [n] the number of
    accepted calls it reports the lifetime total increased by [n] modulo
    [2^32], a buffered count increased by [n] up to the capacity, where it
    stays, and the current [last_sync]; a null out-pointer is skipped. *)
Theorem stats_after_calls pf calls w rs w' :
  initialized (g_state w) = true ->
  ring_ok (g_state w) ->
  u32 (total_events (g_state w)) ->
  run_calls pf calls w = Ok (rs, w') ->
  let n := Z.of_nat (length (List.filter
             (accepts (machine_id (config (g_state w)))) calls)) in
  forall want_total want_buffered want_last_sync,
    consumption_get_stats want_total want_buffered want_last_sync w'
    = Ok ((CONSUMPTION_SUCCESS,
           (if want_total
            then Some (wrap32 (total_events (g_state w) + n)) else None,
            if want_buffered
            then Some (Z.min (buffer_count (g_state w) + n) (capacity (g_state w)))
            else None,
            if want_last_sync then Some (last_sync (g_state w')) else None)),
          w').
Proof.
  intros Hi Hok Hu H n a b c. subst n.
  destruct (run_calls_store pf calls w rs w' Hi Hok H)
    as (Hrs & Hi' & Hok' & _ & Hb).
  destruct (run_calls_counters pf calls w rs w' Hok Hu H) as (_ & _ & _ & Ht & _).
  pose proof Hok as (_ & Hcap & _ & _).
  assert (Hn : buffer_count (g_state w')
               = Z.min (buffer_count (g_state w)
                        + Z.of_nat (length (List.filter
                            (accepts (machine_id (config (g_state w)))) calls)))
                   (capacity (g_state w))).
  { rewrite <- (buffered_length _ Hok'), <- (buffered_length _ Hok).
    rewrite <- (length_map identity (buffered (g_state w'))), Hb.
    rewrite keep_last_length by lia. rewrite length_app, length_map. lia. }
  unfold consumption_get_stats, bind, get, ret. rewrite Hi'. cbn [negb].
  rewrite Ht, Hn, Hrs, successes_answers. reflexivity.
Qed.

Lemma stats_after_calls_witness :
  exists rs w',
    run_calls first_boot seven_calls shop_world = Ok (rs, w') /\
    consumption_get_stats true true false w'
    = Ok ((CONSUMPTION_SUCCESS, (Some 5, Some 3, None)), w').
Proof.
  destruct (run_calls_defined_when_disabled first_boot seven_calls shop_world)
    as (rs & w' & Hrun).
  - ring_ok_by_evaluation.
  - reflexivity.
  - exists rs, w'. split; [exact Hrun|].
    apply (stats_after_calls first_boot seven_calls shop_world rs w').
    + reflexivity.
    + ring_ok_by_evaluation.
    + unfold u32. simpl. lia.
    + exact Hrun.
Defined.

(* ====================================================================== *)
(** ** What a sync reports *)

Lemma report_facts pf w :
  ring_ok (g_state w) ->
  agg_machine_id (report pf w) = machine_id (config (g_state w)) /\
  period_start (report pf w) = last_aggregation (g_state w) /\
  period_end (report pf w) = reading pf w /\
  agg_total_events (report pf w)
  = window_total (last_aggregation (g_state w)) (reading pf w)
      (buffered (g_state w)) /\
  length (product_counts (report pf w)) = 256%nat /\
  forall c, 1 <= c <= 255 ->
    nth (Z.to_nat c) (product_counts (report pf w)) 0
    = window_category (last_aggregation (g_state w)) (reading pf w) c
        (buffered (g_state w)).
Proof.
  intros Hok. pose proof (buffered_length _ Hok) as Hbl.
  pose proof Hok as (_ & Hcap & _ & Hcount & _).
  unfold report. set (a0 := mk_aggregate _ _ _ _ _).
  destruct (count_all_meta (last_aggregation (g_state w)) (reading pf w)
              (buffered (g_state w)) a0) as (H1 & H2 & H3 & H4).
  split; [rewrite H1; reflexivity|]. split; [rewrite H2; reflexivity|].
  split; [rewrite H3; reflexivity|]. split.
  - rewrite count_all_total; subst a0; cbn [agg_total_events]; lia.
  - split; [rewrite H4; subst a0; cbn [product_counts]; apply repeat_length|].
    intros c Hc.
    rewrite count_all_category; try assumption.
    + subst a0. cbn [product_counts]. rewrite nth_repeat. lia.
    + subst a0. cbn [product_counts]. apply repeat_length.
    + subst a0. cbn [product_counts]. rewrite nth_repeat. lia.
    + subst a0. cbn [product_counts]. rewrite nth_repeat. lia.
Qed.

(** A sync that reaches the sink, step by step. *)
Lemma sync_to_api_reports pf w json :
  enable_external_api (config (g_state w)) = true ->
  sync_in_progress (g_state w) = false ->
  ring_ok (g_state w) ->
  aggregation_interval (config (g_state w))
  <= wrap32 (reading pf w - last_aggregation (g_state w)) ->
  window_total (last_aggregation (g_state w)) (reading pf w)
    (buffered (g_state w)) <> 0 ->
  json_payload (report pf w) = Ok json ->
  let sent := IoNetworkSend (api_endpoint (config (g_state w))) (text json) (len json) in
  exists w',
    sync_to_api pf w
    = Ok (if network pf (network_sends w) then CONSUMPTION_SUCCESS
          else CONSUMPTION_ERROR_API_ERROR, w') /\
    same_store (g_state w) (g_state w') /\
    sync_in_progress (g_state w') = false /\
    clock_reads w' = S (clock_reads w) /\
    network_sends w' = S (network_sends w) /\
    if network pf (network_sends w) then
      marks (g_state w') = (reading pf w, reading pf w) /\
      trace w' = trace w ++ [sent; IoStorageWrite (g_state w');
                             IoLog 2 "Consumption data synced successfully"]
    else
      g_state w' = g_state w /\
      trace w' = trace w ++ [sent; IoLog 0 "Failed to sync consumption data"].
Proof.
  intros Hen Hsp Hok Hgate Htot Hjson sent. subst sent.
  destruct (report_facts pf w Hok) as (_ & _ & _ & Hrt & _).
  unfold sync_to_api, bind at 1, get. rewrite Hen, Hsp. cbn [negb].
  unfold bind at 1, modify. unfold bind at 1, consumption_platform_get_timestamp.
  unfold bind at 1, get. cbn [g_state with_g clock_reads last_aggregation
    set_sync_in_progress config]. fold (reading pf w).
  rewrite (proj2 (Z.ltb_ge _ _) Hgate).
  match goal with
  | |- context [bind (aggregate_events ?s ?e) ?k ?W] =>
      rewrite (bind_eq (aggregate_events s e) k W _ W
                 (aggregate_events_runs W s e Hok))
  end.
  change (count_all _ _ _ _) with (report pf w).
  rewrite Hrt. rewrite (proj2 (Z.eqb_neq _ _) Htot).
  unfold bind at 1, lift. rewrite Hjson.
  unfold bind, get, modify, ret, save_state, consumption_platform_storage_write,
    consumption_platform_log, output, consumption_platform_network_send, emit, with_g.
  cbn [g_state clock_reads storage_reads network_sends allocations trace config
       api_endpoint set_sync_in_progress].
  destruct (network pf (network_sends w)).
  - eexists. split; [reflexivity|].
    cbn [g_state clock_reads network_sends trace].
    split; [unfold same_store; simpl; tauto|].
    split; [reflexivity|]. split; [reflexivity|]. split; [reflexivity|].
    split; [reflexivity|]. rewrite <- !app_assoc. reflexivity.
  - eexists. split; [reflexivity|].
    cbn [g_state clock_reads network_sends trace].
    split; [unfold same_store; simpl; tauto|].
    split; [reflexivity|]. split; [reflexivity|]. split; [reflexivity|].
    split; [|rewrite <- !app_assoc; reflexivity].
    destruct (g_state w); simpl in *; subst; reflexivity.
Qed.

(** Every way a sync can end. *)
Lemma sync_to_api_cases pf w r w' :
  sync_to_api pf w = Ok (r, w') ->
  same_store (g_state w) (g_state w') /\
  sync_in_progress (g_state w') = sync_in_progress (g_state w) /\
  storage_reads w' = storage_reads w /\
  allocations w' = allocations w /\
  ((r = CONSUMPTION_SUCCESS /\ g_state w' = g_state w /\
    trace w' = trace w /\ network_sends w' = network_sends w) \/
   (r = CONSUMPTION_ERROR_API_ERROR /\ w' = w /\
    enable_external_api (config (g_state w)) = true /\
    sync_in_progress (g_state w) = true) \/
   (r = CONSUMPTION_ERROR_API_ERROR /\ g_state w' = g_state w /\
    network pf (network_sends w) = false /\
    network_sends w' = S (network_sends w) /\
    exists data n,
      trace w' = trace w ++ [IoNetworkSend (api_endpoint (config (g_state w))) data n;
                             IoLog 0 "Failed to sync consumption data"]) \/
   (r = CONSUMPTION_SUCCESS /\
    marks (g_state w') = (reading pf w, reading pf w) /\
    network pf (network_sends w) = true /\
    network_sends w' = S (network_sends w) /\
    exists data n,
      trace w' = trace w ++ [IoNetworkSend (api_endpoint (config (g_state w))) data n;
                             IoStorageWrite (g_state w');
                             IoLog 2 "Consumption data synced successfully"])).
Proof.
  unfold sync_to_api, bind at 1, get.
  destruct (enable_external_api (config (g_state w))) eqn:Hen; cbn [negb].
  2: { intros H. injection H as <- <-. unfold same_store. tauto. }
  destruct (sync_in_progress (g_state w)) eqn:Hsp.
  { intros H. injection H as <- <-. unfold same_store. rewrite Hsp. tauto. }
  unfold bind at 1, modify. unfold bind at 1, consumption_platform_get_timestamp.
  unfold bind at 1, get.
  cbn [g_state with_g clock_reads last_aggregation set_sync_in_progress config].
  fold (reading pf w).
  destruct (_ <? _).
  { unfold bind, modify, ret, with_g. cbn [g_state clock_reads storage_reads
      network_sends allocations trace].
    rewrite sync_flag_round_trip by exact Hsp.
    intros H. injection H as <- <-. cbn [g_state clock_reads storage_reads
      network_sends allocations trace]. unfold same_store. rewrite Hsp. tauto. }
  unfold bind at 1.
  destruct (aggregate_events _ _ _) as [[a w1]|] eqn:Ha; [|discriminate].
  apply aggregate_events_pure in Ha. subst w1.
  destruct (_ =? 0).
  { unfold bind, modify, ret, with_g. cbn [g_state clock_reads storage_reads
      network_sends allocations trace].
    rewrite sync_flag_round_trip by exact Hsp.
    intros H. injection H as <- <-. cbn [g_state clock_reads storage_reads
      network_sends allocations trace]. unfold same_store. rewrite Hsp. tauto. }
  unfold bind at 1, lift. destruct (json_payload a) as [j|]; [|discriminate].
  unfold bind, get, modify, ret, save_state, consumption_platform_storage_write,
    consumption_platform_log, output, consumption_platform_network_send, emit, with_g.
  cbn [g_state clock_reads storage_reads network_sends allocations trace config
       api_endpoint set_sync_in_progress].
  destruct (network pf (network_sends w)) eqn:Hnet;
    intros H; injection H as <- <-;
    cbn [g_state clock_reads storage_reads network_sends allocations trace].
  - split; [unfold same_store; simpl; tauto|].
    split; [reflexivity|].
    split; [reflexivity|]. split; [reflexivity|].
    right. right. right. split; [reflexivity|]. split; [reflexivity|].
    split; [reflexivity|]. split; [reflexivity|].
    exists (text j), (len j). rewrite <- !app_assoc. reflexivity.
  - split; [unfold same_store; simpl; tauto|].
    split; [reflexivity|].
    split; [reflexivity|]. split; [reflexivity|].
    right. right. left. split; [reflexivity|].
    split; [apply sync_flag_round_trip; exact Hsp|].
    split; [reflexivity|]. split; [reflexivity|].
    exists (text j), (len j). rewrite <- !app_assoc. reflexivity.
Qed.

Lemma window_category_member s e ev l :
  In ev l -> in_window s e ev = true ->
  1 <= window_category s e (product_id ev) l.
Proof.
  intros Hin Hw. unfold window_category.
  assert (H : In ev (List.filter
                (fun x => in_window s e x && (product_id x =? product_id ev)) l)).
  { apply filter_In. split; [exact Hin|]. rewrite Hw, Z.eqb_refl. reflexivity. }
  destruct (List.filter _ l); [destruct H|]. simpl length. lia.
Qed.

Lemma window_total_member s e ev l :
  In ev l -> in_window s e ev = true -> 1 <= window_total s e l.
Proof.
  intros Hin Hw. unfold window_total.
  assert (H : In ev (List.filter (in_window s e) l)).
  { apply filter_In. split; [exact Hin|exact Hw]. }
  destruct (List.filter _ l); [destruct H|]. simpl length. lia.
Qed.

(** X9. [consumption_force_sync] on an initialized module, whenever it
    returns: the store (block, indices, count), the configuration and the
    lifetime total are as before, so no event is removed by a sync; the
    scheduler flag is as before; the code is [CONSUMPTION_SUCCESS] or
    [CONSUMPTION_ERROR_API_ERROR]; with [CONSUMPTION_ERROR_API_ERROR] the
    whole module state is unchanged; the platform sees nothing, or one
    send and a failure line, or one send, one storage write and a success
    line; and the sync marks change only together with
    [CONSUMPTION_SUCCESS], exactly one send, and a storage write of the
    new state. With the sink off it returns [CONSUMPTION_SUCCESS] and the
    world is untouched. *)
Theorem force_sync_contract pf w r w' :
  initialized (g_state w) = true ->
  consumption_force_sync pf w = Ok (r, w') ->
  same_store (g_state w) (g_state w') /\
  buffered (g_state w') = buffered (g_state w) /\
  sync_in_progress (g_state w') = sync_in_progress (g_state w) /\
  (r = CONSUMPTION_SUCCESS \/ r = CONSUMPTION_ERROR_API_ERROR) /\
  (r = CONSUMPTION_ERROR_API_ERROR -> g_state w' = g_state w) /\
  (exists added, trace w' = trace w ++ added /\ sync_output added) /\
  (marks (g_state w') <> marks (g_state w) ->
   r = CONSUMPTION_SUCCESS /\
   network_sends w' = S (network_sends w) /\
   persisted (trace w') = Some (g_state w')) /\
  (enable_external_api (config (g_state w)) = false ->
   r = CONSUMPTION_SUCCESS /\ w' = w).
Proof.
  intros Hi. unfold consumption_force_sync, bind at 1, get. rewrite Hi.
  cbn [negb]. intros H.
  destruct (sync_to_api_cases pf w r w' H) as (Hss & Hsp & _ & _ & Hcase).
  split; [exact Hss|]. split; [apply same_store_buffered; exact Hss|].
  split; [exact Hsp|].
  assert (Hoff : enable_external_api (config (g_state w)) = false ->
                 r = CONSUMPTION_SUCCESS /\ w' = w).
  { intros Hen. revert H. unfold sync_to_api, bind at 1, get. rewrite Hen.
    cbn [negb]. intros H. injection H as <- <-. split; reflexivity. }
  destruct Hcase as [(-> & Hg & Ht & Hn)|[(-> & -> & Hen & Hbusy)
                    |[(-> & Hg & Hnet & Hn & data & n & Ht)
                     |(-> & Hm & Hnet & Hn & data & n & Ht)]]].
  - split; [left; reflexivity|]. split; [intros _; exact Hg|].
    split; [exists []; rewrite app_nil_r; split; [exact Ht|left; reflexivity]|].
    split; [|exact Hoff]. intros Hne. rewrite Hg in Hne. contradiction.
  - split; [right; reflexivity|]. split; [reflexivity|].
    split; [exists []; rewrite app_nil_r; split; [reflexivity|left; reflexivity]|].
    split; [|exact Hoff]. intros Hne. contradiction.
  - split; [right; reflexivity|]. split; [intros _; exact Hg|].
    split; [eexists; split; [exact Ht|right; left; eexists _, _, _; reflexivity]|].
    split; [|exact Hoff]. intros Hne. rewrite Hg in Hne. contradiction.
  - split; [left; reflexivity|]. split; [discriminate|].
    split; [eexists; split; [exact Ht|right; right; eexists _, _, _, _; reflexivity]|].
    split; [|exact Hoff]. intros _. split; [reflexivity|]. split; [exact Hn|].
    rewrite Ht. unfold persisted. rewrite fold_left_app. reflexivity.
Qed.

Lemma force_sync_contract_witness :
  exists w',
    consumption_force_sync same_second unreported_world
    = Ok (CONSUMPTION_SUCCESS, w') /\
    buffered (g_state w') = buffered (g_state unreported_world) /\
    marks (g_state unreported_world) = (0, 1000) /\
    marks (g_state w') = (5000, 5000) /\
    persisted (trace w') = Some (g_state w').
Proof.
  eexists. split; [vm_compute; reflexivity|].
  edestruct (force_sync_contract same_second unreported_world)
    as (_ & Hb & _ & _ & _ & _ & Hm & _).
  - reflexivity.
  - vm_compute. reflexivity.
  - split; [exact Hb|]. split; [reflexivity|]. split; [reflexivity|].
    apply Hm. vm_compute. discriminate.
Defined.

(** X10. A sync that reaches the sink and succeeds moves
    [last_aggregation] to [now] and leaves every buffered event in the
    store, and both ends of the window are inclusive. So a buffered event
    of category [c] stamped exactly [now] is counted under [c] in the
    report just sent, and again in the report of the next sync, whenever
    that one reads a clock that has not gone back. *)
Theorem boundary_event_reported_twice pf w json ev :
  enable_external_api (config (g_state w)) = true ->
  sync_in_progress (g_state w) = false ->
  ring_ok (g_state w) ->
  aggregation_interval (config (g_state w))
  <= wrap32 (reading pf w - last_aggregation (g_state w)) ->
  json_payload (report pf w) = Ok json ->
  network pf (network_sends w) = true ->
  In ev (buffered (g_state w)) ->
  last_aggregation (g_state w) <= timestamp ev ->
  timestamp ev = reading pf w ->
  1 <= product_id ev <= 255 ->
  exists w',
    sync_to_api pf w = Ok (CONSUMPTION_SUCCESS, w') /\
    In ev (buffered (g_state w')) /\
    last_aggregation (g_state w') = timestamp ev /\
    1 <= nth (Z.to_nat (product_id ev)) (product_counts (report pf w)) 0 /\
    forall pf',
      reading pf w <= reading pf' w' ->
      1 <= nth (Z.to_nat (product_id ev)) (product_counts (report pf' w')) 0.
Proof.
  intros Hen Hsp Hok Hgate Hjson Hnet Hin Hlo Hts Hc.
  assert (Hw : in_window (last_aggregation (g_state w)) (reading pf w) ev = true).
  { unfold in_window. rewrite Hts.
    rewrite (proj2 (Z.leb_le _ _)) by lia. rewrite Z.leb_refl. reflexivity. }
  assert (Htot : window_total (last_aggregation (g_state w)) (reading pf w)
                   (buffered (g_state w)) <> 0).
  { pose proof (window_total_member _ _ _ _ Hin Hw). lia. }
  destruct (sync_to_api_reports pf w json Hen Hsp Hok Hgate Htot Hjson)
    as (w' & Hrun & Hss & _ & _ & _ & Hout).
  rewrite Hnet in Hrun, Hout. destruct Hout as (Hm & _).
  injection Hm as _ Hla.
  pose proof (same_store_buffered _ _ Hss) as Hb.
  pose proof (same_store_ring _ _ Hss Hok) as Hok'.
  exists w'. split; [exact Hrun|]. split; [rewrite Hb; exact Hin|].
  split; [rewrite Hla, Hts; reflexivity|].
  destruct (report_facts pf w Hok) as (_ & _ & _ & _ & _ & Hcat).
  split.
  - rewrite Hcat by exact Hc. apply window_category_member; assumption.
  - intros pf' Hlater.
    destruct (report_facts pf' w' Hok') as (_ & _ & _ & _ & _ & Hcat').
    rewrite Hcat' by exact Hc. apply window_category_member.
    + rewrite Hb. exact Hin.
    + unfold in_window. rewrite Hla, Hts, Z.leb_refl.
      rewrite (proj2 (Z.leb_le _ _)) by lia. reflexivity.
Qed.

Lemma boundary_event_reported_twice_witness :
  exists w',
    sync_to_api same_second unreported_world = Ok (CONSUMPTION_SUCCESS, w') /\
    In (mk_event 5000 7 1) (buffered (g_state w')) /\
    last_aggregation (g_state w') = 5000 /\
    1 <= nth 1 (product_counts (report same_second unreported_world)) 0 /\
    forall pf',
      reading same_second unreported_world <= reading pf' w' ->
      1 <= nth 1 (product_counts (report pf' w')) 0.
Proof.
  eapply (boundary_event_reported_twice same_second unreported_world _
            (mk_event 5000 7 1)).
  - reflexivity.
  - reflexivity.
  - ring_ok_by_evaluation.
  - vm_compute. discriminate.
  - vm_compute. reflexivity.
  - reflexivity.
  - vm_compute. left. reflexivity.
  - vm_compute. discriminate.
  - reflexivity.
  - simpl. lia.
Defined.

(** X11. A sync that reaches the sink with an object that fits the buffer
    (its text is shorter than 1024 characters) hands the sink exactly the
    text the format strings describe, whole, with its length as
    [data_len], at the configured endpoint. The object carries the active
    machine identifier, the window from [last_aggregation] to [now], the
    number of buffered events in that window, and one entry for exactly
    those categories from 1 to 255 that have a buffered event in the
    window, each with the number of such events. *)
Theorem sync_sends_whole_report pf w :
  enable_external_api (config (g_state w)) = true ->
  sync_in_progress (g_state w) = false ->
  ring_ok (g_state w) ->
  aggregation_interval (config (g_state w))
  <= wrap32 (reading pf w - last_aggregation (g_state w)) ->
  window_total (last_aggregation (g_state w)) (reading pf w)
    (buffered (g_state w)) <> 0 ->
  strlen (payload_text (report pf w)) < json_buffer_size ->
  let a := report pf w in
  let s := last_aggregation (g_state w) in
  let e := reading pf w in
  exists w' rest,
    sync_to_api pf w
    = Ok (if network pf (network_sends w) then CONSUMPTION_SUCCESS
          else CONSUMPTION_ERROR_API_ERROR, w') /\
    trace w'
    = trace w ++ IoNetworkSend (api_endpoint (config (g_state w)))
                   (payload_text a) (strlen (payload_text a)) :: rest /\
    payloads_sent rest = [] /\
    agg_machine_id a = machine_id (config (g_state w)) /\
    period_start a = s /\ period_end a = e /\
    agg_total_events a = window_total s e (buffered (g_state w)) /\
    forall i c,
      In (i, c) (sold (product_counts a) product_ids) <->
      1 <= i <= 255 /\ c = window_category s e i (buffered (g_state w)) /\ c > 0.
Proof.
  intros Hen Hsp Hok Hgate Htot Hfit a s e. subst a s e.
  pose proof (json_payload_fits _ Hfit) as Hjson.
  destruct (sync_to_api_reports pf w _ Hen Hsp Hok Hgate Htot Hjson)
    as (w' & Hrun & _ & _ & _ & _ & Hout).
  cbn [text len] in Hout.
  destruct (report_facts pf w Hok) as (H1 & H2 & H3 & H4 & _ & Hcat).
  exists w'.
  assert (Hentries : forall i c,
    In (i, c) (sold (product_counts (report pf w)) product_ids) <->
    1 <= i <= 255 /\
    c = window_category (last_aggregation (g_state w)) (reading pf w) i
          (buffered (g_state w)) /\ c > 0).
  { intros i c. rewrite sold_product_ids. split.
    - intros (Hi & Hc & Hpos). rewrite Hcat in Hc by exact Hi. tauto.
    - intros (Hi & Hc & Hpos). rewrite Hcat by exact Hi. tauto. }
  destruct (network pf (network_sends w)); destruct Hout as (_ & Ht);
    eexists; (split; [exact Hrun|]); (split; [exact Ht|]);
    (split; [reflexivity|]); auto.
Qed.

Lemma sync_sends_whole_report_witness :
  exists w' rest,
    sync_to_api quiet_hour pending_world = Ok (CONSUMPTION_SUCCESS, w') /\
    trace w'
    = trace pending_world
      ++ IoNetworkSend "https://api.example.com/consumption"
           (payload_text (report quiet_hour pending_world))
           (strlen (payload_text (report quiet_hour pending_world))) :: rest /\
    payloads_sent rest = [] /\
    agg_machine_id (report quiet_hour pending_world) = 7 /\
    period_start (report quiet_hour pending_world) = 1000 /\
    period_end (report quiet_hour pending_world) = 5000 /\
    agg_total_events (report quiet_hour pending_world)
    = window_total 1000 5000 (buffered (g_state pending_world)) /\
    forall i c,
      In (i, c) (sold (product_counts (report quiet_hour pending_world)) product_ids) <->
      1 <= i <= 255 /\
      c = window_category 1000 5000 i (buffered (g_state pending_world)) /\ c > 0.
Proof.
  apply (sync_sends_whole_report quiet_hour pending_world).
  - reflexivity.
  - reflexivity.
  - ring_ok_by_evaluation.
  - vm_compute. discriminate.
  - vm_compute. discriminate.
  - vm_compute. reflexivity.
Defined.

(* ====================================================================== *)
(** ** Reading and replacing the configuration *)

Lemma validate_config_bounds c :
  validate_config (Some c) = true ->
  machine_id c <> 0 /\ ring_buffer_size c <> 0 /\ ring_buffer_size c <= 10000.
Proof.
  unfold validate_config.
  destruct (Z.eqb_spec (machine_id c) 0); [discriminate|].
  destruct (Z.eqb_spec (ring_buffer_size c) 0); [discriminate|].
  rewrite Z.gtb_ltb.
  destruct (Z.ltb_spec 10000 (ring_buffer_size c)); [discriminate|].
  intros _. split; [assumption|]. split; [assumption|lia].
Qed.

(** X12. [consumption_update_config] always returns, and
    [consumption_get_config] after it, which has no initialization guard
    and changes nothing, returns [CONSUMPTION_ERROR_INVALID_PARAMETER] for
    a null out-pointer and otherwise [CONSUMPTION_SUCCESS] with the active
    configuration: the new one exactly when the update returned
    [CONSUMPTION_SUCCESS], which it does exactly when the new
    configuration is valid and has the active capacity; the previous one
    in every other case. *)
Theorem get_config_after_update w cfg :
  exists r w1,
    consumption_update_config cfg w = Ok (r, w1) /\
    consumption_get_config false w1
    = Ok ((CONSUMPTION_ERROR_INVALID_PARAMETER, None), w1) /\
    consumption_get_config true w1
    = Ok ((CONSUMPTION_SUCCESS,
           Some (if error_eqb r CONSUMPTION_SUCCESS then chosen_config cfg
                 else config (g_state w))), w1) /\
    (r = CONSUMPTION_SUCCESS <->
     validate_config cfg = true /\
     ring_buffer_size (chosen_config cfg) = capacity (g_state w)).
Proof.
  destruct (validate_config cfg) eqn:Hv.
  - destruct cfg as [c|]; [|discriminate].
    destruct (Z.eq_dec (ring_buffer_size c) (capacity (g_state w))) as [He|Hne].
    + eexists _, _. split; [apply update_config_accepted; assumption|].
      split; [reflexivity|]. split; [reflexivity|]. simpl. tauto.
    + eexists _, _. split; [apply update_config_capacity_differs; assumption|].
      split; [reflexivity|]. split; [reflexivity|]. simpl.
      split; [discriminate|tauto].
  - eexists _, _. split; [apply update_config_invalid; assumption|].
    split; [reflexivity|]. split; [reflexivity|].
    split; [discriminate|]. intros [H _]. discriminate.
Qed.

(** X13. An accepted [consumption_update_config] that changes the machine
    identifier leaves the buffered events as they are, each with the
    identifier it was recorded under. After it a record-event call with
    the previous identifier is refused with
    [CONSUMPTION_ERROR_INVALID_PARAMETER] and changes nothing, and the
    report of a sync carries the new identifier while its total still
    counts every buffered event of the window, whatever identifier the
    event was recorded under. *)
Theorem update_config_renames_machine pf w c :
  initialized (g_state w) = true ->
  ring_ok (g_state w) ->
  validate_config (Some c) = true ->
  ring_buffer_size c = capacity (g_state w) ->
  machine_id c <> machine_id (config (g_state w)) ->
  exists w1,
    consumption_update_config (Some c) w = Ok (CONSUMPTION_SUCCESS, w1) /\
    buffered (g_state w1) = buffered (g_state w) /\
    (forall pid,
       consumption_on_dispense pf (machine_id (config (g_state w))) pid w1
       = Ok (CONSUMPTION_ERROR_INVALID_PARAMETER, w1)) /\
    agg_machine_id (report pf w1) = machine_id c /\
    agg_total_events (report pf w1)
    = window_total (last_aggregation (g_state w)) (reading pf w)
        (buffered (g_state w)).
Proof.
  intros Hi Hok Hv He Hne.
  set (w1 := emit (IoStorageWrite (set_config c (g_state w))) (with_g (set_config c) w)).
  assert (Hb : buffered (g_state w1) = buffered (g_state w)).
  { unfold buffered, slot, capacity. cbn [g_state w1 emit with_g set_config
      event_buffer buffer_count buffer_tail config]. fold (capacity (g_state w)).
    rewrite He. reflexivity. }
  assert (Hok1 : ring_ok (g_state w1)).
  { unfold ring_ok, capacity in *. cbn [g_state w1 emit with_g set_config
      event_buffer buffer_count buffer_tail buffer_head config].
    rewrite He. exact Hok. }
  exists w1. split; [apply update_config_accepted; assumption|].
  split; [exact Hb|]. split.
  - intros pid. apply on_dispense_wrong_machine; [exact Hi|].
    cbn [g_state w1 emit with_g set_config config]. auto.
  - destruct (report_facts pf w1 Hok1) as (Hm & _ & _ & Ht & _).
    split; [exact Hm|]. rewrite Ht, Hb. reflexivity.
Qed.

Lemma update_config_renames_machine_witness :
  exists w1,
    consumption_update_config (Some other_machine) open_shop
    = Ok (CONSUMPTION_SUCCESS, w1) /\
    buffered (g_state w1) = buffered (g_state open_shop) /\
    (forall pid,
       consumption_on_dispense first_boot 11111 pid w1
       = Ok (CONSUMPTION_ERROR_INVALID_PARAMETER, w1)) /\
    agg_machine_id (report first_boot w1) = 33333 /\
    agg_total_events (report first_boot w1)
    = window_total (last_aggregation (g_state open_shop))
        (reading first_boot open_shop) (buffered (g_state open_shop)).
Proof.
  apply (update_config_renames_machine first_boot open_shop other_machine).
  - reflexivity.
  - ring_ok_by_evaluation.
  - reflexivity.
  - reflexivity.
  - simpl. lia.
Defined.

(** X14. [consumption_update_config] has no initialization guard: the
    only state it looks at is the active capacity. While that capacity is
    0, as it is from power-up until the first [consumption_init], or above
    10000, no configuration is accepted: every call returns an error
    code, [CONSUMPTION_ERROR_INVALID_CONFIG] or
    [CONSUMPTION_ERROR_INVALID_PARAMETER], and leaves the module state and
    the platform untouched. *)
Theorem update_config_needs_active_capacity w cfg :
  capacity (g_state w) = 0 \/ 10000 < capacity (g_state w) ->
  exists r,
    consumption_update_config cfg w = Ok (r, w) /\
    (r = CONSUMPTION_ERROR_INVALID_CONFIG \/
     r = CONSUMPTION_ERROR_INVALID_PARAMETER).
Proof.
  intros Hcap. destruct (validate_config cfg) eqn:Hv.
  - destruct cfg as [c|]; [|discriminate].
    destruct (validate_config_bounds c Hv) as (_ & Hz & Hmax).
    eexists. split; [apply update_config_capacity_differs; [exact Hv|lia]|].
    right. reflexivity.
  - eexists. split; [apply update_config_invalid; exact Hv|]. left. reflexivity.
Qed.

Lemma update_config_needs_active_capacity_witness :
  exists r,
    consumption_update_config (Some shop_config) boot = Ok (r, boot) /\
    (r = CONSUMPTION_ERROR_INVALID_CONFIG \/
     r = CONSUMPTION_ERROR_INVALID_PARAMETER).
Proof.
  apply (update_config_needs_active_capacity boot (Some shop_config)).
  left. reflexivity.
Defined.

(* ====================================================================== *)
(** ** A running instance *)

(** An accepted call is the append, the count, and then either nothing
    more or one [sync_to_api]. *)
Lemma on_dispense_then_sync pf w mid pid r w' :
  initialized (g_state w) = true ->
  ring_ok (g_state w) ->
  mid = machine_id (config (g_state w)) ->
  pid <> 0 ->
  consumption_on_dispense pf mid pid w = Ok (r, w') ->
  exists w1,
    initialized (g_state w1) = true /\
    ring_ok (g_state w1) /\
    config (g_state w1) = config (g_state w) /\
    marks (g_state w1) = marks (g_state w) /\
    sync_in_progress (g_state w1) = sync_in_progress (g_state w) /\
    trace w1 = trace w /\
    storage_reads w1 = storage_reads w /\
    allocations w1 = allocations w /\
    network_sends w1 = network_sends w /\
    r = CONSUMPTION_SUCCESS /\
    (w' = w1 \/ exists r2, sync_to_api pf w1 = Ok (r2, w')).
Proof.
  intros Hi Hok Hm Hp.
  unfold consumption_on_dispense, bind at 1, get. rewrite Hi. simpl.
  rewrite (proj2 (Z.eqb_eq _ _) Hm). rewrite (proj2 (Z.eqb_neq _ _) Hp). simpl.
  unfold bind at 1, consumption_platform_get_timestamp.
  destruct (add_event_to_buffer_spec (tick w) (mk_event (reading pf w) mid pid) Hok)
    as (g1 & Hadd & Hok1 & Hbuf1 & Hcnt1 & Hu1).
  unfold tick, reading in Hadd. unfold bind at 1. rewrite Hadd. simpl.
  destruct Hu1 as (Hi1 & Hc1 & Ht1 & Hla1 & Hls1 & Hsp1). simpl in *.
  unfold bind at 1, modify. unfold bind at 1, get. simpl. rewrite Hc1.
  unfold bind at 1.
  assert (Hok2 : ring_ok (set_total_events (wrap32 (total_events g1 + 1)) g1)).
  { destruct Hok1 as (Hb & H). split; [exact Hb|exact H]. }
  assert (Hmk : marks (set_total_events (wrap32 (total_events g1 + 1)) g1)
                = marks (g_state w)).
  { unfold marks. simpl. rewrite Hla1, Hls1. reflexivity. }
  destruct (enable_external_api (config (g_state w))).
  - unfold bind at 1, consumption_platform_get_timestamp. simpl.
    destruct (_ >=? _).
    + unfold bind at 1.
      destruct (sync_to_api pf _) as [[r2 w2]|] eqn:Hsync; [|discriminate].
      unfold ret. intros H. injection H as <- <-.
      eexists. split; [|split; [|split; [|split; [|split; [|split; [|split;
        [|split; [|split; [|split; [reflexivity|right; exists r2; exact Hsync]]]]]]]]]];
        simpl; auto; try rewrite Hi1; auto.
    + unfold ret. simpl. intros H. injection H as <- <-.
      eexists. split; [|split; [|split; [|split; [|split; [|split; [|split;
        [|split; [|split; [|split; [reflexivity|left; reflexivity]]]]]]]]]];
        simpl; auto; try rewrite Hi1; auto.
  - unfold ret. simpl. intros H. injection H as <- <-.
    eexists. split; [|split; [|split; [|split; [|split; [|split; [|split;
      [|split; [|split; [|split; [reflexivity|left; reflexivity]]]]]]]]]];
      simpl; auto; try rewrite Hi1; auto.
Qed.

Lemma sync_to_api_running pf w r w' :
  running (g_state w) ->
  sync_to_api pf w = Ok (r, w') ->
  running (g_state w') /\
  config (g_state w') = config (g_state w) /\
  storage_reads w' = storage_reads w /\
  allocations w' = allocations w /\
  exists added,
    trace w' = trace w ++ added /\
    Forall (writes_running (capacity (g_state w))) added.
Proof.
  intros (Hi & Hok & Hsp & Hmk) H.
  destruct (sync_to_api_cases pf w r w' H) as (Hss & Hsp' & Hsr & Hal & Hcase).
  pose proof (same_store_ring _ _ Hss Hok) as Hok'.
  pose proof Hss as (Hi' & Hc' & _).
  split; [|split; [exact Hc'|split; [exact Hsr|split; [exact Hal|]]]].
  - split; [rewrite Hi'; exact Hi|]. split; [exact Hok'|].
    split; [rewrite Hsp'; exact Hsp|].
    destruct Hcase as [(_ & Hg & _)|[(_ & -> & _)|[(_ & Hg & _)|(_ & Hm & _)]]].
    + rewrite Hg. exact Hmk.
    + exact Hmk.
    + rewrite Hg. exact Hmk.
    + injection Hm as -> ->. right. reflexivity.
  - destruct Hcase as [(_ & _ & Ht & _)|[(_ & -> & _)
                      |[(_ & _ & _ & _ & data & n & Ht)
                       |(_ & Hm & _ & _ & data & n & Ht)]]].
    + exists []. rewrite app_nil_r. split; [exact Ht|constructor].
    + exists []. rewrite app_nil_r. split; [reflexivity|constructor].
    + eexists. split; [exact Ht|]. repeat constructor.
    + eexists. split; [exact Ht|].
      constructor; [exact I|]. constructor; [|repeat constructor].
      simpl. split.
      * split; [rewrite Hi'; exact Hi|]. split; [exact Hok'|].
        split; [rewrite Hsp'; exact Hsp|].
        injection Hm as -> ->. right. reflexivity.
      * unfold capacity. rewrite Hc'. reflexivity.
Qed.

Lemma log_running level message w :
  consumption_platform_log level message w
  = Ok (tt, emit (IoLog level message) w).
Proof. reflexivity. Qed.

(** One request on a running instance. *)
Lemma serve_running pf q w r w' :
  running (g_state w) ->
  serve pf q w = Ok (r, w') ->
  running (g_state w') /\
  capacity (g_state w') = capacity (g_state w) /\
  storage_reads w' = storage_reads w /\
  allocations w' = allocations w /\
  exists added,
    trace w' = trace w ++ added /\
    Forall (writes_running (capacity (g_state w))) added.
Proof.
  intros Hrun H.
  assert (Hsame : w' = w ->
    running (g_state w') /\
    capacity (g_state w') = capacity (g_state w) /\
    storage_reads w' = storage_reads w /\
    allocations w' = allocations w /\
    exists added,
      trace w' = trace w ++ added /\
      Forall (writes_running (capacity (g_state w))) added).
  { intros ->. split; [exact Hrun|]. split; [reflexivity|].
    split; [reflexivity|]. split; [reflexivity|].
    exists []. rewrite app_nil_r. split; [reflexivity|constructor]. }
  assert (Hlog : forall level message,
    w' = emit (IoLog level message) w ->
    running (g_state w') /\
    capacity (g_state w') = capacity (g_state w) /\
    storage_reads w' = storage_reads w /\
    allocations w' = allocations w /\
    exists added,
      trace w' = trace w ++ added /\
      Forall (writes_running (capacity (g_state w))) added).
  { intros level message ->. split; [exact Hrun|]. split; [reflexivity|].
    split; [reflexivity|]. split; [reflexivity|].
    eexists. split; [reflexivity|]. repeat constructor. }
  pose proof Hrun as (Hi & Hok & Hsp & Hmk).
  destruct q as [cfg|mid pid|a b c| |cfg|out| | |code]; cbn [serve] in H.
  - (* Init *)
    rewrite (bind_eq _ _ _ _ _ (init_already_initialized pf w cfg Hi)) in H.
    injection H as _ <-. apply Hsame. reflexivity.
  - (* OnDispense *)
    apply bind_ok in H. destruct H as (r1 & w1 & Hd & H). injection H as _ <-.
    destruct (Z.eq_dec mid (machine_id (config (g_state w)))) as [Hm|Hm].
    + destruct (Z.eq_dec pid 0) as [Hp|Hp].
      * subst pid. rewrite on_dispense_zero_category in Hd by exact Hi.
        injection Hd as _ <-. apply Hsame. reflexivity.
      * destruct (on_dispense_then_sync pf w mid pid r1 w1 Hi Hok Hm Hp Hd)
          as (w0 & Hi0 & Hok0 & Hc0 & Hm0 & Hsp0 & Ht0 & Hsr0 & Hal0 & _ & _ & Hnext).
        assert (Hrun0 : running (g_state w0)).
        { split; [exact Hi0|]. split; [exact Hok0|].
          split; [rewrite Hsp0; exact Hsp|].
          injection Hm0 as -> ->. exact Hmk. }
        destruct Hnext as [->|(r2 & Hsync)].
        -- split; [exact Hrun0|]. unfold capacity. rewrite Hc0.
           split; [reflexivity|]. split; [exact Hsr0|]. split; [exact Hal0|].
           exists []. rewrite app_nil_r. split; [exact Ht0|constructor].
        -- destruct (sync_to_api_running pf w0 r2 w1 Hrun0 Hsync)
             as (Hrun1 & Hc1 & Hsr1 & Hal1 & added & Ht1 & Hw1).
           split; [exact Hrun1|]. unfold capacity in *. rewrite Hc1, Hc0.
           split; [reflexivity|]. split; [rewrite Hsr1; exact Hsr0|].
           split; [rewrite Hal1; exact Hal0|].
           exists added. rewrite Ht1, Ht0. rewrite Hc0 in Hw1.
           split; [reflexivity|exact Hw1].
    + rewrite on_dispense_wrong_machine in Hd by assumption.
      injection Hd as _ <-. apply Hsame. reflexivity.
  - (* GetStats *)
    apply bind_ok in H. destruct H as (r1 & w1 & Hg & H). injection H as _ <-.
    revert Hg. unfold consumption_get_stats, bind, get, ret. rewrite Hi.
    cbn [negb]. intros Hg. injection Hg as _ <-. apply Hsame. reflexivity.
  - (* ForceSync *)
    apply bind_ok in H. destruct H as (r1 & w1 & Hf & H). injection H as _ <-.
    revert Hf. unfold consumption_force_sync, bind at 1, get. rewrite Hi.
    cbn [negb]. intros Hsync.
    destruct (sync_to_api_running pf w r1 w1 Hrun Hsync)
      as (Hrun1 & Hc1 & Hsr1 & Hal1 & added & Ht1 & Hw1).
    split; [exact Hrun1|]. unfold capacity in *. rewrite Hc1.
    split; [reflexivity|]. split; [exact Hsr1|]. split; [exact Hal1|].
    exists added. split; [exact Ht1|exact Hw1].
  - (* UpdateConfig *)
    apply bind_ok in H. destruct H as (r1 & w1 & Hu & H). injection H as _ <-.
    destruct (validate_config cfg) eqn:Hv.
    + destruct cfg as [c|]; [|discriminate].
      destruct (Z.eq_dec (ring_buffer_size c) (capacity (g_state w))) as [He|Hne].
      * rewrite update_config_accepted in Hu by assumption.
        injection Hu as _ <-.
        assert (Hrun1 : running (set_config c (g_state w))).
        { split; [exact Hi|]. split; [|split; [exact Hsp|exact Hmk]].
          unfold ring_ok, capacity in *. cbn [set_config event_buffer
            buffer_count buffer_tail buffer_head config].
          rewrite He. exact Hok. }
        split; [exact Hrun1|]. split; [exact He|].
        split; [reflexivity|]. split; [reflexivity|].
        eexists. split; [reflexivity|].
        constructor; [|constructor]. split; [exact Hrun1|exact He].
      * rewrite update_config_capacity_differs in Hu by assumption.
        injection Hu as _ <-. apply Hsame. reflexivity.
    + rewrite update_config_invalid in Hu by assumption.
      injection Hu as _ <-. apply Hsame. reflexivity.
  - (* GetConfig *)
    apply bind_ok in H. destruct H as (r1 & w1 & Hg & H). injection H as _ <-.
    revert Hg. unfold consumption_get_config, bind, get, ret.
    destruct out; cbn [negb]; intros Hg; injection Hg as _ <-; apply Hsame;
      reflexivity.
  - apply bind_ok in H. destruct H as (r1 & w1 & Hg & H). injection H as _ <-.
    injection Hg as _ <-. eapply Hlog. reflexivity.
  - apply bind_ok in H. destruct H as (r1 & w1 & Hg & H). injection H as _ <-.
    injection Hg as _ <-. eapply Hlog. reflexivity.
  - apply bind_ok in H. destruct H as (r1 & w1 & Hg & H). injection H as _ <-.
    injection Hg as _ <-. eapply Hlog. reflexivity.
Qed.

(** X15. From a running state (initialized, well-formed ring, scheduler
    idle, [last_sync] either 0 or equal to [last_aggregation]), as a fresh
    start leaves it, every sequence of calls of the public entry points
    other than [consumption_deinit] that runs to its end leaves a running
    state of the same capacity; it never reads the storage and never
    allocates; and every record it hands to the storage write is itself a
    running state of that capacity. *)
Theorem running_instance_invariant pf qs w rs w' :
  running (g_state w) ->
  serve_all pf qs w = Ok (rs, w') ->
  running (g_state w') /\
  capacity (g_state w') = capacity (g_state w) /\
  storage_reads w' = storage_reads w /\
  allocations w' = allocations w /\
  exists added,
    trace w' = trace w ++ added /\
    Forall (writes_running (capacity (g_state w))) added.
Proof.
  revert w rs w'. induction qs as [|q qs IH]; intros w rs w' Hrun H.
  - injection H as _ <-. split; [exact Hrun|]. split; [reflexivity|].
    split; [reflexivity|]. split; [reflexivity|].
    exists []. rewrite app_nil_r. split; [reflexivity|constructor].
  - simpl in H. apply bind_ok in H. destruct H as (r & w1 & Hq & H).
    apply bind_ok in H. destruct H as (rs1 & w2 & Hrest & H).
    injection H as _ <-.
    destruct (serve_running pf q w r w1 Hrun Hq)
      as (Hrun1 & Hc1 & Hsr1 & Hal1 & added1 & Ht1 & Hw1).
    destruct (IH w1 rs1 w2 Hrun1 Hrest)
      as (Hrun2 & Hc2 & Hsr2 & Hal2 & added2 & Ht2 & Hw2).
    split; [exact Hrun2|]. split; [rewrite Hc2; exact Hc1|].
    split; [rewrite Hsr2; exact Hsr1|]. split; [rewrite Hal2; exact Hal1|].
    exists (added1 ++ added2). rewrite Ht2, Ht1, app_assoc.
    split; [reflexivity|]. rewrite Hc1 in Hw2.
    apply Forall_app. split; assumption.
Qed.

Lemma running_instance_invariant_witness :
  exists rs w',
    serve_all quiet_hour busy_requests idle_sink_world = Ok (rs, w') /\
    running (g_state w') /\
    capacity (g_state w') = capacity (g_state idle_sink_world) /\
    storage_reads w' = storage_reads idle_sink_world /\
    allocations w' = allocations idle_sink_world /\
    exists added,
      trace w' = trace idle_sink_world ++ added /\
      Forall (writes_running (capacity (g_state idle_sink_world))) added.
Proof.
  eexists _, _. split; [vm_compute; reflexivity|].
  eapply (running_instance_invariant quiet_hour busy_requests idle_sink_world).
  - split; [reflexivity|]. split; [ring_ok_by_evaluation|].
    split; [reflexivity|]. left. reflexivity.
  - vm_compute. reflexivity.
Defined.

(* ====================================================================== *)
(** ** The width of a formatted number *)

Lemma string_of_uint_length d :
  String.length (DecimalString.NilEmpty.string_of_uint d) = Decimal.nb_digits d.
Proof. induction d; simpl; congruence. Qed.

Lemma of_uint_acc_lower d : forall acc,
  Z.pos acc * 10 ^ Z.of_nat (Decimal.nb_digits d) <= Z.pos (Pos.of_uint_acc d acc).
Proof.
  induction d; intros acc; cbn [Pos.of_uint_acc Decimal.nb_digits];
    [simpl; lia|..];
    rewrite Nat2Z.inj_succ, Z.pow_succ_r by lia;
    (etransitivity; [|apply IHd]);
    pose proof (Z.pow_nonneg 10 (Z.of_nat (Decimal.nb_digits d)) ltac:(lia));
    rewrite ?Pos2Z.inj_add, Pos2Z.inj_mul; nia.
Qed.

Lemma of_uint_lower d :
  Decimal.unorm d = d -> d <> Decimal.zero ->
  10 ^ (Z.of_nat (Decimal.nb_digits d) - 1) <= Z.of_N (Pos.of_uint d).
Proof.
  intros Hn Hz.
  destruct d;
    try (cbn [Pos.of_uint Decimal.nb_digits Z.of_N];
         rewrite Nat2Z.inj_succ;
         replace (Z.succ (Z.of_nat (Decimal.nb_digits d)) - 1)
           with (Z.of_nat (Decimal.nb_digits d)) by lia;
         etransitivity; [|apply of_uint_acc_lower];
         assert (0 <= 10 ^ Z.of_nat (Decimal.nb_digits d))
           by (apply Z.pow_nonneg; lia);
         lia).
  - discriminate Hn.
  - exfalso. rewrite DecimalFacts.unorm_D0 in Hn. unfold Decimal.unorm in Hn.
    destruct (Decimal.nzhead d) eqn:Hh;
      try (apply (DecimalFacts.nzhead_nonzero d d); rewrite Hh; exact Hn).
    injection Hn as Hn. apply Hz. rewrite <- Hn. reflexivity.
Qed.

(** [%u] of a value below [10^k] prints at most [k] digits. *)
Lemma decimal_width n k :
  0 <= n < 10 ^ k -> 1 <= k -> strlen (decimal n) <= k.
Proof.
  intros Hn Hk. unfold strlen, decimal.
  destruct (Z.eq_dec n 0) as [->|Hne]; [simpl; lia|].
  set (u := N.to_uint (Z.to_N n)).
  assert (Hof : Pos.of_uint u = Z.to_N n) by apply DecimalN.Unsigned.of_to.
  assert (Hnorm : Decimal.unorm u = u).
  { rewrite <- (DecimalN.Unsigned.to_of u). unfold N.of_uint. rewrite Hof.
    reflexivity. }
  assert (Hnz : u <> Decimal.zero).
  { intros Hu. rewrite Hu in Hof. simpl in Hof. lia. }
  pose proof (of_uint_lower u Hnorm Hnz) as Hlow.
  rewrite Hof, Z2N.id in Hlow by lia.
  assert (Hlt : Z.of_nat (Decimal.nb_digits u) - 1 < k).
  { apply (Z.pow_lt_mono_r_iff 10); lia. }
  unfold DecimalString.NilZero.string_of_uint.
  destruct u eqn:Hu; try (rewrite string_of_uint_length; lia).
  discriminate Hnorm.
Qed.

Lemma u32_width n : u32 n -> strlen (decimal n) <= 10.
Proof. unfold u32. intros H. apply decimal_width; lia. Qed.

(* ====================================================================== *)
(** ** Objects that fit the buffer *)

Lemma strlen_quoted s : strlen (quoted s) = strlen s + 2.
Proof.
  unfold quoted. rewrite !strlen_app. change (strlen dq) with 1. lia.
Qed.

Lemma json_header_width a :
  u32 (agg_machine_id a) -> u32 (period_start a) -> u32 (period_end a) ->
  u32 (agg_total_events a) ->
  strlen (json_header a) <= 100.
Proof.
  intros H1 H2 H3 H4. unfold json_header.
  rewrite !strlen_app, !strlen_quoted.
  apply u32_width in H1, H2, H3, H4.
  change (strlen "{") with 1. change (strlen ":") with 1.
  change (strlen ",") with 1. change (strlen "machine_id") with 10.
  change (strlen "period_start") with 12. change (strlen "period_end") with 10.
  change (strlen "total_events") with 12. lia.
Qed.

Lemma json_product_width i c :
  1 <= i <= 255 -> u32 c -> strlen (json_product i c) <= 16.
Proof.
  intros Hi Hc. unfold json_product. rewrite !strlen_app, strlen_quoted.
  apply u32_width in Hc. pose proof (decimal_width i 3 ltac:(lia) ltac:(lia)).
  change (strlen ":") with 1. lia.
Qed.

Lemma products_text_width entries : forall first,
  (forall i c, In (i, c) entries -> 1 <= i <= 255 /\ u32 c) ->
  strlen (products_text first entries) <= 17 * Z.of_nat (length entries).
Proof.
  induction entries as [|[i c] rest IH]; intros first H.
  - simpl. unfold strlen. simpl. lia.
  - cbn [products_text length]. rewrite !strlen_app, Nat2Z.inj_succ.
    destruct (H i c (or_introl eq_refl)) as [Hi Hc].
    pose proof (json_product_width i c Hi Hc).
    specialize (IH false (fun j d Hin => H j d (or_intror Hin))).
    assert (strlen (if first then EmptyString else ",") <= 1)
      by (destruct first; unfold strlen; simpl; lia).
    lia.
Qed.

(** An object with at most 53 entries fits. *)
Lemma payload_text_width a :
  u32 (agg_machine_id a) -> u32 (period_start a) -> u32 (period_end a) ->
  u32 (agg_total_events a) ->
  (forall i, 1 <= i <= 255 -> nth (Z.to_nat i) (product_counts a) 0 < 4294967296) ->
  Z.of_nat (length (sold (product_counts a) product_ids)) <= 53 ->
  strlen (payload_text a) < json_buffer_size.
Proof.
  intros H1 H2 H3 H4 Hcells Hk. unfold payload_text.
  rewrite !strlen_app.
  pose proof (json_header_width a H1 H2 H3 H4).
  assert (Hentries : strlen (products_text true (sold (product_counts a) product_ids))
                     <= 17 * Z.of_nat (length (sold (product_counts a) product_ids))).
  { apply products_text_width. intros i c Hin.
    apply sold_product_ids in Hin. destruct Hin as (Hi & -> & Hpos).
    split; [exact Hi|]. unfold u32. specialize (Hcells i Hi). lia. }
  change (strlen json_products_open) with 13. change (strlen "}}") with 2.
  unfold json_buffer_size. lia.
Qed.

(* ====================================================================== *)
(** ** The number of entries of a report *)

Lemma sold_length counts ids :
  length (sold counts ids)
  = length (List.filter (fun i => nth (Z.to_nat i) counts 0 >? 0) ids).
Proof.
  induction ids as [|i ids IH]; [reflexivity|].
  rewrite sold_cons. simpl List.filter.
  destruct (nth (Z.to_nat i) counts 0 >? 0); simpl; rewrite IH; reflexivity.
Qed.

Lemma filter_one_more (f g : Z -> bool) (p : Z) ids :
  List.NoDup ids ->
  (forall i, In i ids -> i <> p -> g i = f i) ->
  (length (List.filter g ids) <= length (List.filter f ids) + 1)%nat.
Proof.
  induction 1 as [|i ids Hni Hnd IH]; intros Hext; [simpl; lia|].
  simpl List.filter.
  destruct (Z.eq_dec i p) as [->|Hne].
  - assert (Heq : List.filter g ids = List.filter f ids).
    { apply filter_ext_in. intros j Hj. apply Hext; [right; exact Hj|].
      intros ->. contradiction. }
    rewrite Heq. destruct (g p), (f p); simpl; lia.
  - rewrite (Hext i (or_introl eq_refl) Hne).
    specialize (IH (fun j Hj => Hext j (or_intror Hj))).
    destruct (f i); simpl; lia.
Qed.

Lemma product_ids_distinct : List.NoDup product_ids.
Proof.
  unfold product_ids. apply NoDup_map_NoDup_ForallPairs; [|apply List.seq_NoDup].
  intros a b _ _ H. lia.
Qed.

(** One more event adds at most one entry. *)
Lemma count_event_entries s e ev a :
  (length (sold (product_counts (count_event s e ev a)) product_ids)
   <= length (sold (product_counts a) product_ids) + 1)%nat.
Proof.
  rewrite !sold_length. rewrite count_event_counts.
  destruct (in_window s e ev && (product_id ev <? 256)); [|lia].
  apply (filter_one_more _ _ (Z.of_nat (Z.to_nat (product_id ev))));
    [exact product_ids_distinct|].
  intros i Hin Hne. rewrite nth_bump_other; [reflexivity|].
  intros Heq. apply Hne. rewrite Heq.
  unfold product_ids in Hin. apply in_map_iff in Hin.
  destruct Hin as (k & <- & _). lia.
Qed.

Lemma count_all_entries s e l : forall a,
  (length (sold (product_counts (count_all s e l a)) product_ids)
   <= length (sold (product_counts a) product_ids) + length l)%nat.
Proof.
  induction l as [|ev l IH]; intros a; [simpl; lia|].
  rewrite count_all_cons. simpl length.
  pose proof (IH (count_event s e ev a)).
  pose proof (count_event_entries s e ev a). lia.
Qed.

Lemma sold_zeros ids : sold (repeat 0 256) ids = [].
Proof.
  induction ids as [|i ids IH]; [reflexivity|].
  rewrite sold_cons, nth_repeat. exact IH.
Qed.

(** A report has at most as many entries as there are buffered events. *)
Lemma report_entries pf w :
  ring_ok (g_state w) ->
  Z.of_nat (length (sold (product_counts (report pf w)) product_ids))
  <= buffer_count (g_state w).
Proof.
  intros Hok. rewrite <- (buffered_length _ Hok). unfold report.
  set (a0 := mk_aggregate _ _ _ _ _).
  pose proof (count_all_entries (last_aggregation (g_state w)) (reading pf w)
                (buffered (g_state w)) a0) as H.
  assert (H0 : sold (product_counts a0) product_ids = [])
    by (subst a0; cbn [product_counts]; apply sold_zeros).
  rewrite H0 in H. simpl length in H. lia.
Qed.

Lemma window_category_le s e c l :
  0 <= window_category s e c l <= Z.of_nat (length l).
Proof.
  unfold window_category. split; [lia|].
  apply Nat2Z.inj_le. apply List.filter_length_le.
Qed.

Lemma window_total_le s e l : 0 <= window_total s e l <= Z.of_nat (length l).
Proof.
  unfold window_total. split; [lia|].
  apply Nat2Z.inj_le. apply List.filter_length_le.
Qed.

(* ====================================================================== *)
(** ** Instances that never overrun the buffer *)

(** X16. An aggregate whose fields are in the range of [uint32_t] and
    that has at most 53 categories with a nonzero count is serialized
    whole: [json_payload] writes exactly the text the format strings
    describe, shorter than the 1024 bytes of [json_buffer], and no
    [snprintf] is cut or lands outside the buffer. *)
Theorem json_payload_fits_53_entries a :
  u32 (agg_machine_id a) -> u32 (period_start a) -> u32 (period_end a) ->
  u32 (agg_total_events a) ->
  (forall i, 1 <= i <= 255 -> nth (Z.to_nat i) (product_counts a) 0 < 4294967296) ->
  Z.of_nat (length (sold (product_counts a) product_ids)) <= 53 ->
  strlen (payload_text a) < json_buffer_size /\
  json_payload a = Ok (mk_json (payload_text a) (strlen (payload_text a))).
Proof.
  intros H1 H2 H3 H4 Hcells Hk.
  pose proof (payload_text_width a H1 H2 H3 H4 Hcells Hk) as Hfit.
  split; [exact Hfit|]. apply json_payload_fits. exact Hfit.
Qed.

Lemma json_payload_fits_53_entries_witness :
  strlen (payload_text widest_report) < json_buffer_size /\
  json_payload widest_report
  = Ok (mk_json (payload_text widest_report) (strlen (payload_text widest_report))).
Proof.
  apply (json_payload_fits_53_entries widest_report).
  - unfold u32. simpl. lia.
  - unfold u32. simpl. lia.
  - unfold u32. simpl. lia.
  - unfold u32. simpl. lia.
  - intros i Hi. unfold widest_report. cbn [product_counts].
    destruct (nth_in_or_default (Z.to_nat i)
                (repeat 0 200 ++ repeat 4294967295 53 ++ repeat 0 3) 0)
      as [Hin|Hd]; [|rewrite Hd; lia].
    rewrite !in_app_iff in Hin.
    destruct Hin as [Hin|[Hin|Hin]]; apply repeat_spec in Hin; rewrite Hin; lia.
  - vm_compute. discriminate.
Defined.

Lemma reading_u32 pf w : u32 (reading pf w).
Proof. unfold reading, wrap32, u32. apply Z.mod_pos_bound. lia. Qed.

Lemma report_fits pf w :
  ring_ok (g_state w) -> compact (g_state w) ->
  strlen (payload_text (report pf w)) < json_buffer_size.
Proof.
  intros Hok (Hcap & Hm & Hla).
  destruct (report_facts pf w Hok) as (H1 & H2 & H3 & H4 & _ & Hcat).
  pose proof (buffered_length _ Hok) as Hlen.
  pose proof Hok as (_ & _ & _ & Hcount & _).
  apply payload_text_width.
  - rewrite H1. exact Hm.
  - rewrite H2. exact Hla.
  - rewrite H3. apply reading_u32.
  - rewrite H4. unfold u32.
    pose proof (window_total_le (last_aggregation (g_state w)) (reading pf w)
                  (buffered (g_state w))). lia.
  - intros i Hi. rewrite Hcat by exact Hi.
    pose proof (window_category_le (last_aggregation (g_state w)) (reading pf w) i
                  (buffered (g_state w))). lia.
  - pose proof (report_entries pf w Hok). lia.
Qed.

Lemma sync_to_api_defined pf w :
  ring_ok (g_state w) -> compact (g_state w) ->
  exists r w', sync_to_api pf w = Ok (r, w').
Proof.
  intros Hok Hsmall.
  pose proof (json_payload_fits _ (report_fits pf w Hok Hsmall)) as Hjson.
  unfold sync_to_api, bind at 1, get.
  destruct (enable_external_api (config (g_state w))); cbn [negb];
    [|eexists _, _; reflexivity].
  destruct (sync_in_progress (g_state w)); [eexists _, _; reflexivity|].
  unfold bind at 1, modify. unfold bind at 1, consumption_platform_get_timestamp.
  unfold bind at 1, get. cbn [g_state with_g clock_reads last_aggregation
    set_sync_in_progress config]. fold (reading pf w).
  destruct (_ <? _); [eexists _, _; reflexivity|].
  match goal with
  | |- context [bind (aggregate_events ?s ?e) ?k ?W] =>
      rewrite (bind_eq (aggregate_events s e) k W _ W
                 (aggregate_events_runs W s e Hok))
  end.
  change (count_all _ _ _ _) with (report pf w).
  destruct (_ =? 0); [eexists _, _; reflexivity|].
  unfold bind at 1, lift. rewrite Hjson.
  unfold bind, get, modify, ret, save_state, consumption_platform_storage_write,
    consumption_platform_log, output, consumption_platform_network_send.
  cbn [g_state with_g network_sends].
  destruct (network pf (network_sends w)); eexists _, _; reflexivity.
Qed.

Lemma sync_to_api_compact pf w r w' :
  sync_to_api pf w = Ok (r, w') -> compact (g_state w) -> compact (g_state w').
Proof.
  intros H (Hcap & Hm & Hla).
  destruct (sync_to_api_cases pf w r w' H) as (Hss & _ & _ & _ & Hcase).
  destruct Hss as (_ & Hc & _).
  unfold compact, capacity in *. rewrite Hc.
  split; [exact Hcap|]. split; [exact Hm|].
  destruct Hcase as [(_ & -> & _)|[(_ & -> & _)|[(_ & -> & _)|(_ & Hmk & _)]]];
    try exact Hla.
  injection Hmk as _ ->. apply reading_u32.
Qed.

Lemma on_dispense_defined pf w mid pid :
  ring_ok (g_state w) -> compact (g_state w) ->
  exists r w', consumption_on_dispense pf mid pid w = Ok (r, w').
Proof.
  intros Hok (Hcap & Hmid & Hla).
  unfold consumption_on_dispense, bind at 1, get.
  destruct (initialized (g_state w)); simpl; [|eexists _, _; reflexivity].
  destruct (mid =? _); simpl; [|eexists _, _; reflexivity].
  destruct (pid =? 0); simpl; [eexists _, _; reflexivity|].
  unfold bind at 1, consumption_platform_get_timestamp.
  destruct (add_event_to_buffer_spec (tick w) (mk_event (reading pf w) mid pid) Hok)
    as (g1 & Hadd & Hok1 & _ & _ & Hu1).
  unfold tick, reading in Hadd. unfold bind at 1. rewrite Hadd. simpl.
  destruct Hu1 as (_ & Hc1 & _ & Hla1 & _). simpl in Hc1, Hla1.
  unfold bind at 1, modify. unfold bind at 1, get. simpl. rewrite Hc1.
  unfold bind at 1.
  destruct (enable_external_api (config (g_state w)));
    [|eexists _, _; reflexivity].
  unfold bind at 1, consumption_platform_get_timestamp. simpl.
  destruct (_ >=? _); [|eexists _, _; reflexivity].
  unfold bind at 1.
  match goal with
  | |- context [sync_to_api pf ?W] =>
      destruct (sync_to_api_defined pf W) as (r2 & w2 & Hsync)
  end.
  - destruct Hok1 as (Hb & H). split; [exact Hb|exact H].
  - unfold compact, capacity in *. simpl. rewrite Hc1, Hla1. tauto.
  - rewrite Hsync. eexists _, _. reflexivity.
Qed.

Lemma serve_defined pf q w :
  running (g_state w) -> compact (g_state w) ->
  exists r w', serve pf q w = Ok (r, w').
Proof.
  intros (Hi & Hok & _) Hsmall.
  destruct q as [cfg|mid pid|a b c| |cfg|out| | |code]; cbn [serve].
  - rewrite (bind_eq _ _ _ _ _ (init_already_initialized pf w cfg Hi)).
    eexists _, _. reflexivity.
  - destruct (on_dispense_defined pf w mid pid Hok Hsmall) as (r & w' & H).
    rewrite (bind_eq _ _ _ _ _ H). eexists _, _. reflexivity.
  - unfold consumption_get_stats, bind, get, ret. rewrite Hi.
    eexists _, _. reflexivity.
  - unfold consumption_force_sync, bind at 1. unfold bind at 1, get.
    rewrite Hi. cbn [negb].
    destruct (sync_to_api_defined pf w Hok Hsmall) as (r & w' & H).
    rewrite H. eexists _, _. reflexivity.
  - destruct (update_config_defined w cfg) as (r & w' & H).
    rewrite (bind_eq _ _ _ _ _ H). eexists _, _. reflexivity.
  - unfold consumption_get_config, bind, get, ret.
    destruct out; eexists _, _; reflexivity.
  - eexists _, _. reflexivity.
  - eexists _, _. reflexivity.
  - eexists _, _. reflexivity.
Qed.

Lemma serve_compact pf q w r w' :
  running (g_state w) -> compact (g_state w) -> typed q ->
  serve pf q w = Ok (r, w') ->
  compact (g_state w').
Proof.
  intros Hrun Hsmall Hty H. pose proof Hrun as (Hi & Hok & _).
  destruct q as [cfg|mid pid|a b c| |cfg|out| | |code]; cbn [serve] in H.
  - rewrite (bind_eq _ _ _ _ _ (init_already_initialized pf w cfg Hi)) in H.
    injection H as _ <-. exact Hsmall.
  - apply bind_ok in H. destruct H as (r1 & w1 & Hd & H). injection H as _ <-.
    destruct (Z.eq_dec mid (machine_id (config (g_state w)))) as [Hm|Hm].
    + destruct (Z.eq_dec pid 0) as [Hp|Hp].
      * subst pid. rewrite on_dispense_zero_category in Hd by exact Hi.
        injection Hd as _ <-. exact Hsmall.
      * destruct (on_dispense_then_sync pf w mid pid r1 w1 Hi Hok Hm Hp Hd)
          as (w0 & _ & _ & Hc0 & Hm0 & _ & _ & _ & _ & _ & _ & Hnext).
        assert (Hsmall0 : compact (g_state w0)).
        { unfold compact, capacity in *. injection Hm0 as _ ->. rewrite Hc0.
          exact Hsmall. }
        destruct Hnext as [->|(r2 & Hsync)]; [exact Hsmall0|].
        eapply sync_to_api_compact; [exact Hsync|exact Hsmall0].
    + rewrite on_dispense_wrong_machine in Hd by assumption.
      injection Hd as _ <-. exact Hsmall.
  - apply bind_ok in H. destruct H as (r1 & w1 & Hg & H). injection H as _ <-.
    revert Hg. unfold consumption_get_stats, bind, get, ret. rewrite Hi.
    cbn [negb]. intros Hg. injection Hg as _ <-. exact Hsmall.
  - apply bind_ok in H. destruct H as (r1 & w1 & Hf & H). injection H as _ <-.
    revert Hf. unfold consumption_force_sync, bind at 1, get. rewrite Hi.
    cbn [negb]. intros Hsync.
    eapply sync_to_api_compact; [exact Hsync|exact Hsmall].
  - apply bind_ok in H. destruct H as (r1 & w1 & Hu & H). injection H as _ <-.
    destruct (validate_config cfg) eqn:Hv.
    + destruct cfg as [c|]; [|discriminate].
      destruct (Z.eq_dec (ring_buffer_size c) (capacity (g_state w))) as [He|Hne].
      * rewrite update_config_accepted in Hu by assumption.
        injection Hu as _ <-. destruct Hsmall as (Hcap & _ & Hla).
        unfold compact, capacity in *. simpl. rewrite He.
        split; [exact Hcap|]. split; [exact Hty|exact Hla].
      * rewrite update_config_capacity_differs in Hu by assumption.
        injection Hu as _ <-. exact Hsmall.
    + rewrite update_config_invalid in Hu by assumption.
      injection Hu as _ <-. exact Hsmall.
  - apply bind_ok in H. destruct H as (r1 & w1 & Hg & H). injection H as _ <-.
    revert Hg. unfold consumption_get_config, bind, get, ret.
    destruct out; cbn [negb]; intros Hg; injection Hg as _ <-; exact Hsmall.
  - apply bind_ok in H. destruct H as (r1 & w1 & Hg & H). injection H as _ <-.
    injection Hg as _ <-. exact Hsmall.
  - apply bind_ok in H. destruct H as (r1 & w1 & Hg & H). injection H as _ <-.
    injection Hg as _ <-. exact Hsmall.
  - apply bind_ok in H. destruct H as (r1 & w1 & Hg & H). injection H as _ <-.
    injection Hg as _ <-. exact Hsmall.
Qed.

(** X17. A running instance of capacity at most 53 whose machine
    identifier and [last_aggregation] are in the range of [uint32_t]
    never reaches undefined behaviour: every sequence of calls of the
    public entry points other than [consumption_deinit], with machine
    identifiers in that range, runs to its end and returns a result for
    every call. No report of such an instance can need more than the 1024
    bytes of [json_buffer], since it has at most as many entries as there
    are buffered events. *)
Theorem small_ring_never_faults pf qs : forall w,
  running (g_state w) ->
  compact (g_state w) ->
  Forall typed qs ->
  exists rs w',
    serve_all pf qs w = Ok (rs, w') /\ length rs = length qs.
Proof.
  induction qs as [|q qs IH]; intros w Hrun Hsmall Hty.
  - eexists _, _. split; reflexivity.
  - apply Forall_cons_iff in Hty. destruct Hty as [Hq Hqs].
    destruct (serve_defined pf q w Hrun Hsmall) as (r & w1 & H1).
    destruct (serve_running pf q w r w1 Hrun H1) as (Hrun1 & _).
    pose proof (serve_compact pf q w r w1 Hrun Hsmall Hq H1) as Hsmall1.
    destruct (IH w1 Hrun1 Hsmall1 Hqs) as (rs & w2 & H2 & Hlen).
    exists (r :: rs), w2. cbn [serve_all].
    rewrite (bind_eq _ _ _ _ _ H1), (bind_eq _ _ _ _ _ H2).
    split; [reflexivity|]. simpl. rewrite Hlen. reflexivity.
Qed.

Lemma small_ring_never_faults_witness :
  exists rs w',
    serve_all quiet_hour busy_requests idle_sink_world = Ok (rs, w') /\
    length rs = length busy_requests.
Proof.
  apply (small_ring_never_faults quiet_hour busy_requests idle_sink_world).
  - split; [reflexivity|]. split; [ring_ok_by_evaluation|].
    split; [reflexivity|]. left. reflexivity.
  - unfold compact, u32. repeat split; vm_compute; try reflexivity; discriminate.
  - unfold busy_requests. repeat constructor. unfold u32. simpl. lia.
Defined.

(* ====================================================================== *)
(** ** Error reports and descriptions *)

(** X18. [consumption_on_error] has no initialization guard and does not
    touch the module state: for every [uint16_t] code it logs one line at
    level 0, and the 64 bytes of [msg] always hold the whole text, the
    prefix followed by the code in decimal, which is at most 31
    characters long. *)
Theorem on_error_logs_whole_message code w :
  0 <= code < 65536 ->
  consumption_on_error code w
  = Ok (tt, emit (IoLog 0 ("Consumption module error: " ++ decimal code)) w) /\
  strlen ("Consumption module error: " ++ decimal code) <= 31.
Proof.
  intros Hc.
  assert (Hlen : strlen ("Consumption module error: " ++ decimal code) <= 31).
  { rewrite strlen_app. pose proof (decimal_width code 5 ltac:(lia) ltac:(lia)).
    change (strlen "Consumption module error: ") with 26. lia. }
  split; [|exact Hlen].
  unfold consumption_on_error, consumption_platform_log, output, msg_size.
  rewrite substring_all; [reflexivity|]. unfold strlen in Hlen. lia.
Qed.

Lemma on_error_logs_whole_message_witness :
  consumption_on_error 65535 boot
  = Ok (tt, emit (IoLog 0 "Consumption module error: 65535") boot) /\
  strlen "Consumption module error: 65535" <= 31.
Proof.
  apply (on_error_logs_whole_message 65535 boot). lia.
Defined.

(** X19. [consumption_error_string] gives each of the seven codes of
    [consumption_error_t] a description of its own, none of them the
    text of the [default] branch, and gives every other value that
    default text. *)
Theorem error_strings_distinct :
  (forall a b,
     consumption_error_string (error_code a)
     = consumption_error_string (error_code b) -> a = b) /\
  (forall n, consumption_error_string n = "Unknown error"%string <-> n < 0 \/ 6 < n).
Proof.
  split.
  - intros a b. destruct a, b; vm_compute; intros H;
      first [reflexivity | discriminate H].
  - intros n. unfold consumption_error_string, error_code.
    destruct (Z.eqb_spec n 0); [split; [discriminate|lia]|].
    destruct (Z.eqb_spec n 1); [split; [discriminate|lia]|].
    destruct (Z.eqb_spec n 2); [split; [discriminate|lia]|].
    destruct (Z.eqb_spec n 3); [split; [discriminate|lia]|].
    destruct (Z.eqb_spec n 4); [split; [discriminate|lia]|].
    destruct (Z.eqb_spec n 5); [split; [discriminate|lia]|].
    destruct (Z.eqb_spec n 6); [split; [discriminate|lia]|].
    split; [lia|reflexivity].
Qed.

(* ====================================================================== *)
(** ** The total of a report and its entries *)

Lemma entries_total_sold counts ids :
  (forall i, In i ids -> 0 <= nth (Z.to_nat i) counts 0) ->
  entries_total (sold counts ids)
  = fold_right (fun i acc => nth (Z.to_nat i) counts 0 + acc) 0 ids.
Proof.
  induction ids as [|i ids IH]; intros Hpos; [reflexivity|].
  rewrite sold_cons. cbn [fold_right].
  specialize (IH (fun j Hj => Hpos j (or_intror Hj))).
  pose proof (Hpos i (or_introl eq_refl)) as Hi.
  destruct (Z.gtb_spec (nth (Z.to_nat i) counts 0) 0).
  - cbn [entries_total fold_right snd]. fold (entries_total (sold counts ids)).
    rewrite IH. reflexivity.
  - rewrite IH. lia.
Qed.

Lemma indicator_sum p ids :
  List.NoDup ids ->
  fold_right (fun i acc => (if p =? i then 1 else 0) + acc) 0 ids
  = if existsb (Z.eqb p) ids then 1 else 0.
Proof.
  induction 1 as [|i ids Hni Hnd IH]; [reflexivity|].
  cbn [fold_right existsb]. rewrite IH.
  destruct (Z.eqb_spec p i) as [->|Hne]; cbn [orb]; [|lia].
  destruct (existsb (Z.eqb i) ids) eqn:Hex; [|lia].
  apply existsb_exists in Hex. destruct Hex as (j & Hj & Heq).
  apply Z.eqb_eq in Heq. subst j. contradiction.
Qed.

Lemma fold_right_add_ext (f g : Z -> Z) ids :
  (forall i, In i ids -> f i = g i) ->
  fold_right (fun i acc => f i + acc) 0 ids
  = fold_right (fun i acc => g i + acc) 0 ids.
Proof.
  induction ids as [|i ids IH]; intros H; [reflexivity|].
  cbn [fold_right]. rewrite (H i (or_introl eq_refl)).
  rewrite IH by (intros j Hj; apply H; right; exact Hj). reflexivity.
Qed.

Lemma fold_right_add_split (f g : Z -> Z) ids :
  fold_right (fun i acc => (f i + g i) + acc) 0 ids
  = fold_right (fun i acc => f i + acc) 0 ids
    + fold_right (fun i acc => g i + acc) 0 ids.
Proof.
  induction ids as [|i ids IH]; [reflexivity|].
  cbn [fold_right]. rewrite IH. lia.
Qed.

Lemma in_product_ids p :
  existsb (Z.eqb p) product_ids = (1 <=? p) && (p <=? 255).
Proof.
  destruct ((1 <=? p) && (p <=? 255)) eqn:Hr.
  - apply existsb_exists. exists p. split; [|apply Z.eqb_refl].
    apply andb_prop in Hr. destruct Hr as [H1 H2].
    apply Z.leb_le in H1, H2. unfold product_ids.
    apply in_map_iff. exists (Z.to_nat p). split; [lia|]. apply in_seq. lia.
  - destruct (existsb (Z.eqb p) product_ids) eqn:Hex; [|reflexivity].
    apply existsb_exists in Hex. destruct Hex as (j & Hj & Heq).
    apply Z.eqb_eq in Heq. subst j. unfold product_ids in Hj.
    apply in_map_iff in Hj. destruct Hj as (k & <- & Hk). apply in_seq in Hk.
    apply andb_false_iff in Hr. destruct Hr as [Hr|Hr]; apply Z.leb_gt in Hr; lia.
Qed.

(** Every event of the window is counted under its category, or is one
    of the uncategorized ones. *)
Lemma window_total_split s e l :
  window_total s e l
  = fold_right (fun i acc => window_category s e i l + acc) 0 product_ids
    + uncategorized s e l.
Proof.
  unfold window_total, window_category, uncategorized.
  induction l as [|ev l IH].
  - simpl List.filter. simpl length.
    rewrite (fold_right_add_ext _ (fun _ => 0)) by reflexivity.
    generalize product_ids. intros ids. induction ids as [|i ids IHi];
      [reflexivity|]. cbn [fold_right]. rewrite Z.add_0_l. exact IHi.
  - simpl List.filter.
    rewrite (fold_right_add_ext _
      (fun i => (if product_id ev =? i then (if in_window s e ev then 1 else 0) else 0)
                + Z.of_nat (length (List.filter
                    (fun x => in_window s e x && (product_id x =? i)) l)))).
    2: { intros i _. destruct (in_window s e ev); cbn [andb];
           [|destruct (product_id ev =? i); reflexivity].
         destruct (product_id ev =? i); [|reflexivity].
         simpl length. lia. }
    rewrite fold_right_add_split.
    rewrite (fold_right_add_ext
      (fun i => if product_id ev =? i then (if in_window s e ev then 1 else 0) else 0)
      (fun i => (if in_window s e ev then 1 else 0)
                * (if product_id ev =? i then 1 else 0))).
    2: { intros i _. destruct (product_id ev =? i), (in_window s e ev); reflexivity. }
    assert (Hscale : forall c ids,
      fold_right (fun i acc => c * (if product_id ev =? i then 1 else 0) + acc) 0 ids
      = c * fold_right (fun i acc => (if product_id ev =? i then 1 else 0) + acc) 0 ids).
    { intros c ids. induction ids as [|i ids IHi]; cbn [fold_right]; [lia|].
      rewrite IHi. lia. }
    rewrite Hscale, (indicator_sum _ _ product_ids_distinct), in_product_ids.
    destruct (in_window s e ev); cbn [andb];
      destruct ((1 <=? product_id ev) && (product_id ev <=? 255)); cbn [negb];
      simpl length; lia.
Qed.

(** X20. In every report the total is the sum of the counts of the
    entries plus the number of buffered events of the window whose
    category is not one of 1-255: such events are in [total_events] and
    in no entry. So the total is never below the sum of the entries, and
    equals it when every buffered event has a category from 1 to 255, as
    every event recorded through [consumption_on_dispense] with a
    [uint8_t] category has. *)
Theorem report_total_and_entries pf w :
  ring_ok (g_state w) ->
  let s := last_aggregation (g_state w) in
  let e := reading pf w in
  let entries := sold (product_counts (report pf w)) product_ids in
  agg_total_events (report pf w)
  = entries_total entries + uncategorized s e (buffered (g_state w)) /\
  entries_total entries <= agg_total_events (report pf w) /\
  ((forall ev, In ev (buffered (g_state w)) -> 1 <= product_id ev <= 255) ->
   agg_total_events (report pf w) = entries_total entries).
Proof.
  intros Hok s e entries. subst s e entries.
  destruct (report_facts pf w Hok) as (_ & _ & _ & Ht & _ & Hcat).
  assert (Hsum : entries_total (sold (product_counts (report pf w)) product_ids)
                 = fold_right (fun i acc =>
                     window_category (last_aggregation (g_state w)) (reading pf w) i
                       (buffered (g_state w)) + acc) 0 product_ids).
  { rewrite entries_total_sold.
    - apply fold_right_add_ext. intros i Hi. apply Hcat.
      unfold product_ids in Hi. apply in_map_iff in Hi.
      destruct Hi as (k & <- & Hk). apply in_seq in Hk. lia.
    - intros i Hi. rewrite Hcat.
      + apply window_category_le.
      + unfold product_ids in Hi. apply in_map_iff in Hi.
        destruct Hi as (k & <- & Hk). apply in_seq in Hk. lia. }
  rewrite Ht, Hsum, window_total_split.
  split; [reflexivity|]. split; [unfold uncategorized; lia|].
  intros Hall.
  assert (H0 : uncategorized (last_aggregation (g_state w)) (reading pf w)
                 (buffered (g_state w)) = 0).
  { unfold uncategorized.
    rewrite (filter_ext_in _ (fun _ => false)); [|intros ev Hev].
    - generalize (buffered (g_state w)). intros l. induction l; [reflexivity|].
      simpl. assumption.
    - specialize (Hall ev Hev).
      rewrite (proj2 (Z.leb_le _ _)) by lia.
      rewrite (proj2 (Z.leb_le _ _)) by lia.
      cbn [andb negb]. apply andb_false_r. }
  rewrite H0. lia.
Qed.

Lemma report_total_and_entries_witness :
  agg_total_events (report quiet_hour pending_world)
  = entries_total (sold (product_counts (report quiet_hour pending_world))
                     product_ids)
    + uncategorized 1000 5000 (buffered (g_state pending_world)) /\
  entries_total (sold (product_counts (report quiet_hour pending_world)) product_ids)
  <= agg_total_events (report quiet_hour pending_world) /\
  ((forall ev, In ev (buffered (g_state pending_world)) ->
               1 <= product_id ev <= 255) ->
   agg_total_events (report quiet_hour pending_world)
   = entries_total (sold (product_counts (report quiet_hour pending_world))
                      product_ids)).
Proof.
  apply (report_total_and_entries quiet_hour pending_world).
  ring_ok_by_evaluation.
Defined.

(* ====================================================================== *)
(** ** The example integration *)

Lemma array_get_nth (a : list Z) i :
  0 <= i < Z.of_nat (length a) ->
  array_get a i = Ok (nth (Z.to_nat i) a 0).
Proof.
  intros Hi. unfold array_get. rewrite nth_lookup.
  destruct (lookup_lt_is_Some_2 a (Z.to_nat i)) as [x Hx]; [lia|].
  rewrite Hx. rewrite (proj2 (Z.leb_le 0 i)) by lia. reflexivity.
Qed.

Lemma array_get_defined {A} (a : list A) i :
  0 <= i < Z.of_nat (length a) -> exists x, array_get a i = Ok x.
Proof.
  intros Hi. unfold array_get.
  destruct (lookup_lt_is_Some_2 a (Z.to_nat i)) as [x Hx]; [lia|].
  rewrite Hx. rewrite (proj2 (Z.leb_le 0 i)) by lia. exists x. reflexivity.
Qed.

Lemma price_range v product_id :
  machine_ok v -> 0 <= price_of v product_id <= 255.
Proof.
  intros (_ & _ & _ & _ & Hp). unfold price_of.
  destruct (nth_in_or_default (Z.to_nat product_id) (prices v) 0) as [Hin|Hd];
    [|rewrite Hd; lia].
  rewrite List.Forall_forall in Hp. apply Hp. exact Hin.
Qed.

(** A purchase whose payment is accepted, when the call of the
    consumption module returns. *)
Lemma purchase_paid pf s product_id payment_amount r w' :
  machine_ok (vm s) ->
  u32 payment_amount ->
  1 <= product_id <= product_count (vm s) ->
  price_of (vm s) product_id <= payment_amount ->
  consumption_on_dispense pf (vm_machine_id (vm s)) product_id (module s)
  = Ok (r, w') ->
  exists s',
    purchase_beverage pf product_id payment_amount s = Ok (true, s') /\
    module s' = w' /\
    cash_balance (vm s')
    = wrap32 (cash_balance (vm s) + price_of (vm s) product_id) /\
    vm_machine_id (vm s') = vm_machine_id (vm s) /\
    product_count (vm s') = product_count (vm s) /\
    products (vm s') = products (vm s) /\
    prices (vm s') = prices (vm s).
Proof.
  intros Hm Hpay Hin Hle Htrack.
  pose proof (price_range (vm s) product_id Hm) as Hprice.
  pose proof Hm as (Hlp & Hln & Hcount & Hcash & _).
  unfold purchase_beverage, process_payment.
  rewrite (proj2 (Z.eqb_neq product_id 0)) by lia.
  rewrite Z.gtb_ltb, (proj2 (Z.ltb_ge _ _)) by lia. cbn [orb].
  rewrite array_get_nth by lia. cbn [rbind]. fold (price_of (vm s) product_id).
  rewrite (proj2 (Z.ltb_ge _ _)) by lia. cbn [rbind fst snd negb].
  unfold dispense_beverage.
  destruct (array_get_defined (products (vm s)) product_id) as [name Hname];
    [lia|].
  cbn [with_cash vm products]. rewrite Hname. cbn [rbind].
  cbn [call with_cash vm module vm_machine_id]. rewrite Htrack.
  cbn [rbind fst snd negb].
  assert (Hcashed : forall s1,
    prices (vm s1) = prices (vm s) ->
    cash_balance (vm s1) = wrap32 (cash_balance (vm s) + payment_amount) ->
    vm_machine_id (vm s1) = vm_machine_id (vm s) ->
    product_count (vm s1) = product_count (vm s) ->
    products (vm s1) = products (vm s) ->
    module s1 = w' ->
    exists s',
      rbind (array_get (prices (vm s1)) product_id) (fun price =>
        let change := wrap32 (payment_amount - price) in
        if change >? 0 then
          Ok (true,
              with_cash (wrap32 (cash_balance (vm s1) - change))
                (call (Printf ("Returning change: $%d.%02d" ++ nl)
                         [ArgInt (change / 100); ArgInt (change mod 100)]) s1))
        else Ok (true, s1)) = Ok (true, s') /\
      module s' = w' /\
      cash_balance (vm s')
      = wrap32 (cash_balance (vm s) + price_of (vm s) product_id) /\
      vm_machine_id (vm s') = vm_machine_id (vm s) /\
      product_count (vm s') = product_count (vm s) /\
      products (vm s') = products (vm s) /\
      prices (vm s') = prices (vm s)).
  { intros s1 Hp1 Hc1 Hid1 Hn1 Hpr1 Hmod1.
    rewrite Hp1, array_get_nth by lia. cbn [rbind].
    fold (price_of (vm s) product_id). cbv zeta.
    unfold u32 in Hpay, Hcash.
    assert (Hchange : wrap32 (payment_amount - price_of (vm s) product_id)
                      = payment_amount - price_of (vm s) product_id)
      by (apply wrap32_small; unfold u32; lia).
    rewrite Hchange.
    destruct (Z.gtb_spec (payment_amount - price_of (vm s) product_id) 0).
    - eexists. split; [reflexivity|]. cbn [with_cash call vm module
        cash_balance vm_machine_id product_count products prices].
      split; [exact Hmod1|]. split; [|tauto].
      rewrite Hc1. unfold wrap32. rewrite Zminus_mod_idemp_l. f_equal. lia.
    - eexists. split; [reflexivity|]. split; [exact Hmod1|].
      split; [|tauto]. rewrite Hc1. f_equal. lia. }
  destruct (error_eqb r CONSUMPTION_SUCCESS); cbn [negb];
    apply Hcashed; reflexivity.
Qed.

(** X21. [purchase_beverage] of the example, for a machine whose arrays
    have their ten cells. A product identifier of 0 or above
    [product_count], or a payment below the price, ends the purchase with
    [false] before the consumption module is called: machine and module
    are as before. Otherwise the beverage is dispensed and
    [consumption_on_dispense] is called once, with the identifier of the
    machine and the product; whatever code it returns, the purchase
    returns [true], the module is left as that call left it, and the cash
    balance has grown by exactly the price (modulo [2^32]), the change
    having been returned. *)
Theorem purchase_never_blocked_by_tracking pf s product_id payment_amount :
  machine_ok (vm s) ->
  0 <= product_id <= 255 ->
  u32 payment_amount ->
  (product_id = 0 \/ product_count (vm s) < product_id \/
   payment_amount < price_of (vm s) product_id ->
   exists s',
     purchase_beverage pf product_id payment_amount s = Ok (false, s') /\
     vm s' = vm s /\ module s' = module s) /\
  (1 <= product_id <= product_count (vm s) ->
   price_of (vm s) product_id <= payment_amount ->
   forall r w',
     consumption_on_dispense pf (vm_machine_id (vm s)) product_id (module s)
     = Ok (r, w') ->
     exists s',
       purchase_beverage pf product_id payment_amount s = Ok (true, s') /\
       module s' = w' /\
       cash_balance (vm s')
       = wrap32 (cash_balance (vm s) + price_of (vm s) product_id) /\
       vm_machine_id (vm s') = vm_machine_id (vm s) /\
       product_count (vm s') = product_count (vm s) /\
       products (vm s') = products (vm s) /\
       prices (vm s') = prices (vm s)).
Proof.
  intros Hm Hpid Hpay.
  pose proof (price_range (vm s) product_id Hm) as Hprice.
  pose proof Hm as (Hlp & Hln & Hcount & Hcash & _).
  split.
  - intros Hrej. unfold purchase_beverage, process_payment.
    destruct (Z.eqb_spec product_id 0) as [Hz|Hz]; cbn [orb].
    { eexists. split; [reflexivity|]. split; reflexivity. }
    destruct (Z.gtb_spec product_id (product_count (vm s))) as [Hgt|Hle].
    { eexists. split; [reflexivity|]. split; reflexivity. }
    destruct Hrej as [H|[H|H]]; [contradiction|lia|].
    rewrite array_get_nth by lia. cbn [rbind]. fold (price_of (vm s) product_id).
    rewrite (proj2 (Z.ltb_lt _ _) H).
    eexists. split; [reflexivity|]. split; reflexivity.
  - intros Hin Hle r w' Htrack.
    apply (purchase_paid pf s product_id payment_amount r w'); assumption.
Qed.

Lemma purchase_never_blocked_by_tracking_witness :
  exists s',
    purchase_beverage first_boot 4 300 demo_firmware = Ok (true, s') /\
    module s' = shop_world /\
    cash_balance (vm s') = wrap32 (cash_balance (vm demo_firmware) + 200) /\
    vm_machine_id (vm s') = vm_machine_id (vm demo_firmware) /\
    product_count (vm s') = product_count (vm demo_firmware) /\
    products (vm s') = products (vm demo_firmware) /\
    prices (vm s') = prices (vm demo_firmware).
Proof.
  apply (proj2 (purchase_never_blocked_by_tracking first_boot demo_firmware 4 300
                  ltac:(unfold machine_ok, u32; simpl; repeat split;
                        try lia; repeat constructor; lia)
                  ltac:(lia) ltac:(unfold u32; lia))
           ltac:(simpl; lia) ltac:(vm_compute; discriminate)
           CONSUMPTION_ERROR_INVALID_PARAMETER shop_world).
  reflexivity.
Defined.

(** X22. A paid purchase on a machine whose consumption module is running
    with the machine's own identifier: when the call of the module
    returns, it returns [CONSUMPTION_SUCCESS], the purchase returns
    [true], and the module has the sold product as its newest buffered
    event, stamped with the reading of the clock, the oldest event having
    gone if the ring was full, and a lifetime total one higher (modulo
    [2^32]). *)
Theorem purchase_is_tracked pf s product_id payment_amount r w' :
  machine_ok (vm s) ->
  u32 payment_amount ->
  1 <= product_id <= product_count (vm s) ->
  price_of (vm s) product_id <= payment_amount ->
  initialized (g_state (module s)) = true ->
  ring_ok (g_state (module s)) ->
  vm_machine_id (vm s) = machine_id (config (g_state (module s))) ->
  consumption_on_dispense pf (vm_machine_id (vm s)) product_id (module s)
  = Ok (r, w') ->
  exists s',
    purchase_beverage pf product_id payment_amount s = Ok (true, s') /\
    r = CONSUMPTION_SUCCESS /\
    buffered (g_state (module s'))
    = appended (capacity (g_state (module s))) (buffered (g_state (module s)))
        (mk_event (reading pf (module s)) (vm_machine_id (vm s)) product_id) /\
    total_events (g_state (module s'))
    = wrap32 (total_events (g_state (module s)) + 1).
Proof.
  intros Hm Hpay Hin Hle Hi Hok Hid Htrack.
  destruct (purchase_paid pf s product_id payment_amount r w' Hm Hpay Hin Hle Htrack)
    as (s' & Hrun & Hmod & _).
  destruct (on_dispense_accepts pf (module s) _ product_id r w' Hi Hok Hid
              ltac:(lia) Htrack) as (Hr & _ & Hb & _ & Ht & _).
  exists s'. rewrite Hmod. split; [exact Hrun|]. split; [exact Hr|].
  split; [exact Hb|exact Ht].
Qed.

Lemma purchase_is_tracked_witness :
  exists s',
    purchase_beverage first_boot 4 300 tracked_firmware = Ok (true, s') /\
    CONSUMPTION_SUCCESS = CONSUMPTION_SUCCESS /\
    buffered (g_state (module s'))
    = appended (capacity (g_state shop_world)) (buffered (g_state shop_world))
        (mk_event (reading first_boot shop_world) 11111 4) /\
    total_events (g_state (module s'))
    = wrap32 (total_events (g_state shop_world) + 1).
Proof.
  eapply (purchase_is_tracked first_boot tracked_firmware 4 300).
  - unfold machine_ok, u32; simpl; repeat split; try lia; repeat constructor; lia.
  - unfold u32. lia.
  - simpl. lia.
  - vm_compute. discriminate.
  - reflexivity.
  - ring_ok_by_evaluation.
  - reflexivity.
  - vm_compute. reflexivity.
Defined.

(* ====================================================================== *)
(** ** Start-up with the defaults *)

(** X23. [consumption_init] with a null pointer does not validate the
    defaults it takes up, and their machine identifier is 0. So on a
    fresh start with a null pointer the module runs with an active
    configuration that [validate_config] rejects:
    [consumption_update_config] refuses that very configuration with
    [CONSUMPTION_ERROR_INVALID_CONFIG], and [consumption_on_dispense]
    refuses every machine identifier other than 0 with
    [CONSUMPTION_ERROR_INVALID_PARAMETER], both without changing
    anything. *)
Theorem default_config_fails_validation pf pf' fill w0 :
  initialized (g_state w0) = false ->
  storage pf (storage_reads w0) = None ->
  heap pf (allocations w0) = Some fill ->
  exists w,
    consumption_init pf None w0 = Ok (CONSUMPTION_SUCCESS, w) /\
    config (g_state w) = init_default_config /\
    machine_id (config (g_state w)) = 0 /\
    validate_config (Some (config (g_state w))) = false /\
    consumption_update_config (Some (config (g_state w))) w
    = Ok (CONSUMPTION_ERROR_INVALID_CONFIG, w) /\
    forall mid pid,
      mid <> 0 ->
      consumption_on_dispense pf' mid pid w
      = Ok (CONSUMPTION_ERROR_INVALID_PARAMETER, w).
Proof.
  intros Hi Hs Hh. exists (fresh_world pf None fill w0).
  split; [apply fresh_init; [exact Hi|exact Hs|exact Hh|exact I]|].
  split; [reflexivity|]. split; [reflexivity|]. split; [reflexivity|].
  split; [apply update_config_invalid; reflexivity|].
  intros mid pid Hne. apply on_dispense_wrong_machine; [reflexivity|exact Hne].
Qed.

Lemma default_config_fails_validation_witness :
  exists w,
    consumption_init first_boot None boot = Ok (CONSUMPTION_SUCCESS, w) /\
    config (g_state w) = init_default_config /\
    machine_id (config (g_state w)) = 0 /\
    validate_config (Some (config (g_state w))) = false /\
    consumption_update_config (Some (config (g_state w))) w
    = Ok (CONSUMPTION_ERROR_INVALID_CONFIG, w) /\
    forall mid pid,
      mid <> 0 ->
      consumption_on_dispense first_boot mid pid w
      = Ok (CONSUMPTION_ERROR_INVALID_PARAMETER, w).
Proof.
  apply (default_config_fails_validation first_boot first_boot zero_fill boot).
  - reflexivity.
  - reflexivity.
  - reflexivity.
Defined.

(* ====================================================================== *)
(** ** The ring of capacity 3, call by call *)

Lemma filter_all_accepted m (l : list (Z * Z)) :
  Forall (fun c => accepts m c = true) l -> List.filter (accepts m) l = l.
Proof.
  induction 1 as [|c l Hc _ IH]; [reflexivity|].
  simpl. rewrite Hc, IH. reflexivity.
Qed.

Lemma six_dispenses_accepted m :
  Forall (fun c => accepts m c = true) (six_dispenses m).
Proof.
  unfold six_dispenses, accepts.
  repeat constructor; cbn [fst snd]; rewrite Z.eqb_refl; reflexivity.
Qed.

Lemma answers_accepted m (l : list (Z * Z)) :
  Forall (fun c => accepts m c = true) l ->
  map (answer m) l = repeat CONSUMPTION_SUCCESS (length l).
Proof.
  induction 1 as [|c l Hc _ IH]; [reflexivity|].
  simpl. unfold answer at 1. rewrite Hc, IH. reflexivity.
Qed.

(** A sequence of record-event calls on a running instance of capacity at
    most 53 always runs to its end. *)
Lemma run_calls_defined_when_compact pf calls : forall w,
  running (g_state w) -> compact (g_state w) ->
  exists rs w', run_calls pf calls w = Ok (rs, w').
Proof.
  induction calls as [|[mid pid] rest IH]; intros w Hrun Hsmall.
  - eexists _, _. reflexivity.
  - pose proof Hrun as (_ & Hok & _).
    destruct (on_dispense_defined pf w mid pid Hok Hsmall) as (r & w1 & Hd).
    assert (Hs : serve pf (OnDispense mid pid) w = Ok (Some r, w1)).
    { cbn [serve]. rewrite (bind_eq _ _ _ _ _ Hd). reflexivity. }
    destruct (serve_running pf _ w _ w1 Hrun Hs) as (Hrun1 & _).
    pose proof (serve_compact pf (OnDispense mid pid) w _ w1 Hrun Hsmall I Hs)
      as Hsmall1.
    destruct (IH w1 Hrun1 Hsmall1) as (rs & w2 & Hr).
    exists (r :: rs), w2. simpl.
    rewrite (bind_eq _ _ _ _ _ Hd), (bind_eq _ _ _ _ _ Hr). reflexivity.
Qed.

(** The first [n] of the six calls on the fresh ring of capacity 3. *)
Lemma six_dispenses_prefix pf cfg fill w0 n rs w :
  validate_config (Some cfg) = true ->
  ring_buffer_size cfg = 3 ->
  run_calls pf (take n (six_dispenses (machine_id cfg)))
    (fresh_world pf (Some cfg) fill w0) = Ok (rs, w) ->
  rs = repeat CONSUMPTION_SUCCESS (Nat.min n 6) /\
  map product_id (buffered (g_state w)) = keep_last 3 (take n [1; 2; 3; 4; 5; 6]) /\
  buffer_count (g_state w) = Z.min (Z.of_nat n) 3 /\
  total_events (g_state w) = Z.min (Z.of_nat n) 6.
Proof.
  intros Hv Hcap H.
  assert (Ha : acceptable (Some cfg)) by (split; [exact Hv|lia]).
  destruct (fresh_state_ring pf (Some cfg) fill w0 Ha) as (Hok0 & Hb0 & Ht0).
  set (w1 := fresh_world pf (Some cfg) fill w0) in *.
  change (ring_ok (g_state w1)) in Hok0.
  change (buffered (g_state w1) = []) in Hb0.
  change (total_events (g_state w1) = 0) in Ht0.
  assert (Hacc : Forall (fun c => accepts (machine_id cfg) c = true)
                   (take n (six_dispenses (machine_id cfg))))
    by (apply Forall_take, six_dispenses_accepted).
  assert (Hlen : length (take n (six_dispenses (machine_id cfg))) = Nat.min n 6)
    by (rewrite length_take; reflexivity).
  destruct (run_calls_store pf _ w1 rs w eq_refl Hok0 H)
    as (Hrs & _ & Hok & _ & Hb).
  change (machine_id (config (g_state w1))) with (machine_id cfg) in Hrs, Hb.
  change (capacity (g_state w1)) with (ring_buffer_size cfg) in Hb.
  rewrite Hb0, Hcap, (filter_all_accepted _ _ Hacc) in Hb. cbn [map app] in Hb.
  rewrite (answers_accepted _ _ Hacc), Hlen in Hrs.
  assert (Hcats : map product_id (buffered (g_state w))
                  = keep_last 3 (take n [1; 2; 3; 4; 5; 6])).
  { transitivity (map snd (map identity (buffered (g_state w))));
      [rewrite map_map; reflexivity|].
    rewrite Hb, keep_last_map. f_equal.
    change (map snd (take n (six_dispenses (machine_id cfg))))
      with (snd <$> take n (six_dispenses (machine_id cfg))).
    rewrite fmap_take. reflexivity. }
  split; [exact Hrs|]. split; [exact Hcats|]. split.
  - rewrite <- (buffered_length _ Hok).
    rewrite <- (length_map product_id (buffered (g_state w))), Hcats.
    rewrite keep_last_length by lia. rewrite length_take. simpl length. lia.
  - assert (Hu : u32 (total_events (g_state w1))) by (rewrite Ht0; unfold u32; lia).
    destruct (run_calls_counters pf _ w1 rs w Hok0 Hu H) as (_ & _ & _ & Ht & _).
    rewrite Ht, Ht0, Hrs. unfold successes.
    rewrite List.forallb_filter_id.
    + rewrite repeat_length.
      replace (0 + Z.of_nat (Nat.min n 6)) with (Z.min (Z.of_nat n) 6) by lia.
      apply wrap32_small. unfold u32. lia.
    + apply forallb_forall. intros x Hx. apply repeat_spec in Hx. subst x.
      reflexivity.
Qed.

(** C2. A fresh instance of capacity 3 (nothing to restore, memory
    available) takes six record-event calls with categories 1 to 6. Each
    call that completes returns success, and after the first [n] of them
    the buffer holds, from the oldest to the newest, exactly the last
    three of the categories 1 to [n] (so [1;2;3] after three calls,
    [2;3;4] after four, [3;4;5] after five), the buffered count is
    [min n 3] and the lifetime total is [n]; after all six the buffer
    holds 4, 5, 6, the count is 3 and the total is 6. The append itself,
    on every well-formed ring, never fails: it returns success, removes
    the oldest buffered event exactly when the ring is full and puts the
    new event last. The six calls always complete when the external sink
    is off, and also when it is on and the machine identifier is a
    [uint32_t]. *)
Theorem ring_overwrites_oldest pf cfg fill w0 :
  initialized (g_state w0) = false ->
  storage pf (storage_reads w0) = None ->
  heap pf (allocations w0) = Some fill ->
  validate_config (Some cfg) = true ->
  ring_buffer_size cfg = 3 ->
  consumption_init pf (Some cfg) w0
  = Ok (CONSUMPTION_SUCCESS, fresh_world pf (Some cfg) fill w0) /\
  (forall rs w,
     run_calls pf (six_dispenses (machine_id cfg)) (fresh_world pf (Some cfg) fill w0)
     = Ok (rs, w) ->
     rs = repeat CONSUMPTION_SUCCESS 6 /\
     map product_id (buffered (g_state w)) = [4; 5; 6] /\
     buffer_count (g_state w) = 3 /\
     total_events (g_state w) = 6) /\
  (forall n rs w,
     run_calls pf (take n (six_dispenses (machine_id cfg)))
       (fresh_world pf (Some cfg) fill w0) = Ok (rs, w) ->
     rs = repeat CONSUMPTION_SUCCESS (Nat.min n 6) /\
     map product_id (buffered (g_state w)) = keep_last 3 (take n [1; 2; 3; 4; 5; 6]) /\
     buffer_count (g_state w) = Z.min (Z.of_nat n) 3 /\
     total_events (g_state w) = Z.min (Z.of_nat n) 6) /\
  (forall w e,
     ring_ok (g_state w) ->
     exists g',
       add_event_to_buffer e w = Ok (CONSUMPTION_SUCCESS, with_g (fun _ => g') w) /\
       ring_ok g' /\
       buffered g'
       = (if Z.of_nat (length (buffered (g_state w))) >=? capacity (g_state w)
          then tail (buffered (g_state w)) else buffered (g_state w)) ++ [e] /\
       buffer_count g'
       = Z.min (buffer_count (g_state w) + 1) (capacity (g_state w)) /\
       untouched (g_state w) g') /\
  (enable_external_api cfg = false \/ u32 (machine_id cfg) ->
   exists rs w,
     run_calls pf (six_dispenses (machine_id cfg)) (fresh_world pf (Some cfg) fill w0)
     = Ok (rs, w)).
Proof.
  intros Hi Hs Hh Hv Hcap.
  assert (Ha : acceptable (Some cfg)) by (split; [exact Hv|lia]).
  destruct (fresh_state_ring pf (Some cfg) fill w0 Ha) as (Hok0 & Hb0 & Ht0).
  split; [apply fresh_init; assumption|]. split; [|split; [|split]].
  - intros rs w H.
    apply (six_dispenses_prefix pf cfg fill w0 6 rs w Hv Hcap H).
  - intros n rs w H. apply (six_dispenses_prefix pf cfg fill w0 n rs w Hv Hcap H).
  - intros w e Hok. apply (add_event_to_buffer_spec w e Hok).
  - intros [Hen|Hu].
    + apply run_calls_defined_when_disabled; [exact Hok0|exact Hen].
    + apply run_calls_defined_when_compact.
      * split; [reflexivity|]. split; [exact Hok0|]. split; [reflexivity|].
        left. reflexivity.
      * split; [unfold capacity; simpl; lia|]. split; [exact Hu|].
        apply reading_u32.
Qed.

Lemma ring_overwrites_oldest_witness :
  consumption_init first_boot (Some shop_config) boot
  = Ok (CONSUMPTION_SUCCESS, shop_world) /\
  (forall rs w,
     run_calls first_boot (six_dispenses 11111) shop_world = Ok (rs, w) ->
     rs = repeat CONSUMPTION_SUCCESS 6 /\
     map product_id (buffered (g_state w)) = [4; 5; 6] /\
     buffer_count (g_state w) = 3 /\
     total_events (g_state w) = 6) /\
  (forall rs w,
     run_calls first_boot (take 4 (six_dispenses 11111)) shop_world = Ok (rs, w) ->
     rs = repeat CONSUMPTION_SUCCESS 4 /\
     map product_id (buffered (g_state w)) = [2; 3; 4] /\
     buffer_count (g_state w) = 3 /\
     total_events (g_state w) = 4) /\
  (forall rs w,
     run_calls first_boot (take 5 (six_dispenses 11111)) shop_world = Ok (rs, w) ->
     rs = repeat CONSUMPTION_SUCCESS 5 /\
     map product_id (buffered (g_state w)) = [3; 4; 5] /\
     buffer_count (g_state w) = 3 /\
     total_events (g_state w) = 5) /\
  (exists rs w, run_calls first_boot (six_dispenses 11111) shop_world = Ok (rs, w)).
Proof.
  destruct (ring_overwrites_oldest first_boot shop_config zero_fill boot)
    as (Hinit & Hsix & Hstep & _ & Hruns); try reflexivity.
  split; [exact Hinit|]. split; [exact Hsix|].
  split; [exact (Hstep 4%nat)|]. split; [exact (Hstep 5%nat)|].
  apply Hruns. left. reflexivity.
Defined.

(* ====================================================================== *)
(** ** Shutdown with the sink on *)

(** X5. [consumption_deinit] on an uninitialized module returns
    [CONSUMPTION_SUCCESS] and does nothing. On an initialized module with
    the external sink off it hands the module state to the storage write
    as it is, with the flag still set and the buffer pointer still in it,
    then clears the pointer and the flag and logs one line. With the sink
    on it first runs one [sync_to_api]: if that sync does not return (its
    report overruns [json_buffer]), neither does the shutdown; if it
    returns, with whatever code, the shutdown saves the state the sync
    left, clears pointer and flag, logs one line and returns
    [CONSUMPTION_SUCCESS]. So whenever the shutdown returns, the module is
    uninitialized with a null buffer pointer, configuration and lifetime
    total are kept, and the record last written carries the ring as it
    was, the flag set and the sync marks of the final state. On a running
    instance of capacity at most 53 (machine identifier and
    [last_aggregation] in the range of [uint32_t]) the shutdown always
    returns. *)
Theorem deinit_releases pf w :
  (initialized (g_state w) = false ->
   consumption_deinit pf w = Ok (CONSUMPTION_SUCCESS, w)) /\
  (initialized (g_state w) = true ->
   enable_external_api (config (g_state w)) = false ->
   consumption_deinit pf w
   = Ok (CONSUMPTION_SUCCESS,
         mk_world (set_initialized false (set_event_buffer None (g_state w)))
           (clock_reads w) (storage_reads w) (network_sends w) (allocations w)
           ((trace w ++ [IoStorageWrite (g_state w)])
            ++ [IoLog 2 "Consumption module deinitialized"]))) /\
  (initialized (g_state w) = true ->
   enable_external_api (config (g_state w)) = true ->
   consumption_deinit pf w
   = match sync_to_api pf w with
     | Ok (_, w1) =>
         Ok (CONSUMPTION_SUCCESS,
             mk_world (set_initialized false (set_event_buffer None (g_state w1)))
               (clock_reads w1) (storage_reads w1) (network_sends w1)
               (allocations w1)
               ((trace w1 ++ [IoStorageWrite (g_state w1)])
                ++ [IoLog 2 "Consumption module deinitialized"]))
     | Fault u => Fault u
     end) /\
  (forall r w',
     initialized (g_state w) = true ->
     consumption_deinit pf w = Ok (r, w') ->
     r = CONSUMPTION_SUCCESS /\
     initialized (g_state w') = false /\
     event_buffer (g_state w') = None /\
     config (g_state w') = config (g_state w) /\
     total_events (g_state w') = total_events (g_state w) /\
     exists blob,
       persisted (trace w') = Some blob /\
       same_store (g_state w) blob /\
       initialized blob = true /\
       last_sync blob = last_sync (g_state w') /\
       last_aggregation blob = last_aggregation (g_state w')) /\
  (running (g_state w) -> compact (g_state w) ->
   exists w', consumption_deinit pf w = Ok (CONSUMPTION_SUCCESS, w')).
Proof.
  assert (Hon : initialized (g_state w) = true ->
    enable_external_api (config (g_state w)) = true ->
    consumption_deinit pf w
    = match sync_to_api pf w with
      | Ok (_, w1) =>
          Ok (CONSUMPTION_SUCCESS,
              mk_world (set_initialized false (set_event_buffer None (g_state w1)))
                (clock_reads w1) (storage_reads w1) (network_sends w1)
                (allocations w1)
                ((trace w1 ++ [IoStorageWrite (g_state w1)])
                 ++ [IoLog 2 "Consumption module deinitialized"]))
      | Fault u => Fault u
      end).
  { intros Hi Hen. unfold consumption_deinit, bind at 1, get. rewrite Hi, Hen.
    cbn [negb]. unfold bind at 1. unfold bind at 1.
    destruct (sync_to_api pf w) as [[r1 w1]|u]; reflexivity. }
  assert (Hoff : initialized (g_state w) = true ->
    enable_external_api (config (g_state w)) = false ->
    consumption_deinit pf w
    = Ok (CONSUMPTION_SUCCESS,
          mk_world (set_initialized false (set_event_buffer None (g_state w)))
            (clock_reads w) (storage_reads w) (network_sends w) (allocations w)
            ((trace w ++ [IoStorageWrite (g_state w)])
             ++ [IoLog 2 "Consumption module deinitialized"]))).
  { intros Hi Hen. unfold consumption_deinit, bind, get, ret, modify, save_state,
      consumption_platform_storage_write, consumption_platform_log, output.
    rewrite Hi, Hen. reflexivity. }
  split; [|split; [exact Hoff|split; [exact Hon|split]]].
  - intros Hi. unfold consumption_deinit, bind, get, ret. rewrite Hi. reflexivity.
  - intros r w'. apply deinit_outcome.
  - intros (Hi & Hok & _) Hsmall.
    destruct (enable_external_api (config (g_state w))) eqn:Hen.
    + rewrite (Hon Hi eq_refl).
      destruct (sync_to_api_defined pf w Hok Hsmall) as (r1 & w1 & Hsync).
      rewrite Hsync. eexists. reflexivity.
    + rewrite (Hoff Hi eq_refl). eexists. reflexivity.
Qed.

Lemma deinit_releases_witness :
  consumption_deinit first_boot boot = Ok (CONSUMPTION_SUCCESS, boot) /\
  consumption_deinit first_boot open_shop = Ok (CONSUMPTION_SUCCESS, closed_shop) /\
  (exists w' blob,
     consumption_deinit shutdown_day unsaved_world = Ok (CONSUMPTION_SUCCESS, w') /\
     initialized (g_state w') = false /\
     event_buffer (g_state w') = None /\
     persisted (trace w') = Some blob /\
     same_store (g_state unsaved_world) blob /\
     initialized blob = true /\
     marks (g_state unsaved_world) = (0, 1000) /\
     marks blob = (5000, 5000) /\
     payloads_sent (trace w')
     = [(payload_text (report shutdown_day unsaved_world),
         strlen (payload_text (report shutdown_day unsaved_world)))]) /\
  busy_shutdown boot = Fault OutOfBounds.
Proof.
  destruct (deinit_releases first_boot boot) as (Hidle & _).
  destruct (deinit_releases first_boot open_shop) as (_ & Hoff & _).
  destruct (deinit_releases shutdown_day unsaved_world) as (_ & _ & Hon & _).
  split; [apply Hidle; reflexivity|]. split; [apply Hoff; reflexivity|].
  split.
  - eexists _, _. split; [rewrite (Hon eq_refl eq_refl); vm_compute; reflexivity|].
    split; [reflexivity|]. split; [reflexivity|]. split; [reflexivity|].
    split; [unfold same_store; repeat split; reflexivity|].
    split; [reflexivity|]. split; [reflexivity|]. split; [reflexivity|].
    vm_compute. reflexivity.
  - vm_compute. reflexivity.
Defined.
